(** * FVariadicStruct: a shallow embedding of the storage engine and the
    serialization codec of VariadicStruct.h / VariadicStruct.cpp.

    The reflection layer of the host engine (UScriptStruct, the linker that
    resolves object references, the property serializer) is external to the
    repository; it is represented here by the data that the container reads
    from it.  Everything the container does itself is translated from the
    source. *)

From Stdlib Require Import ZArith List Bool Lia.
From stdpp Require Import base gmap.
From Stdlib Require String Ascii.
Import ListNotations.

Open Scope Z_scope.

(* ------------------------------------------------------------------ *)
(** ** Type descriptors (UScriptStruct, external) *)

(** What the container reads from a [UScriptStruct]: its identity in the
    object registry, [GetStructureSize()], [GetMinAlignment()], the chain of
    [GetSuperStruct()] (by identity, used by [IsChildOf]) and the value that
    [InitializeStruct] constructs.  A payload is the list of its field
    values. *)
Record UScriptStruct := MkScriptStruct {
  StructName : nat;
  StructureSize : Z;
  MinAlignment : Z;
  SuperStructs : list nat;
  DefaultValue : list Z
}.

#[global] Instance UScriptStruct_eq_dec : EqDecision UScriptStruct.
Proof.
  intros [n1 s1 a1 p1 d1] [n2 s2 a2 p2 d2].
  destruct (decide (n1 = n2)), (decide (s1 = s2)), (decide (a1 = a2)),
    (decide (p1 = p2)), (decide (d1 = d2)); subst;
    try (left; reflexivity); right; congruence.
Defined.

(** Pointer comparison [A == B] of two nullable descriptor pointers. *)
Definition ptr_eqb (a b : option UScriptStruct) : bool :=
  bool_decide (a = b).

(** [UStruct::IsChildOf]: walks [this], then the super-struct chain. *)
Definition IsChildOf (s base : UScriptStruct) : bool :=
  bool_decide (s = base) || existsb (Nat.eqb (StructName base)) (SuperStructs s).

(** A descriptor of a real C++ type: [alignof] is a power of two and
    [sizeof] is a positive multiple of it. *)
Definition is_pow2 (a : Z) : Prop := exists k, 0 <= k /\ a = 2 ^ k.

Definition WellFormedStruct (s : UScriptStruct) : Prop :=
  is_pow2 (MinAlignment s) /\ 0 < StructureSize s /\
  StructureSize s mod MinAlignment s = 0.

(* ------------------------------------------------------------------ *)
(** ** Placement (VariadicStruct.h) *)

(** [static inline constexpr int32 BUFFER_SIZE = 24;] *)
Definition BUFFER_SIZE : Z := 24.

(** [alignof(FVariadicStruct)], from [struct alignas(16) FVariadicStruct]. *)
Definition CONTAINER_ALIGNMENT : Z := 16.

(** [RequiresMemoryAllocation], with the two compile-time constants as
    parameters: the [if constexpr (BUFFER_SIZE < alignof(FVariadicStruct) * 2)]
    selects the size-only test. *)
Definition RequiresMemoryAllocationWith (buffer_size alignment : Z)
    (s : UScriptStruct) : bool :=
  if buffer_size <? alignment * 2
  then StructureSize s >? buffer_size
  else (StructureSize s >? buffer_size) || (MinAlignment s >? alignment).

(** [FVariadicStruct::RequiresMemoryAllocation] as compiled. *)
Definition RequiresMemoryAllocation (s : UScriptStruct) : bool :=
  RequiresMemoryAllocationWith BUFFER_SIZE CONTAINER_ALIGNMENT s.

(** [TypeRequiresMemoryAllocation<T>()], for the descriptor
    [TBaseStructure<T>::Get()] of [T] ([sizeof]/[alignof] of [T]). *)
Definition TypeRequiresMemoryAllocation (t : UScriptStruct) : bool :=
  (StructureSize t >? BUFFER_SIZE) || (MinAlignment t >? CONTAINER_ALIGNMENT).

(** The two sides of the elision argument: the full size-or-alignment test
    and the size-only test, for given constants. *)
Definition FullPlacementCheck (buffer_size alignment : Z) (s : UScriptStruct) : bool :=
  (StructureSize s >? buffer_size) || (MinAlignment s >? alignment).

Definition SizeOnlyPlacementCheck (buffer_size : Z) (s : UScriptStruct) : bool :=
  StructureSize s >? buffer_size.

(** The layout assertions of [FVariadicStructValidateInvariants] that
    involve the two constants ([sizeof(ScriptStruct) == 8]):
    [alignof(FVariadicStruct) >= 8], [BUFFER_SIZE >= alignof(FVariadicStruct)]
    and [(BUFFER_SIZE - 8) % alignof(FVariadicStruct) == 0]. *)
Definition ValidateInvariants (buffer_size alignment : Z) : bool :=
  (alignment >=? 8) && (buffer_size >=? alignment) && ((buffer_size - 8) mod alignment =? 0).

(* ------------------------------------------------------------------ *)
(** ** The container *)

(** The anonymous union of [FVariadicStruct]: either [StructBuffer] holds
    the bytes of an inline value, or [StructMemory] is the active member
    (a heap address, or [nullptr]). *)
Inductive StorageCell :=
| CellBuffer (v : list Z)
| CellMemory (p : option nat).

Record FVariadicStruct := MkVariadic {
  ScriptStruct : option UScriptStruct;
  Storage : StorageCell
}.

(** [FVariadicStruct() = default]: [StructMemory = nullptr],
    [ScriptStruct = nullptr]. *)
Definition EmptyVariadic : FVariadicStruct := MkVariadic None (CellMemory None).

(** Addresses handed out by the accessors: [nullptr], the address of this
    container's [StructBuffer], or a heap block. *)
Inductive Ptr := PNull | PBuffer | PHeap (n : nat).

(** Reading the [StructMemory] member.  When the buffer is the active member
    the bytes would be reinterpreted; no reachable state reads it then
    (see [ContainerWF]), and the model gives [nullptr]. *)
Definition StructMemory (c : FVariadicStruct) : option nat :=
  match Storage c with
  | CellMemory p => p
  | CellBuffer _ => None
  end.

Definition PtrOf (p : option nat) : Ptr :=
  match p with Some n => PHeap n | None => PNull end.

(** [GetMemory] / [GetMutableMemory]. *)
Definition GetMemory (c : FVariadicStruct) : Ptr :=
  match ScriptStruct c with
  | Some s => if negb (RequiresMemoryAllocation s) then PBuffer else PtrOf (StructMemory c)
  | None => PtrOf (StructMemory c)
  end.

Definition GetMutableMemory := GetMemory.

(** [GetTypeMemory<T>()] / [GetMutableTypeMemory<T>()]. *)
Definition GetTypeMemory (t : UScriptStruct) (c : FVariadicStruct) : Ptr :=
  if TypeRequiresMemoryAllocation t then PtrOf (StructMemory c) else PBuffer.

(** [IsValid()]: [GetScriptStruct() != nullptr]. *)
Definition IsValid (c : FVariadicStruct) : bool :=
  match ScriptStruct c with Some _ => true | None => false end.

(** [ResetStructData(InScriptStruct, InStructMemory)]. *)
Definition ResetStructData (s : option UScriptStruct) (p : option nat) : FVariadicStruct :=
  MkVariadic s (CellMemory p).

(* ------------------------------------------------------------------ *)
(** ** The world: heap and the calls made into the reflection layer *)

Inductive Event :=
| EvMalloc (n : nat)
| EvFree (n : nat)
| EvInitializeStruct (s : UScriptStruct)
| EvCopyScriptStruct (s : UScriptStruct)
| EvClearScriptStruct (s : UScriptStruct)
| EvDestroyStruct (s : UScriptStruct)
| EvWarning (serial_size : Z)
| EvLog (serial_size : Z).

Record World := MkWorld {
  Heap : gmap nat (list Z);
  NextAddr : nat;
  Events : list Event
}.

Definition emit (w : World) (e : Event) : World :=
  MkWorld (Heap w) (NextAddr w) (Events w ++ [e]).

(** The payload at an address owned by container [c]. *)
Definition Deref (w : World) (c : FVariadicStruct) (p : Ptr) : option (list Z) :=
  match p with
  | PNull => None
  | PBuffer => match Storage c with CellBuffer v => Some v | CellMemory _ => None end
  | PHeap n => Heap w !! n
  end.

(** Writing a whole payload at an address owned by [c]. *)
Definition Store (w : World) (c : FVariadicStruct) (p : Ptr) (v : list Z)
    : World * FVariadicStruct :=
  match p with
  | PNull => (w, c)
  | PBuffer => (w, MkVariadic (ScriptStruct c) (CellBuffer v))
  | PHeap n => (MkWorld (<[n := v]> (Heap w)) (NextAddr w) (Events w), c)
  end.

(** [FMemory::Malloc] returns a fresh block; [FMemory::Free] releases it. *)
Definition Malloc (w : World) : World * nat :=
  let n := NextAddr w in
  (emit (MkWorld (<[n := []]> (Heap w)) (S n) (Events w)) (EvMalloc n), n).

Definition Free (w : World) (p : Ptr) : World :=
  match p with
  | PHeap n => emit (MkWorld (delete n (Heap w)) (NextAddr w) (Events w)) (EvFree n)
  | _ => w
  end.

(** The descriptor's value operations (external): construct the default
    value, copy a payload, reset to the default, destroy. *)
Definition InitializeStruct (s : UScriptStruct) (w : World) (c : FVariadicStruct) (p : Ptr) :=
  Store (emit w (EvInitializeStruct s)) c p (DefaultValue s).

Definition CopyScriptStruct (s : UScriptStruct) (w : World) (c : FVariadicStruct) (p : Ptr)
    (src : list Z) :=
  Store (emit w (EvCopyScriptStruct s)) c p src.

Definition ClearScriptStruct (s : UScriptStruct) (w : World) (c : FVariadicStruct) (p : Ptr) :=
  Store (emit w (EvClearScriptStruct s)) c p (DefaultValue s).

Definition DestroyStruct (s : UScriptStruct) (w : World) : World :=
  emit w (EvDestroyStruct s).

(** [CompareScriptStruct(A, B, PPF_None)]: deep comparison of the two
    payloads. *)
Definition CompareScriptStruct (s : UScriptStruct) (a b : option (list Z)) : bool :=
  match a, b with
  | Some x, Some y => bool_decide (x = y)
  | _, _ => false
  end.

(* ------------------------------------------------------------------ *)
(** ** Lifecycle (VariadicStruct.cpp) *)

(** [FVariadicStruct::Reset]. *)
Definition Reset (w : World) (c : FVariadicStruct) : World * FVariadicStruct :=
  let MemoryPtr := GetMutableMemory c in
  let w' :=
    match MemoryPtr, ScriptStruct c with
    | PNull, _ => w
    | _, Some s =>
        let w1 := DestroyStruct s w in
        if RequiresMemoryAllocation s then Free w1 MemoryPtr else w1
    | _, None => w  (* non-null memory without a type: not reachable *)
    end in
  (w', ResetStructData None None).

(** The [else] branch of [InitializeAs]: [Reset()], set the type, allocate
    if needed, default-construct, then copy the source if given. *)
Definition InitializeAsNew (w : World) (c : FVariadicStruct)
    (InScriptStruct : option UScriptStruct) (InStructMemory : option (list Z))
    : World * FVariadicStruct :=
  let '(w1, c1) := Reset w c in
  match InScriptStruct with
  | None => (w1, MkVariadic None (Storage c1))
  | Some t =>
      let c2 := MkVariadic (Some t) (Storage c1) in
      let '(w2, c3, MemoryPtr) :=
        if RequiresMemoryAllocation t
        then let '(w2, n) := Malloc w1 in
             (w2, MkVariadic (Some t) (CellMemory (Some n)), PHeap n)
        else (w1, c2, PBuffer) in
      let '(w4, c4) := InitializeStruct t w2 c3 MemoryPtr in
      match InStructMemory with
      | Some src => CopyScriptStruct t w4 c4 MemoryPtr src
      | None => (w4, c4)
      end
  end.

(** [FVariadicStruct::InitializeAs(InScriptStruct, InStructMemory)]; the
    source is the payload found at [InStructMemory] ([None] for
    [nullptr]); it does not alias the destination.  The
    [checkf(ValidateScriptStruct(...))] assertion only rejects the wrapper
    types themselves, which are not modelled as payload types. *)
Definition InitializeAs (w : World) (c : FVariadicStruct)
    (InScriptStruct : option UScriptStruct) (InStructMemory : option (list Z))
    : World * FVariadicStruct :=
  match ScriptStruct c with
  | Some s =>
      if IsValid c && ptr_eqb InScriptStruct (ScriptStruct c) then
        match InStructMemory with
        | Some src => CopyScriptStruct s w c (GetMutableMemory c) src
        | None => ClearScriptStruct s w c (GetMutableMemory c)
        end
      else InitializeAsNew w c InScriptStruct InStructMemory
  | None => InitializeAsNew w c InScriptStruct InStructMemory
  end.

(** [FVariadicStruct(FVariadicStruct&& InOther)]: returns the world, the
    new container and [InOther] afterwards. *)
Definition MoveConstruct (w : World) (InOther : FVariadicStruct)
    : World * FVariadicStruct * FVariadicStruct :=
  match ScriptStruct InOther with
  | Some s =>
      if negb (RequiresMemoryAllocation s) then
        let '(w1, self) :=
          InitializeAs w EmptyVariadic (Some s) (Deref w InOther (GetMemory InOther)) in
        let '(w2, other) := Reset w1 InOther in
        (w2, self, other)
      else (w, ResetStructData (ScriptStruct InOther) (StructMemory InOther), ResetStructData None None)
  | None => (w, ResetStructData (ScriptStruct InOther) (StructMemory InOther), ResetStructData None None)
  end.

(** [operator=(FVariadicStruct&& InOther)] for [this != &InOther]: returns
    the world, [*this] and [InOther] afterwards. *)
Definition MoveAssign (w : World) (self InOther : FVariadicStruct)
    : World * FVariadicStruct * FVariadicStruct :=
  match ScriptStruct InOther with
  | Some s =>
      if negb (RequiresMemoryAllocation s) then
        let '(w1, self1) :=
          InitializeAs w self (Some s) (Deref w InOther (GetMemory InOther)) in
        let '(w2, other) := Reset w1 InOther in
        (w2, self1, other)
      else
        let '(w1, _) := Reset w self in
        (w1, ResetStructData (ScriptStruct InOther) (StructMemory InOther), ResetStructData None None)
  | None =>
      let '(w1, _) := Reset w self in
      (w1, ResetStructData (ScriptStruct InOther) (StructMemory InOther), ResetStructData None None)
  end.

(** [FVariadicStruct::Identical(Other, PortFlags)]. *)
Definition Identical (w : World) (self other : FVariadicStruct) : bool :=
  match ScriptStruct self with
  | Some s =>
      if ptr_eqb (ScriptStruct self) (ScriptStruct other)
      then CompareScriptStruct s (Deref w self (GetMemory self)) (Deref w other (GetMemory other))
      else false
  | None => false
  end.

(** [GetValuePtr<T, bExactType>()] (and [GetMutableValuePtr]), for
    [TBaseStructure<T>::Get() = t]. *)
Definition GetValuePtr (t : UScriptStruct) (bExactType : bool) (c : FVariadicStruct) : Ptr :=
  if ptr_eqb (ScriptStruct c) (Some t) then GetTypeMemory t c
  else if negb bExactType &&
          match ScriptStruct c with Some s => IsChildOf s t | None => false end
  then GetMemory c
  else PNull.

(** Reachable states: an empty container has [StructMemory = nullptr]; a
    heap-placed value owns a live heap block; an inline value lives in the
    buffer. *)
Definition ContainerWF (w : World) (c : FVariadicStruct) : Prop :=
  match ScriptStruct c with
  | None => Storage c = CellMemory None
  | Some s =>
      if RequiresMemoryAllocation s
      then exists n v, Storage c = CellMemory (Some n) /\ Heap w !! n = Some v
      else exists v, Storage c = CellBuffer v
  end.

(* ------------------------------------------------------------------ *)
(** ** Archives *)

(** The linker side of [Ar << UScriptStruct*] (external): an object
    reference is stored as an int32 package index; loading resolves it
    ([None]: [nullptr], also when the type cannot be loaded), saving maps a
    type to its index. *)
Record FLinker := MkLinker {
  ResolveIndex : Z -> option UScriptStruct;
  IndexOf : option UScriptStruct -> Z
}.

Inductive ArEvent :=
| ArRead (pos : Z) (n : nat)
| ArWrite (pos : Z) (bytes : list Z)
| ArSeek (pos : Z).

(** A byte archive ([FMemoryReader]/[FMemoryWriter] behind a linker):
    the bytes, the offset ([Tell()]), the operations performed, the
    custom version recorded for [FInstancedStruct] ([-1] when absent, as
    [CustomVer] returns) and whether it is a text archive. *)
Record FArchive := MkArchive {
  ArBytes : list Z;
  ArPos : Z;
  ArTrace : list ArEvent;
  ArLinker : FLinker;
  ArInstancedStructVer : Z;
  ArIsTextFormat : bool
}.

Definition with_pos_bytes (ar : FArchive) (bs : list Z) (pos : Z) (e : ArEvent) : FArchive :=
  MkArchive bs pos (ArTrace ar ++ [e]) (ArLinker ar) (ArInstancedStructVer ar)
    (ArIsTextFormat ar).

(** [Ar.Seek(Pos)]. *)
Definition Seek (ar : FArchive) (pos : Z) : FArchive :=
  with_pos_bytes ar (ArBytes ar) pos (ArSeek pos).

(** Reading [n] bytes at the offset; bytes past the end read as zero (the
    reader flags an error and leaves the zero-initialised variable). *)
Definition ReadBytes (ar : FArchive) (n : nat) : list Z * FArchive :=
  (map (fun i => nth (Z.to_nat (ArPos ar) + i) (ArBytes ar) 0) (seq 0 n),
   with_pos_bytes ar (ArBytes ar) (ArPos ar + Z.of_nat n) (ArRead (ArPos ar) n)).

(** Writing bytes at the offset: overwrite in place, grow at the end. *)
Definition write_at (bs : list Z) (pos : nat) (l : list Z) : list Z :=
  firstn pos bs ++ repeat 0 (pos - length bs) ++ l ++ skipn (pos + length l) bs.

Definition WriteBytes (ar : FArchive) (l : list Z) : FArchive :=
  with_pos_bytes ar (write_at (ArBytes ar) (Z.to_nat (ArPos ar)) l)
    (ArPos ar + Z.of_nat (length l)) (ArWrite (ArPos ar) l).

(** Little-endian two's complement encoding of an [int32]/[uint32]. *)
Definition int32_bytes (x : Z) : list Z :=
  map (fun i => Z.land (Z.shiftr x (8 * Z.of_nat i)) 255) (seq 0 4).

Definition uint32_of_bytes (l : list Z) : Z :=
  fold_right (fun b acc => b + 256 * acc) 0 l.

Definition int32_of_bytes (l : list Z) : Z :=
  let u := uint32_of_bytes l in if u >=? 2 ^ 31 then u - 2 ^ 32 else u.

(** [Ar << int32], [Ar << uint32], [Ar << uint8] when loading. *)
Definition ReadInt32 (ar : FArchive) : Z * FArchive :=
  let '(l, ar') := ReadBytes ar 4 in (int32_of_bytes l, ar').

Definition ReadUInt32 (ar : FArchive) : Z * FArchive :=
  let '(l, ar') := ReadBytes ar 4 in (uint32_of_bytes l, ar').

Definition ReadUInt8 (ar : FArchive) : Z * FArchive :=
  let '(l, ar') := ReadBytes ar 1 in (uint32_of_bytes l, ar').

(** [Ar << int32] when saving. *)
Definition WriteInt32 (ar : FArchive) (x : Z) : FArchive := WriteBytes ar (int32_bytes x).

(** [Ar << UScriptStruct*] when loading and when saving. *)
Definition ReadStructRef (ar : FArchive) : option UScriptStruct * FArchive :=
  let '(idx, ar') := ReadInt32 ar in (ResolveIndex (ArLinker ar) idx, ar').

Definition WriteStructRef (ar : FArchive) (s : option UScriptStruct) : FArchive :=
  WriteInt32 ar (IndexOf (ArLinker ar) s).

(** The descriptor's [SerializeItem] (external): the payload is its fields,
    each as an int32, as many as the type has.  The delta against the
    defaults is not modelled: every field is written. *)
Definition payload_bytes (v : list Z) : list Z := concat (map int32_bytes v).

Fixpoint ReadInt32s (ar : FArchive) (n : nat) : list Z * FArchive :=
  match n with
  | O => ([], ar)
  | S m => let '(x, ar1) := ReadInt32 ar in
           let '(xs, ar2) := ReadInt32s ar1 m in (x :: xs, ar2)
  end.

Definition SerializeItemLoad (s : UScriptStruct) (w : World) (c : FVariadicStruct) (p : Ptr)
    (ar : FArchive) : World * FVariadicStruct * FArchive :=
  let '(v, ar1) := ReadInt32s ar (length (DefaultValue s)) in
  let '(w1, c1) := Store w c p v in (w1, c1, ar1).

Definition SerializeItemSave (w : World) (c : FVariadicStruct) (p : Ptr) (ar : FArchive)
    : FArchive :=
  match Deref w c p with
  | Some v => WriteBytes ar (payload_bytes v)
  | None => ar
  end.

(** [FConstStructView]: a type and the payload at its memory. *)
Record FConstStructView := MkView {
  ViewStruct : option UScriptStruct;
  ViewMemory : option (list Z)
}.

(* ------------------------------------------------------------------ *)
(** ** Serialization (VariadicStruct.cpp) *)

(** The end of the loading branch of [Serialize], from the [Defaults]
    computation on. *)
Definition SerializeLoadValue (w : World) (c : FVariadicStruct)
    (StructDefaults : option FConstStructView) (SerializedScriptStruct : option UScriptStruct)
    (SerialSize : Z) (ar : FArchive) : bool * World * FVariadicStruct * FArchive :=
  let Defaults := match StructDefaults with Some d => ViewMemory d | None => None end in
  let '(w1, c1) :=
    if match StructDefaults with Some _ => true | None => false end || negb (ptr_eqb (ScriptStruct c) SerializedScriptStruct)
    then InitializeAs w c SerializedScriptStruct Defaults
    else (w, c) in
  match GetMutableMemory c1, ScriptStruct c1 with
  | PNull, _ =>
      if SerialSize >? 0
      then (true, emit w1 (EvWarning SerialSize), c1, Seek ar (ArPos ar + SerialSize))
      else (true, w1, c1, ar)
  | MemoryPtr, Some s =>
      let '(w2, c2, ar2) := SerializeItemLoad s w1 c1 MemoryPtr ar in (true, w2, c2, ar2)
  | _, None => (true, w1, c1, ar)  (* memory without a type: not reachable *)
  end.

(** [FVariadicStruct::Serialize(Ar, StructDefaults)] with [Ar.IsLoading()]
    ([Ar.Preload] has no effect on the model). *)
Definition SerializeLoad (w : World) (c : FVariadicStruct)
    (StructDefaults : option FConstStructView) (ar : FArchive)
    : bool * World * FVariadicStruct * FArchive :=
  let '(SerializedScriptStruct, ar1) := ReadStructRef ar in
  let '(SerialSize, ar2) := ReadInt32 ar1 in
  match StructDefaults with
  | Some d =>
      if negb (ptr_eqb (ViewStruct d) SerializedScriptStruct) then
        let '(w1, c1) := InitializeAs (emit w (EvLog SerialSize)) c (ViewStruct d) (ViewMemory d) in
        (true, w1, c1, Seek ar2 (ArPos ar2 + SerialSize))
      else SerializeLoadValue w c StructDefaults SerializedScriptStruct SerialSize ar2
  | None => SerializeLoadValue w c StructDefaults SerializedScriptStruct SerialSize ar2
  end.

(** [FVariadicStruct::Serialize(Ar, StructDefaults)] with [Ar.IsSaving()],
    in a build without [WITH_EDITOR] (the duplicated user-defined-struct
    redirection is editor-only).  [IntCastChecked<int32>] asserts the size
    fits; the int32 encoding keeps its low 32 bits. *)
Definition SerializeSave (w : World) (c : FVariadicStruct)
    (StructDefaults : option FConstStructView) (ar : FArchive)
    : bool * World * FVariadicStruct * FArchive :=
  let '(w1, c1) :=
    match StructDefaults with
    | Some d =>
        if negb (ptr_eqb (ViewStruct d) (ScriptStruct c))
        then InitializeAs w c (ViewStruct d) (ViewMemory d)
        else (w, c)
    | None => (w, c)
    end in
  let ar1 := WriteStructRef ar (ScriptStruct c1) in
  let SizeOffset := ArPos ar1 in
  let ar2 := WriteInt32 ar1 0 in
  let InitialOffset := ArPos ar2 in
  let ar3 :=
    match GetMutableMemory c1 with
    | PNull => ar2
    | MemoryPtr => SerializeItemSave w1 c1 MemoryPtr ar2
    end in
  let FinalOffset := ArPos ar3 in
  let SerialSize := FinalOffset - InitialOffset in
  let ar4 := Seek ar3 SizeOffset in
  let ar5 := WriteInt32 ar4 SerialSize in
  let ar6 := Seek ar5 FinalOffset in
  (true, w1, c1, ar6).

(** [FVariadicStruct::SerializeFromMismatchedTag]; [TagIsInstancedStruct]
    is [Tag.GetType().IsStruct(NAME_InstancedStruct)]. *)
Definition LegacyEditorHeader : Z := 2880154539. (* 0xABABABAB *)

Definition SerializeFromMismatchedTag (w : World) (c : FVariadicStruct)
    (TagIsInstancedStruct : bool) (ar : FArchive)
    : bool * World * FVariadicStruct * FArchive :=
  if TagIsInstancedStruct then
    if negb (ArInstancedStructVer ar =? 0) then (false, w, c, ar)
    else if ArIsTextFormat ar then (false, w, c, ar)
    else
      let ar1 :=
        if ArInstancedStructVer ar <? 0 then
          let HeaderOffset := ArPos ar in
          let '(Header, a1) := ReadUInt32 ar in
          let a2 := if negb (Header =? LegacyEditorHeader) then Seek a1 HeaderOffset else a1 in
          let '(_, a3) := ReadUInt8 a2 in a3
        else ar in
      let '(SerializedScriptStruct, ar2) := ReadStructRef ar1 in
      let '(w1, c1) :=
        if negb (ptr_eqb (ScriptStruct c) SerializedScriptStruct)
        then InitializeAs w c SerializedScriptStruct None
        else (w, c) in
      let '(SerialSize, ar3) := ReadInt32 ar2 in
      let '(w2, ar4) :=
        if negb (IsValid c1) && (SerialSize >? 0)
        then (emit w1 (EvWarning SerialSize), Seek ar3 (ArPos ar3 + SerialSize))
        else (w1, ar3) in
      match GetMutableMemory c1, ScriptStruct c1 with
      | PNull, _ => (true, w2, c1, ar4)
      | MemoryPtr, Some s =>
          let '(w3, c3, ar5) := SerializeItemLoad s w2 c1 MemoryPtr ar4 in (true, w3, c3, ar5)
      | _, None => (true, w2, c1, ar4)
      end
  else (false, w, c, ar).

(* ------------------------------------------------------------------ *)
(** ** Concrete descriptors and archives used by the examples *)

(** [FIntPoint] (8 bytes), [FVector] (24 bytes, = BUFFER_SIZE), [FPlane]
    (derived from [FVector]), [FTransform] (heap-placed). *)
Definition FIntPoint : UScriptStruct := MkScriptStruct 1 8 4 [] [0; 0].
Definition FVector : UScriptStruct := MkScriptStruct 2 24 8 [] [0; 0; 0].
Definition FPlane : UScriptStruct := MkScriptStruct 3 32 16 [2%nat] [0; 0; 0; 0].
Definition FTransform : UScriptStruct := MkScriptStruct 4 96 16 [] (repeat 0 12).

(** A real 32-byte, 32-aligned type. *)
Definition Aligned32 : UScriptStruct := MkScriptStruct 6 32 32 [] [0].

Definition ExampleLinker : FLinker :=
  MkLinker
    (fun i => if i =? 1 then Some FIntPoint else if i =? 2 then Some FVector
              else if i =? 3 then Some FPlane else if i =? 4 then Some FTransform
              else None)
    (fun o => match o with Some s => Z.of_nat (StructName s) | None => 0 end).

Definition EmptyWorld : World := MkWorld ∅ 0 [].

Definition ExampleArchive (bs : list Z) (ver : Z) : FArchive :=
  MkArchive bs 0 [] ExampleLinker ver false.

(** An [FPlane] held on the heap, read as its base [FVector]. *)
Definition PlaneWorld : World := MkWorld (<[0%nat := [1; 2; 3; 4]]> ∅) 1 [].
Definition PlaneVariadic : FVariadicStruct := MkVariadic (Some FPlane) (CellMemory (Some 0%nat)).

(** An [FVector] held inline. *)
Definition VectorVariadic : FVariadicStruct := MkVariadic (Some FVector) (CellBuffer [1; 2; 3]).

(** Values of C's [int32]. *)
Definition int32_range (x : Z) : Prop := - 2 ^ 31 <= x < 2 ^ 31.

(* ------------------------------------------------------------------ *)
(** ** Copies, typed initialisation and typed access (VariadicStruct.h / .cpp) *)

(** [FVariadicStruct(const FVariadicStruct& InOther)]. *)
Definition CopyConstruct (w : World) (InOther : FVariadicStruct) : World * FVariadicStruct :=
  InitializeAs w EmptyVariadic (ScriptStruct InOther) (Deref w InOther (GetMemory InOther)).

(** [operator=(const FVariadicStruct& InOther)] for [this != &InOther]. *)
Definition CopyAssign (w : World) (self InOther : FVariadicStruct) : World * FVariadicStruct :=
  InitializeAs w self (ScriptStruct InOther) (Deref w InOther (GetMemory InOther)).

(** [InitializeAs<T>(InArgs...)] for [TBaseStructure<T>::Get() = t]; [v] is
    the value [T(InArgs...)] constructs.  [std::destroy_at] and placement
    [new] are direct C++ calls, not calls into the reflection layer, and
    leave no event.  Returns the world, the container and the [T*]
    returned. *)
Definition InitializeAsT (w : World) (c : FVariadicStruct) (t : UScriptStruct) (v : list Z)
    : World * FVariadicStruct * Ptr :=
  if ptr_eqb (Some t) (ScriptStruct c) then
    let MemoryPtr := if TypeRequiresMemoryAllocation t then PtrOf (StructMemory c) else PBuffer in
    let '(w1, c1) := Store w c MemoryPtr v in (w1, c1, MemoryPtr)
  else
    let '(w1, c1) := Reset w c in
    let c2 := MkVariadic (Some t) (Storage c1) in
    let '(w2, c3, MemoryPtr) :=
      if TypeRequiresMemoryAllocation t
      then let '(w2, n) := Malloc w1 in
           (w2, MkVariadic (Some t) (CellMemory (Some n)), PHeap n)
      else (w1, c2, PBuffer) in
    let '(w3, c4) := Store w2 c3 MemoryPtr v in (w3, c4, MemoryPtr).

(** [Make<T>(InStruct)] and [Make<T>(InArgs...)]. *)
Definition MakeT (w : World) (t : UScriptStruct) (v : list Z) : World * FVariadicStruct :=
  let '(w1, c, _) := InitializeAsT w EmptyVariadic t v in (w1, c).

(** [IsTypeOf<T, bExactType>()]. *)
Definition IsTypeOf (t : UScriptStruct) (bExactType : bool) (c : FVariadicStruct) : bool :=
  ptr_eqb (Some t) (ScriptStruct c) ||
  (negb bExactType && match ScriptStruct c with Some s => IsChildOf s t | None => false end).

(** [GetValue<T, bExactType>()] (and [GetMutableValue]): the address the
    returned reference designates, or [None] when a [checkf] fails. *)
Definition GetValue (t : UScriptStruct) (bExactType : bool) (c : FVariadicStruct) : option Ptr :=
  if bExactType || ptr_eqb (Some t) (ScriptStruct c) then
    if negb bExactType || ptr_eqb (Some t) (ScriptStruct c)
    then Some (GetTypeMemory t c) else None
  else if match ScriptStruct c with Some s => IsChildOf s t | None => false end
       then Some (GetMemory c) else None.

(** [operator==] and [operator!=]. *)
Definition operator_eq (w : World) (a b : FVariadicStruct) : bool := Identical w a b.

Definition operator_neq (w : World) (a b : FVariadicStruct) : bool := negb (Identical w a b).

(** The heap block a container owns: [StructMemory] of a heap-placed
    value. *)
Definition HeapBlock (c : FVariadicStruct) : option nat :=
  match ScriptStruct c with
  | Some s => if RequiresMemoryAllocation s then StructMemory c else None
  | None => None
  end.

(** [FMemory::Malloc] has handed out only addresses below [NextAddr]. *)
Definition WorldWF (w : World) : Prop :=
  forall n, (NextAddr w <= n)%nat -> Heap w !! n = None.

(* ------------------------------------------------------------------ *)
(** ** Helpers of the properties below *)

(** The payload [SerializeItem] writes for a container. *)
Definition saved_payload (w : World) (c : FVariadicStruct) : list Z :=
  match GetMutableMemory c with
  | PNull => []
  | p => match Deref w c p with Some v => payload_bytes v | None => [] end
  end.

(** The write [SerializeItem] records for a container, at offset [pos]. *)
Definition saved_payload_write (w : World) (c : FVariadicStruct) (pos : Z) : list ArEvent :=
  match GetMutableMemory c with
  | PNull => []
  | p => match Deref w c p with Some v => [ArWrite pos (payload_bytes v)] | None => [] end
  end.

(** A second heap-held [FPlane], next to the first. *)
Definition PlaneWorld2 : World :=
  MkWorld (<[1%nat := [9; 9; 9; 9]]> (<[0%nat := [1; 2; 3; 4]]> ∅)) 2 [].
Definition PlaneVariadic2 : FVariadicStruct := MkVariadic (Some FPlane) (CellMemory (Some 1%nat)).


(* ------------------------------------------------------------------ *)
(** ** Text import and export (VariadicStruct.cpp) *)

(** The engine functions the text import and export call (external); text
    is a [String.string]. *)
Record FTextOps := MkTextOps {
  (** [UObject::GetPathName()]. *)
  GetPathName : UScriptStruct -> String.string;
  (** [UScriptStruct::ExportText(ValueStr, Value, Defaults, ...)]: the text
      appended for [Value] against [Defaults]. *)
  ExportText : UScriptStruct -> list Z -> list Z -> String.string;
  (** [FPropertyHelpers::ReadToken(Buffer, Out, true)]: the token read and
      the buffer after it, or [nullptr]. *)
  ReadToken : String.string -> option (String.string * String.string);
  (** [FCoreRedirects::GetRedirectedName(Type_Struct, OldName,
      AllowPartialMatch)], on the path as text. *)
  GetRedirectedName : String.string -> String.string;
  (** [LoadObject<UScriptStruct>(nullptr, Path)]. *)
  LoadObject : String.string -> option UScriptStruct;
  (** [UScriptStruct::ImportText(Buffer, Data, ...)]: the value at [Data]
      afterwards (given the value before) and the buffer after the text
      read, or [nullptr]. *)
  ImportText : UScriptStruct -> list Z -> String.string -> list Z * option String.string
}.

(** [Buffer += n]. *)
Fixpoint advance (n : nat) (s : String.string) : String.string :=
  match n, s with
  | O, _ => s
  | S m, String.String _ s' => advance m s'
  | S _, String.EmptyString => String.EmptyString
  end.

(** [FCString::Stricmp(A, B) == 0]: equality up to ASCII case. *)
Definition ascii_lower (a : Ascii.ascii) : Ascii.ascii :=
  let n := Ascii.nat_of_ascii a in
  if (65 <=? n)%nat && (n <=? 90)%nat then Ascii.ascii_of_nat (n + 32) else a.

Fixpoint Stricmp_eq (a b : String.string) : bool :=
  match a, b with
  | String.EmptyString, String.EmptyString => true
  | String.String x a', String.String y b' =>
      Ascii.eqb (ascii_lower x) (ascii_lower y) && Stricmp_eq a' b'
  | _, _ => false
  end.

(** The literals [TEXT("None")] and [TEXT("()")]. *)
Module TextLiterals.
Import String.
Definition TEXT_None : string := "None".
Definition TEXT_EmptyStruct : string := "()".
End TextLiterals.
Import TextLiterals.

(** The value held at an address, for the calls that receive a pointer. *)
Definition ValueAt (w : World) (c : FVariadicStruct) (p : Ptr) : list Z :=
  match Deref w c p with Some v => v | None => [] end.

(** [FVariadicStruct::ExportTextItem]: returns [true] and [ValueStr]
    afterwards. *)
Definition ExportTextItem (ops : FTextOps) (w : World) (c : FVariadicStruct)
    (ValueStr : String.string) : bool * String.string :=
  match GetMemory c, ScriptStruct c with
  | PNull, _ => (true, String.append ValueStr TEXT_None)
  | MemoryPtr, Some s =>
      let ValueStr1 := String.append ValueStr (GetPathName ops s) in
      (true, String.append ValueStr1
               (ExportText ops s (ValueAt w c MemoryPtr) (ValueAt w c MemoryPtr)))
  | _, None => (true, String.append ValueStr TEXT_None)  (* memory without a type: not reachable *)
  end.

(** [FVariadicStruct::ImportTextItem]: returns the result, the world, the
    container and [Buffer] afterwards. *)
Definition ImportTextItem (ops : FTextOps) (w : World) (c : FVariadicStruct)
    (Buffer : String.string) : bool * World * FVariadicStruct * String.string :=
  let '(bRead, StructPathName, Buffer1) :=
    if String.eqb Buffer TEXT_EmptyStruct
    then (true, String.EmptyString, advance 2 Buffer)
    else match ReadToken ops Buffer with
         | Some (Token, Result) => (true, Token, Result)
         | None => (false, String.EmptyString, Buffer)
         end in
  if negb bRead then (false, w, c, Buffer1)
  else if (String.length StructPathName =? 0)%nat || Stricmp_eq StructPathName TEXT_None then
    let '(w1, c1) := InitializeAs w c None None in (true, w1, c1, Buffer1)
  else
    let OldName := StructPathName in
    let NewName := GetRedirectedName ops OldName in
    let StructPathName1 := if String.eqb OldName NewName then StructPathName else NewName in
    match LoadObject ops StructPathName1 with
    | Some StructTypePtr =>
        let '(w1, c1) := InitializeAs w c (Some StructTypePtr) None in
        let MemoryPtr := GetMutableMemory c1 in
        let '(v, Result) := ImportText ops StructTypePtr (ValueAt w1 c1 MemoryPtr) Buffer1 in
        let '(w2, c2) := Store w1 c1 MemoryPtr v in
        match Result with
        | Some Buffer2 => (true, w2, c2, Buffer2)
        | None => (false, w2, c2, Buffer1)
        end
    | None => (false, w, c, Buffer1)
    end.

(** An instance of the engine's text functions for the examples: a type's
    path is [StructN] with [N] its name; a value is written as its fields,
    one digit each, between parentheses; a token ends at [(] or a space;
    no redirect is registered. *)
Module TextExamples.
Import String Ascii.

Definition digit (x : Z) : Ascii.ascii := Ascii.ascii_of_nat (48 + Z.to_nat x).

Fixpoint digits (v : list Z) : string :=
  match v with [] => EmptyString | x :: v' => String (digit x) (digits v') end.

Fixpoint read_digits (s : string) : option (list Z * string) :=
  match s with
  | EmptyString => None
  | String a s' =>
      if Ascii.eqb a ")"%char then Some ([], s')
      else match read_digits s' with
           | Some (v, r) => Some ((Z.of_nat (Ascii.nat_of_ascii a) - 48) :: v, r)
           | None => None
           end
  end.

Fixpoint read_token (s : string) : string * string :=
  match s with
  | EmptyString => (EmptyString, EmptyString)
  | String a s' =>
      if Ascii.eqb a "("%char || Ascii.eqb a " "%char then (EmptyString, s)
      else let '(t, r) := read_token s' in (String a t, r)
  end.

Definition ExamplePath (s : UScriptStruct) : string :=
  "Struct" ++ String (digit (Z.of_nat (StructName s))) EmptyString.

Definition ExampleTextOps : FTextOps := {|
  GetPathName := ExamplePath;
  ExportText := fun _ v _ => ("(" ++ digits v ++ ")")%string;
  ReadToken := fun s => match s with EmptyString => None | _ => Some (read_token s) end;
  GetRedirectedName := fun n => n;
  LoadObject := fun p =>
    List.find (fun s => String.eqb (ExamplePath s) p) [FIntPoint; FVector; FPlane; FTransform];
  ImportText := fun _ old b =>
    match b with
    | String a b' =>
        if Ascii.eqb a "("%char then
          match read_digits b' with Some (v, r) => (v, Some r) | None => (old, None) end
        else (old, None)
    | EmptyString => (old, None)
    end
|}.

Definition Text_Vector : string := "Struct2(123)".
Definition Text_lower_none : string := "none rest".
Definition Text_unknown : string := "Struct7(1)".
Definition Text_Plane_bad : string := "Struct3(12".

End TextExamples.
Import TextExamples.

(* ------------------------------------------------------------------ *)
(** ** Network serialization (VariadicStruct.cpp, [NetSerialize]) *)

(** A bit archive ([FBitWriter]/[FBitReader]): the bits written, or still
    to be read, and the error flag. *)
Record FNetArchive := MkNetArchive {
  NetBits : list bool;
  NetIsError : bool
}.

(** [Ar.SetError()]. *)
Definition NetSetError (ar : FNetArchive) : FNetArchive := MkNetArchive (NetBits ar) true.

(** [Ar.SerializeBits(&b, 1)] when saving: the bit is appended (the
    writer's capacity is not modelled). *)
Definition NetWriteBit (ar : FNetArchive) (b : bool) : FNetArchive :=
  MkNetArchive (NetBits ar ++ [b]) (NetIsError ar).

(** [Ar.SerializeBits(&b, 1)] when loading: on an archive in error, or
    past the end (which raises the overflow error), the bit reads as zero. *)
Definition NetReadBit (ar : FNetArchive) : bool * FNetArchive :=
  if NetIsError ar then (false, ar)
  else match NetBits ar with
       | b :: r => (b, MkNetArchive r false)
       | [] => (false, MkNetArchive [] true)
       end.

(** The package map and the value serializers (external): [Ar <<
    ScriptStruct] through the [UPackageMap] when saving and when loading
    ([None]: [nullptr]), and the value's own net serialization, either
    [GetCppStructOps()->NetSerialize] or the struct's [FRepLayout]
    (selected by [STRUCT_NetSerializeNative]), which receives and updates
    [bOutSuccess]; when loading it also receives the value in place. *)
Record FNetOps := MkNetOps {
  NetWriteObject : option UScriptStruct -> FNetArchive -> FNetArchive;
  NetReadObject : FNetArchive -> option UScriptStruct * FNetArchive;
  NetWriteValue : UScriptStruct -> list Z -> FNetArchive -> bool -> FNetArchive * bool;
  NetReadValue : UScriptStruct -> list Z -> FNetArchive -> bool -> list Z * FNetArchive * bool
}.

(** The "Serialize the actual value" block, when saving and when loading. *)
Definition NetSerializeValueSave (ops : FNetOps) (w : World) (c : FVariadicStruct)
    (ar : FNetArchive) (bOutSuccess : bool) : FNetArchive * bool :=
  match GetMutableMemory c, ScriptStruct c with
  | PNull, _ => (ar, bOutSuccess)
  | MemoryPtr, Some s => NetWriteValue ops s (ValueAt w c MemoryPtr) ar bOutSuccess
  | _, None => (ar, bOutSuccess)  (* memory without a type: not reachable *)
  end.

Definition NetSerializeValueLoad (ops : FNetOps) (w : World) (c : FVariadicStruct)
    (ar : FNetArchive) (bOutSuccess : bool) : World * FVariadicStruct * FNetArchive * bool :=
  match GetMutableMemory c, ScriptStruct c with
  | PNull, _ => (w, c, ar, bOutSuccess)
  | MemoryPtr, Some s =>
      let '(v, ar1, bOutSuccess1) := NetReadValue ops s (ValueAt w c MemoryPtr) ar bOutSuccess in
      let '(w1, c1) := Store w c MemoryPtr v in (w1, c1, ar1, bOutSuccess1)
  | _, None => (w, c, ar, bOutSuccess)  (* memory without a type: not reachable *)
  end.

(** [FVariadicStruct::NetSerialize] with [WITH_ENGINE], when saving:
    returns the result, the archive and [bOutSuccess] afterwards. *)
Definition NetSerializeSave (ops : FNetOps) (w : World) (c : FVariadicStruct)
    (ar : FNetArchive) (bOutSuccess : bool) : bool * FNetArchive * bool :=
  let bIsValid := IsValid c in
  let ar1 := NetWriteBit ar bIsValid in
  if negb bIsValid then (true, ar1, bOutSuccess)
  else
    let ar2 := NetWriteObject ops (ScriptStruct c) ar1 in
    let '(ar3, bOutSuccess3) := NetSerializeValueSave ops w c ar2 bOutSuccess in
    (true, ar3, bOutSuccess3).

(** The same, when loading: also returns the world and the container
    afterwards (the error log line is not modelled). *)
Definition NetSerializeLoad (ops : FNetOps) (w : World) (c : FVariadicStruct)
    (ar : FNetArchive) (bOutSuccess : bool)
    : bool * World * FVariadicStruct * FNetArchive * bool :=
  let '(bIsValid, ar1) := NetReadBit ar in
  if negb bIsValid then
    let '(w1, c1) := Reset w c in (true, w1, c1, ar1, bOutSuccess)
  else
    let '(SerializedScriptStruct, ar2) := NetReadObject ops ar1 in
    let '(w2, c2) :=
      if negb (ptr_eqb (ScriptStruct c) SerializedScriptStruct)
      then InitializeAs w c SerializedScriptStruct None else (w, c) in
    let '(bOutSuccess3, ar3) :=
      match ScriptStruct c2 with
      | None => (false, NetSetError ar2)
      | Some _ => (bOutSuccess, ar2)
      end in
    let '(w4, c4, ar4, bOutSuccess4) := NetSerializeValueLoad ops w2 c2 ar3 bOutSuccess3 in
    (true, w4, c4, ar4, bOutSuccess4).

(** An instance of the package map and value serializers for the examples:
    a type is sent as its name in unary, closed by a [false] bit (an
    unknown name reads as [nullptr]); a value is sent as its length and
    fields in unary; reading past the end raises the error. *)
Module NetExamples.

Fixpoint unary (n : nat) : list bool :=
  match n with O => [false] | S m => true :: unary m end.

Fixpoint read_unary (fuel : nat) (bs : list bool) : option (nat * list bool) :=
  match fuel with
  | O => None
  | S f =>
      match bs with
      | false :: r => Some (O, r)
      | true :: r => match read_unary f r with Some (n, r') => Some (S n, r') | None => None end
      | [] => None
      end
  end.

Fixpoint read_unaries (k : nat) (bs : list bool) : option (list Z * list bool) :=
  match k with
  | O => Some ([], bs)
  | S k' =>
      match read_unary (length bs) bs with
      | Some (n, r) =>
          match read_unaries k' r with Some (v, r') => Some (Z.of_nat n :: v, r') | None => None end
      | None => None
      end
  end.

Definition ExampleNetOps : FNetOps := {|
  NetWriteObject := fun o ar =>
    MkNetArchive (NetBits ar ++ unary (match o with Some s => StructName s | None => O end))
      (NetIsError ar);
  NetReadObject := fun ar =>
    match read_unary (length (NetBits ar)) (NetBits ar) with
    | Some (n, r) => (ResolveIndex ExampleLinker (Z.of_nat n), MkNetArchive r (NetIsError ar))
    | None => (None, MkNetArchive [] true)
    end;
  NetWriteValue := fun _ v ar ok =>
    (MkNetArchive (NetBits ar ++ unary (length v) ++ flat_map (fun x => unary (Z.to_nat x)) v)
       (NetIsError ar), ok);
  NetReadValue := fun _ old ar ok =>
    match read_unary (length (NetBits ar)) (NetBits ar) with
    | Some (k, r) =>
        match read_unaries k r with
        | Some (v, r') => (v, MkNetArchive r' (NetIsError ar), ok)
        | None => (old, MkNetArchive [] true, false)
        end
    | None => (old, MkNetArchive [] true, false)
    end
|}.

End NetExamples.
Import NetExamples.

(** The bits of a valid [FPlane] holding [5; 6; 7; 8], as sent with the
    example instance. *)
Definition NetPlaneBits : list bool :=
  true :: unary 3 ++ unary 4 ++ flat_map (fun x => unary (Z.to_nat x)) [5; 6; 7; 8].

(* ================================================================== *)
(** * Properties *)

(** ** Placement arithmetic *)

Lemma pow2_gt_ge_double (a A : Z) :
  is_pow2 a -> is_pow2 A -> A < a -> 2 * A <= a.
Proof.
  intros [k [Hk ->]] [j [Hj ->]] Hlt.
  apply Z.pow_lt_mono_r_iff in Hlt; [| lia | lia].
  replace (2 * 2 ^ j) with (2 ^ (j + 1)) by (rewrite Z.pow_add_r; lia).
  apply Z.pow_le_mono_r; lia.
Qed.

Lemma pow2_pos (a : Z) : is_pow2 a -> 0 < a.
Proof. intros [k [Hk ->]]. apply Z.pow_pos_nonneg; lia. Qed.

Lemma wf_align_le_size (s : UScriptStruct) :
  WellFormedStruct s -> MinAlignment s <= StructureSize s.
Proof.
  intros (Hp & Hs & Hm).
  pose proof (pow2_pos _ Hp) as Ha.
  apply Z.mod_divide in Hm; [| lia].
  destruct Hm as [q Hq].
  destruct s as [n sz al sup dv]; simpl in *.
  assert (0 < q) by nia. nia.
Qed.

(** The elision argument: a buffer smaller than twice a power-of-two
    alignment cannot hold any well-formed over-aligned type. *)
Lemma over_aligned_exceeds_buffer (buffer_size alignment : Z) (s : UScriptStruct) :
  is_pow2 alignment -> buffer_size < alignment * 2 -> WellFormedStruct s ->
  alignment < MinAlignment s -> buffer_size < StructureSize s.
Proof.
  intros HA Hb Hs Hlt.
  pose proof (pow2_gt_ge_double _ _ (proj1 Hs) HA Hlt).
  pose proof (wf_align_le_size _ Hs). lia.
Qed.

Lemma RequiresMemoryAllocationWith_full (buffer_size alignment : Z) (s : UScriptStruct) :
  is_pow2 alignment -> WellFormedStruct s ->
  RequiresMemoryAllocationWith buffer_size alignment s = FullPlacementCheck buffer_size alignment s.
Proof.
  intros HA Hs. unfold RequiresMemoryAllocationWith, FullPlacementCheck.
  destruct (Z.ltb_spec buffer_size (alignment * 2)); [| reflexivity].
  destruct (Z.gtb_spec (StructureSize s) buffer_size); [reflexivity |].
  destruct (Z.gtb_spec (MinAlignment s) alignment); [| reflexivity].
  pose proof (over_aligned_exceeds_buffer buffer_size alignment s HA H Hs H1). lia.
Qed.

Lemma CONTAINER_ALIGNMENT_pow2 : is_pow2 CONTAINER_ALIGNMENT.
Proof. exists 4. split; [lia | reflexivity]. Qed.

Lemma wf_FVector : WellFormedStruct FVector.
Proof. split; [exists 3; split; [lia | reflexivity] | split; reflexivity]. Qed.

Lemma wf_Aligned32 : WellFormedStruct Aligned32.
Proof. split; [exists 5; split; [lia | reflexivity] | split; reflexivity]. Qed.

(** ** C1: placement *)

(** Claim C1: for every descriptor of a real type (power-of-two
    alignment, size a positive multiple of it), [RequiresMemoryAllocation]
    returns true (Heap) iff size > BUFFER_SIZE or alignment >
    CONTAINER_ALIGNMENT; it agrees with the compile-time
    [TypeRequiresMemoryAllocation] and with the size-only test it
    evaluates. *)
Theorem RequiresMemoryAllocation_placement (s : UScriptStruct) :
  WellFormedStruct s ->
  (RequiresMemoryAllocation s = true <->
     StructureSize s > BUFFER_SIZE \/ MinAlignment s > CONTAINER_ALIGNMENT) /\
  RequiresMemoryAllocation s = TypeRequiresMemoryAllocation s /\
  RequiresMemoryAllocation s = SizeOnlyPlacementCheck BUFFER_SIZE s.
Proof.
  intros Hs.
  pose proof (RequiresMemoryAllocationWith_full BUFFER_SIZE CONTAINER_ALIGNMENT s
                CONTAINER_ALIGNMENT_pow2 Hs) as Hfull.
  unfold RequiresMemoryAllocation. rewrite Hfull.
  unfold FullPlacementCheck, TypeRequiresMemoryAllocation, SizeOnlyPlacementCheck.
  split; [| split; [reflexivity |]].
  - rewrite orb_true_iff, !Z.gtb_lt. lia.
  - destruct (Z.gtb_spec (MinAlignment s) CONTAINER_ALIGNMENT) as [H | H];
      [| now rewrite orb_false_r].
    pose proof (over_aligned_exceeds_buffer BUFFER_SIZE CONTAINER_ALIGNMENT s
                  CONTAINER_ALIGNMENT_pow2 ltac:(reflexivity) Hs H).
    rewrite orb_true_r. symmetry. apply Z.gtb_lt. lia.
Qed.

Lemma RequiresMemoryAllocation_placement_witness :
  WellFormedStruct FTransform /\
  ((RequiresMemoryAllocation FTransform = true <->
     StructureSize FTransform > BUFFER_SIZE \/ MinAlignment FTransform > CONTAINER_ALIGNMENT) /\
   RequiresMemoryAllocation FTransform = TypeRequiresMemoryAllocation FTransform /\
   RequiresMemoryAllocation FTransform = SizeOnlyPlacementCheck BUFFER_SIZE FTransform).
Proof.
  assert (H : WellFormedStruct FTransform)
    by (split; [exists 4; split; [lia | reflexivity] | split; reflexivity]).
  split; [exact H | apply (RequiresMemoryAllocation_placement FTransform H)].
Defined.

(** ** C2: eliding the alignment test *)

(** C2 (counterexample): [BUFFER_SIZE = 40] with [alignas(16)] passes the
    static assertions of [FVariadicStructValidateInvariants], and 40 >= 2 * 16;
    yet the real type of 32 bytes aligned to 32 has alignment above 16 and
    size not above 40: the alignment term is not implied by the size term,
    the size-only test differs from the full test, and the code keeps the
    alignment test. *)
Lemma C2_counterexample :
  ValidateInvariants 40 16 = true /\ 40 >= 2 * 16 /\ WellFormedStruct Aligned32 /\
  MinAlignment Aligned32 > 16 /\ ~ (StructureSize Aligned32 > 40) /\
  SizeOnlyPlacementCheck 40 Aligned32 <> FullPlacementCheck 40 16 Aligned32 /\
  RequiresMemoryAllocationWith 40 16 Aligned32 = FullPlacementCheck 40 16 Aligned32.
Proof.
  split; [reflexivity |]. split; [lia |]. split; [exact wf_Aligned32 |].
  split; [reflexivity |]. split; [cbv; discriminate |].
  split; [cbv; discriminate | reflexivity].
Qed.

(** C2 (amended): for a power-of-two container alignment, the alignment
    term is implied by the size term for every well-formed descriptor
    exactly when BUFFER_SIZE < 2 * CONTAINER_ALIGNMENT: then the size-only
    test equals the full size-or-alignment test, and the code selects the
    size-only test under that same condition; when BUFFER_SIZE >=
    2 * CONTAINER_ALIGNMENT, a well-formed over-aligned descriptor fits the
    size bound, the two tests differ on it, and the code keeps the full
    test. *)
Theorem placement_alignment_elision (buffer_size alignment : Z) :
  is_pow2 alignment ->
  (buffer_size < alignment * 2 -> forall s : UScriptStruct, WellFormedStruct s ->
     (alignment < MinAlignment s -> buffer_size < StructureSize s) /\
     SizeOnlyPlacementCheck buffer_size s = FullPlacementCheck buffer_size alignment s /\
     RequiresMemoryAllocationWith buffer_size alignment s = SizeOnlyPlacementCheck buffer_size s) /\
  (alignment * 2 <= buffer_size -> exists s : UScriptStruct,
     WellFormedStruct s /\ alignment < MinAlignment s /\ StructureSize s <= buffer_size /\
     SizeOnlyPlacementCheck buffer_size s <> FullPlacementCheck buffer_size alignment s /\
     RequiresMemoryAllocationWith buffer_size alignment s = FullPlacementCheck buffer_size alignment s).
Proof.
  intros HA. split.
  - intros Hb s Hs.
    assert (Hcode : RequiresMemoryAllocationWith buffer_size alignment s =
                    SizeOnlyPlacementCheck buffer_size s).
    { unfold RequiresMemoryAllocationWith, SizeOnlyPlacementCheck.
      apply Z.ltb_lt in Hb. now rewrite Hb. }
    split; [exact (over_aligned_exceeds_buffer _ _ _ HA Hb Hs) |].
    split; [| exact Hcode].
    rewrite <- Hcode. now apply RequiresMemoryAllocationWith_full.
  - intros Hb. pose proof (pow2_pos _ HA) as Hpos.
    exists (MkScriptStruct 0 (alignment * 2) (alignment * 2) [] [0]).
    cbn [MinAlignment StructureSize].
    split; [| split; [lia | split; [lia | split]]].
    + unfold WellFormedStruct; cbn [MinAlignment StructureSize].
      destruct HA as [k [Hk ->]]. split; [| split; [lia | apply Z_mod_same_full]].
      exists (k + 1). split; [lia |]. rewrite Z.pow_add_r by lia. lia.
    + unfold SizeOnlyPlacementCheck, FullPlacementCheck. cbn [MinAlignment StructureSize].
      replace (alignment * 2 >? buffer_size) with false by (symmetry; rewrite Z.gtb_ltb; apply Z.ltb_ge; lia).
      replace (alignment * 2 >? alignment) with true by (symmetry; apply Z.gtb_lt; lia).
      discriminate.
    + unfold RequiresMemoryAllocationWith, FullPlacementCheck.
      replace (buffer_size <? alignment * 2) with false by (symmetry; apply Z.ltb_ge; lia).
      reflexivity.
Qed.

(** With the default constants, the 32-aligned type is caught by the size
    test alone; with [BUFFER_SIZE = 40] an over-aligned type fitting the
    buffer exists. *)
Lemma placement_alignment_elision_witness :
  is_pow2 CONTAINER_ALIGNMENT /\ BUFFER_SIZE < CONTAINER_ALIGNMENT * 2 /\
  WellFormedStruct Aligned32 /\
  ((CONTAINER_ALIGNMENT < MinAlignment Aligned32 -> BUFFER_SIZE < StructureSize Aligned32) /\
   SizeOnlyPlacementCheck BUFFER_SIZE Aligned32 = FullPlacementCheck BUFFER_SIZE CONTAINER_ALIGNMENT Aligned32 /\
   RequiresMemoryAllocationWith BUFFER_SIZE CONTAINER_ALIGNMENT Aligned32 = SizeOnlyPlacementCheck BUFFER_SIZE Aligned32) /\
  CONTAINER_ALIGNMENT * 2 <= 40 /\
  (exists s : UScriptStruct,
     WellFormedStruct s /\ CONTAINER_ALIGNMENT < MinAlignment s /\ StructureSize s <= 40 /\
     SizeOnlyPlacementCheck 40 s <> FullPlacementCheck 40 CONTAINER_ALIGNMENT s /\
     RequiresMemoryAllocationWith 40 CONTAINER_ALIGNMENT s = FullPlacementCheck 40 CONTAINER_ALIGNMENT s).
Proof.
  assert (HA : is_pow2 CONTAINER_ALIGNMENT) by (exists 4; split; [lia | reflexivity]).
  assert (Hb : BUFFER_SIZE < CONTAINER_ALIGNMENT * 2) by reflexivity.
  assert (Hb40 : CONTAINER_ALIGNMENT * 2 <= 40) by (cbv; discriminate).
  split; [exact HA |]. split; [exact Hb |]. split; [exact wf_Aligned32 |].
  split; [exact (proj1 (placement_alignment_elision BUFFER_SIZE CONTAINER_ALIGNMENT HA) Hb
                   Aligned32 wf_Aligned32) |].
  split; [exact Hb40 |].
  exact (proj2 (placement_alignment_elision 40 CONTAINER_ALIGNMENT HA) Hb40).
Defined.

(** ** Lifecycle lemmas *)

Lemma emit_events (w : World) (e : Event) : Events (emit w e) = Events w ++ [e].
Proof. reflexivity. Qed.

Lemma ptr_eqb_refl (o : option UScriptStruct) : ptr_eqb o o = true.
Proof. unfold ptr_eqb. now apply bool_decide_eq_true. Qed.

Lemma ptr_eqb_true (a b : option UScriptStruct) : ptr_eqb a b = true <-> a = b.
Proof. unfold ptr_eqb. apply bool_decide_eq_true. Qed.

Lemma Reset_result (w : World) (c : FVariadicStruct) :
  snd (Reset w c) = EmptyVariadic /\ exists r, Events (fst (Reset w c)) = Events w ++ r.
Proof.
  split; [reflexivity |].
  unfold Reset, GetMutableMemory, GetMemory.
  destruct (ScriptStruct c) as [s |] eqn:Hs; simpl.
  - destruct (RequiresMemoryAllocation s) eqn:Hr; simpl.
    + destruct (StructMemory c) as [n |]; simpl.
      * exists [EvDestroyStruct s; EvFree n]. simpl. now rewrite <- app_assoc.
      * exists []. now rewrite app_nil_r.
    + exists [EvDestroyStruct s]. reflexivity.
  - destruct (StructMemory c); simpl; exists []; now rewrite app_nil_r.
Qed.

(* ------------------------------------------------------------------ *)
(** ** C7: Identical *)

(** C7: [Identical a b] is true only when both containers hold a value of
    exactly the same descriptor, and then it is the descriptor's deep
    comparison of the two payloads; it is false when either side is empty
    (two empty containers included) and across different descriptors, even
    when one is a child of the other. *)
Theorem Identical_exact_type (w : World) (a b : FVariadicStruct) :
  (Identical w a b = true -> exists s, ScriptStruct a = Some s /\ ScriptStruct b = Some s) /\
  (forall s, ScriptStruct a = Some s -> ScriptStruct b = Some s ->
     Identical w a b =
       CompareScriptStruct s (Deref w a (GetMemory a)) (Deref w b (GetMemory b))) /\
  (ScriptStruct a = None \/ ScriptStruct b = None -> Identical w a b = false) /\
  (forall s t, ScriptStruct a = Some s -> ScriptStruct b = Some t -> s <> t ->
     Identical w a b = false).
Proof.
  unfold Identical.
  destruct (ScriptStruct a) as [sa |] eqn:Ha, (ScriptStruct b) as [sb |] eqn:Hb.
  - destruct (ptr_eqb (Some sa) (Some sb)) eqn:He.
    + apply ptr_eqb_true in He. injection He as ->.
      refine (conj _ (conj _ (conj _ _))).
      * intros _. now exists sb.
      * intros s H1 H2. injection H1 as <-. reflexivity.
      * intros [H | H]; discriminate.
      * intros s t H1 H2 Hne. injection H1 as <-. injection H2 as <-. contradiction.
    + refine (conj _ (conj _ (conj _ _))).
      * discriminate.
      * intros s H1 H2. injection H1 as <-. injection H2 as <-.
        now rewrite ptr_eqb_refl in He.
      * intros _. reflexivity.
      * intros. reflexivity.
  - assert (He : ptr_eqb (Some sa) None = false)
      by (unfold ptr_eqb; apply bool_decide_eq_false; discriminate).
    rewrite He.
    refine (conj _ (conj _ (conj _ _))); try discriminate; intros; congruence.
  - refine (conj _ (conj _ (conj _ _))); try discriminate; intros; congruence.
  - refine (conj _ (conj _ (conj _ _))); try discriminate; intros; congruence.
Qed.

Lemma Identical_exact_type_witness :
  (ScriptStruct EmptyVariadic = None \/ ScriptStruct EmptyVariadic = None) /\
  Identical EmptyWorld EmptyVariadic EmptyVariadic = false.
Proof.
  assert (H : ScriptStruct EmptyVariadic = None \/ ScriptStruct EmptyVariadic = None)
    by (left; reflexivity).
  split; [exact H |].
  exact (proj1 (proj2 (proj2 (Identical_exact_type EmptyWorld EmptyVariadic EmptyVariadic))) H).
Defined.

(* ------------------------------------------------------------------ *)
(** ** C9: exact and polymorphic typed access *)

Lemma GetMemory_wf_nonnull (w : World) (c : FVariadicStruct) (s : UScriptStruct) :
  ContainerWF w c -> ScriptStruct c = Some s ->
  GetMemory c <> PNull /\ exists v, Deref w c (GetMemory c) = Some v.
Proof.
  unfold ContainerWF, GetMemory. intros Hwf Hs. rewrite Hs in *.
  destruct (RequiresMemoryAllocation s); simpl.
  - destruct Hwf as (n & v & Hst & Hh).
    unfold StructMemory. rewrite Hst. simpl.
    split; [discriminate | now exists v].
  - destruct Hwf as (v & Hst).
    split; [discriminate | exists v; simpl; now rewrite Hst].
Qed.

(** C9: on a container holding a value of descriptor [D] accessed as a
    strict base [B] of [D], the polymorphic [GetValuePtr<B>] returns the
    (non-null) address of the stored value, while the exact-type
    [GetValuePtr<B, true>] returns [nullptr]; on an empty container both
    modes return [nullptr] for every requested type. *)
Theorem GetValuePtr_exact_vs_polymorphic (w : World) (c : FVariadicStruct) (D B : UScriptStruct) :
  ContainerWF w c -> ScriptStruct c = Some D -> D <> B -> IsChildOf D B = true ->
  (GetValuePtr B false c = GetMemory c /\ GetValuePtr B false c <> PNull /\
   (exists v, Deref w c (GetValuePtr B false c) = Some v) /\
   GetValuePtr B true c = PNull) /\
  (forall (e : FVariadicStruct) (T : UScriptStruct) (bExactType : bool),
     ScriptStruct e = None -> GetValuePtr T bExactType e = PNull).
Proof.
  intros Hwf Hs Hne Hchild.
  split.
  - assert (Hneq : ptr_eqb (ScriptStruct c) (Some B) = false).
    { rewrite Hs. unfold ptr_eqb. apply bool_decide_eq_false. congruence. }
    assert (Hpoly : GetValuePtr B false c = GetMemory c).
    { unfold GetValuePtr. rewrite Hneq, Hs, Hchild. reflexivity. }
    destruct (GetMemory_wf_nonnull w c D Hwf Hs) as [Hnn Hv].
    rewrite Hpoly. split; [reflexivity |]. split; [exact Hnn |]. split; [exact Hv |].
    unfold GetValuePtr. rewrite Hneq. reflexivity.
  - intros e T bExactType He. unfold GetValuePtr. rewrite He.
    assert (Hneq : ptr_eqb None (Some T) = false)
      by (unfold ptr_eqb; apply bool_decide_eq_false; discriminate).
    rewrite Hneq. now rewrite andb_false_r.
Qed.


Lemma GetValuePtr_exact_vs_polymorphic_witness :
  ContainerWF PlaneWorld PlaneVariadic /\ ScriptStruct PlaneVariadic = Some FPlane /\
  FPlane <> FVector /\ IsChildOf FPlane FVector = true /\
  GetValuePtr FVector false PlaneVariadic = PHeap 0 /\
  Deref PlaneWorld PlaneVariadic (GetValuePtr FVector false PlaneVariadic) = Some [1; 2; 3; 4] /\
  GetValuePtr FVector true PlaneVariadic = PNull.
Proof.
  assert (H1 : ContainerWF PlaneWorld PlaneVariadic).
  { simpl. exists 0%nat, [1; 2; 3; 4]. split; reflexivity. }
  assert (H2 : ScriptStruct PlaneVariadic = Some FPlane) by reflexivity.
  assert (H3 : FPlane <> FVector) by discriminate.
  assert (H4 : IsChildOf FPlane FVector = true) by reflexivity.
  pose proof (GetValuePtr_exact_vs_polymorphic PlaneWorld PlaneVariadic FPlane FVector H1 H2 H3 H4)
    as [(Hp & _ & _ & Hx) _].
  split; [exact H1 |]. split; [exact H2 |]. split; [exact H3 |]. split; [exact H4 |].
  rewrite Hp. split; [reflexivity |]. split; [reflexivity | exact Hx].
Defined.

(* ------------------------------------------------------------------ *)
(** ** C3: moving an inline value *)

Lemma InitializeAsNew_inline (w : World) (c : FVariadicStruct) (s : UScriptStruct) (v : list Z) :
  RequiresMemoryAllocation s = false ->
  snd (InitializeAsNew w c (Some s) (Some v)) = MkVariadic (Some s) (CellBuffer v) /\
  Events (fst (InitializeAsNew w c (Some s) (Some v))) =
    Events (fst (Reset w c)) ++ [EvInitializeStruct s; EvCopyScriptStruct s].
Proof.
  intros Hr. unfold InitializeAsNew.
  destruct (Reset w c) as [w1 c1] eqn:HR. rewrite Hr. simpl.
  split; [reflexivity |]. now rewrite <- app_assoc.
Qed.

(** The payload is copied into [*this] through the descriptor. *)
Lemma InitializeAs_inline_copy (w : World) (b : FVariadicStruct) (s : UScriptStruct) (v : list Z) :
  RequiresMemoryAllocation s = false ->
  snd (InitializeAs w b (Some s) (Some v)) = MkVariadic (Some s) (CellBuffer v) /\
  exists pre, Events (fst (InitializeAs w b (Some s) (Some v))) =
                Events w ++ pre ++ [EvCopyScriptStruct s].
Proof.
  intros Hr. unfold InitializeAs.
  assert (Hnew : snd (InitializeAsNew w b (Some s) (Some v)) = MkVariadic (Some s) (CellBuffer v) /\
                 exists pre, Events (fst (InitializeAsNew w b (Some s) (Some v))) =
                               Events w ++ pre ++ [EvCopyScriptStruct s]).
  { destruct (InitializeAsNew_inline w b s v Hr) as [H1 H2].
    split; [exact H1 |].
    destruct (Reset_result w b) as [_ [r Hr']].
    exists (r ++ [EvInitializeStruct s]). rewrite H2, Hr'.
    now rewrite <- !app_assoc. }
  destruct (ScriptStruct b) as [sb |] eqn:Hb; [| exact Hnew].
  simpl. destruct (ptr_eqb (Some s) (Some sb)) eqn:He; [| now rewrite andb_false_r].
  apply ptr_eqb_true in He. injection He as <-.
  unfold CopyScriptStruct, GetMutableMemory, GetMemory, IsValid. rewrite Hb, Hr. simpl.
  rewrite Hb. split; [reflexivity |]. exists []. reflexivity.
Qed.

(** C3: moving a non-empty container [a] whose value is inline-placed,
    by move assignment into any [b] or by move construction, leaves in the
    destination the payload [a] held (Identical to [a] before the move) and
    leaves [a] empty; the calls into the descriptor end with the copy of
    the value followed by the destruction of the source value. *)
Theorem move_inline_copies_then_resets (w : World) (a b : FVariadicStruct)
    (s : UScriptStruct) (v : list Z) :
  ScriptStruct a = Some s -> RequiresMemoryAllocation s = false -> Storage a = CellBuffer v ->
  (let '(w', b', a') := MoveAssign w b a in
   a' = EmptyVariadic /\ b' = MkVariadic (Some s) (CellBuffer v) /\ Identical w' b' a = true /\
   exists pre, Events w' = Events w ++ pre ++ [EvCopyScriptStruct s; EvDestroyStruct s]) /\
  (let '(w', b', a') := MoveConstruct w a in
   a' = EmptyVariadic /\ b' = MkVariadic (Some s) (CellBuffer v) /\ Identical w' b' a = true /\
   Events w' = Events w ++ [EvInitializeStruct s; EvCopyScriptStruct s; EvDestroyStruct s]).
Proof.
  intros Hs Hr Hst.
  assert (Hsrc : Deref w a (GetMemory a) = Some v).
  { unfold GetMemory. rewrite Hs, Hr. simpl. now rewrite Hst. }
  assert (Hm : GetMutableMemory a = PBuffer).
  { unfold GetMutableMemory, GetMemory. now rewrite Hs, Hr. }
  assert (Hid : forall w0, Identical w0 (MkVariadic (Some s) (CellBuffer v)) a = true).
  { intros w0. unfold Identical. simpl. rewrite Hs, ptr_eqb_refl.
    unfold GetMemory. simpl. rewrite Hs, Hr. simpl. rewrite Hst. simpl.
    now apply bool_decide_eq_true. }
  split.
  - unfold MoveAssign. rewrite Hs, Hr. simpl. rewrite Hsrc.
    destruct (InitializeAs_inline_copy w b s v Hr) as [Hc [pre Hev]].
    destruct (InitializeAs w b (Some s) (Some v)) as [w1 b1] eqn:HI. simpl in Hc, Hev. subst b1.
    rewrite Hm. simpl. rewrite Hs, Hr. unfold DestroyStruct.
    split; [reflexivity |]. split; [reflexivity |]. split; [apply Hid |].
    exists pre. rewrite emit_events, Hev. now rewrite <- !app_assoc.
  - unfold MoveConstruct. rewrite Hs, Hr. simpl. rewrite Hsrc.
    destruct (InitializeAs_inline_copy w EmptyVariadic s v Hr) as [Hc _].
    assert (HevE : Events (fst (InitializeAs w EmptyVariadic (Some s) (Some v))) =
                   Events w ++ [EvInitializeStruct s; EvCopyScriptStruct s]).
    { unfold InitializeAs. simpl. now rewrite (proj2 (InitializeAsNew_inline w EmptyVariadic s v Hr)). }
    destruct (InitializeAs w EmptyVariadic (Some s) (Some v)) as [w1 b1] eqn:HI.
    simpl in Hc, HevE. subst b1.
    rewrite Hm. simpl. rewrite Hs, Hr. unfold DestroyStruct.
    split; [reflexivity |]. split; [reflexivity |]. split; [apply Hid |].
    rewrite emit_events, HevE. now rewrite <- app_assoc.
Qed.


Lemma move_inline_copies_then_resets_witness :
  ScriptStruct VectorVariadic = Some FVector /\ RequiresMemoryAllocation FVector = false /\
  Storage VectorVariadic = CellBuffer [1; 2; 3] /\
  (let '(w', b', a') := MoveAssign EmptyWorld PlaneVariadic VectorVariadic in
   a' = EmptyVariadic /\ b' = MkVariadic (Some FVector) (CellBuffer [1; 2; 3]) /\
   Identical w' b' VectorVariadic = true /\
   exists pre, Events w' = Events EmptyWorld ++ pre ++
                 [EvCopyScriptStruct FVector; EvDestroyStruct FVector]).
Proof.
  assert (H1 : ScriptStruct VectorVariadic = Some FVector) by reflexivity.
  assert (H2 : RequiresMemoryAllocation FVector = false) by reflexivity.
  assert (H3 : Storage VectorVariadic = CellBuffer [1; 2; 3]) by reflexivity.
  split; [exact H1 |]. split; [exact H2 |]. split; [exact H3 |].
  exact (proj1 (move_inline_copies_then_resets EmptyWorld VectorVariadic PlaneVariadic
                  FVector [1; 2; 3] H1 H2 H3)).
Defined.

(* ------------------------------------------------------------------ *)
(** ** Archive lemmas *)


Lemma length_int32_bytes (x : Z) : length (int32_bytes x) = 4%nat.
Proof. reflexivity. Qed.

Lemma uint32_of_int32_bytes (x : Z) : uint32_of_bytes (int32_bytes x) = x mod 2 ^ 32.
Proof.
  unfold int32_bytes, uint32_of_bytes. simpl.
  change 255 with (Z.ones 8).
  rewrite !Z.land_ones by lia.
  rewrite !Z.shiftr_div_pow2 by lia.
  change (2 ^ (8 * Z.of_nat 0)) with 1. rewrite Z.div_1_r.
  change (2 ^ (8 * Z.of_nat 1)) with 256.
  change (2 ^ (8 * Z.of_nat 2)) with 65536.
  change (2 ^ (8 * Z.of_nat 3)) with 16777216.
  change (2 ^ 8) with 256.
  assert (H2 : x / 65536 = x / 256 / 256) by (rewrite Z.div_div by lia; reflexivity).
  assert (H3 : x / 16777216 = x / 256 / 256 / 256) by (rewrite !Z.div_div by lia; reflexivity).
  rewrite H2, H3.
  set (q1 := x / 256). set (q2 := q1 / 256). set (q3 := q2 / 256).
  pose proof (Z.div_mod x 256 ltac:(lia)) as E0.
  pose proof (Z.div_mod q1 256 ltac:(lia)) as E1.
  pose proof (Z.div_mod q2 256 ltac:(lia)) as E2.
  pose proof (Z.div_mod q3 256 ltac:(lia)) as E3.
  pose proof (Z.mod_pos_bound x 256 ltac:(lia)).
  pose proof (Z.mod_pos_bound q1 256 ltac:(lia)).
  pose proof (Z.mod_pos_bound q2 256 ltac:(lia)).
  pose proof (Z.mod_pos_bound q3 256 ltac:(lia)).
  fold q1 in E0. fold q2 in E1. fold q3 in E2.
  apply (Z.mod_unique x (2 ^ 32) (q3 / 256)); [lia |].
  change (2 ^ 32) with 4294967296. lia.
Qed.

Lemma int32_of_int32_bytes (x : Z) : int32_range x -> int32_of_bytes (int32_bytes x) = x.
Proof.
  intros Hx. unfold int32_of_bytes. rewrite uint32_of_int32_bytes.
  unfold int32_range in Hx.
  destruct (Z.leb_spec 0 x).
  - rewrite Z.mod_small by lia.
    destruct (Z.geb_spec x (2 ^ 31)); lia.
  - replace (x mod 2 ^ 32) with (x + 2 ^ 32).
    + destruct (Z.geb_spec (x + 2 ^ 32) (2 ^ 31)); lia.
    + apply (Z.mod_unique x (2 ^ 32) (-1)); lia.
Qed.

Lemma nth_seq_prefix (pre l rest : list Z) :
  map (fun i => nth (length pre + i) (pre ++ l ++ rest) 0) (seq 0 (length l)) = l.
Proof.
  revert pre. induction l as [| a l IH]; intros pre; [reflexivity |].
  simpl length. cbn [seq map]. rewrite <- seq_shift.
  rewrite app_nth2 by lia. rewrite Nat.add_0_r, Nat.sub_diag. simpl.
  f_equal. rewrite map_map.
  specialize (IH (pre ++ [a])).
  rewrite <- app_assoc in IH. simpl in IH.
  rewrite <- IH at 2. apply map_ext. intros i.
  rewrite length_app. simpl. f_equal. lia.
Qed.

(** Reading the bytes [l] found at the offset. *)
Lemma ReadBytes_at (ar : FArchive) (pre l rest : list Z) :
  ArBytes ar = pre ++ l ++ rest -> ArPos ar = Z.of_nat (length pre) ->
  ReadBytes ar (length l) =
    (l, with_pos_bytes ar (ArBytes ar) (ArPos ar + Z.of_nat (length l))
          (ArRead (ArPos ar) (length l))).
Proof.
  intros Hb Hp. unfold ReadBytes. f_equal.
  rewrite Hb, Hp, Nat2Z.id. apply nth_seq_prefix.
Qed.

Lemma ReadInt32_at (ar : FArchive) (pre rest : list Z) (x : Z) :
  int32_range x ->
  ArBytes ar = pre ++ int32_bytes x ++ rest -> ArPos ar = Z.of_nat (length pre) ->
  ReadInt32 ar = (x, with_pos_bytes ar (ArBytes ar) (ArPos ar + 4) (ArRead (ArPos ar) 4)).
Proof.
  intros Hx Hb Hp. unfold ReadInt32.
  pose proof (ReadBytes_at ar pre (int32_bytes x) rest Hb Hp) as H.
  rewrite length_int32_bytes in H. rewrite H. simpl.
  now rewrite int32_of_int32_bytes.
Qed.

Lemma ReadStructRef_at (ar : FArchive) (pre rest : list Z) (idx : Z) :
  int32_range idx ->
  ArBytes ar = pre ++ int32_bytes idx ++ rest -> ArPos ar = Z.of_nat (length pre) ->
  ReadStructRef ar =
    (ResolveIndex (ArLinker ar) idx,
     with_pos_bytes ar (ArBytes ar) (ArPos ar + 4) (ArRead (ArPos ar) 4)).
Proof.
  intros Hx Hb Hp. unfold ReadStructRef.
  rewrite (ReadInt32_at ar pre rest idx Hx Hb Hp). reflexivity.
Qed.

Lemma ReadInt32s_S (ar : FArchive) (n : nat) :
  ReadInt32s ar (S n) =
    let '(x, ar1) := ReadInt32 ar in
    let '(xs, ar2) := ReadInt32s ar1 n in (x :: xs, ar2).
Proof. reflexivity. Qed.

Lemma ReadInt32s_at (v : list Z) (ar : FArchive) (pre rest : list Z) :
  Forall int32_range v ->
  ArBytes ar = pre ++ payload_bytes v ++ rest -> ArPos ar = Z.of_nat (length pre) ->
  fst (ReadInt32s ar (length v)) = v /\
  ArBytes (snd (ReadInt32s ar (length v))) = ArBytes ar /\
  ArPos (snd (ReadInt32s ar (length v))) = ArPos ar + 4 * Z.of_nat (length v) /\
  ArLinker (snd (ReadInt32s ar (length v))) = ArLinker ar.
Proof.
  revert ar pre. induction v as [| x v IH]; intros ar pre Hv Hb Hp.
  - simpl. repeat split; lia.
  - inversion Hv as [| ? ? Hx Hv']; subst.
    unfold payload_bytes in Hb. rewrite map_cons, concat_cons, <- app_assoc in Hb.
    fold (payload_bytes v) in Hb.
    simpl length. rewrite ReadInt32s_S.
    rewrite (ReadInt32_at ar pre _ x Hx Hb Hp).
    set (ar1 := with_pos_bytes ar (ArBytes ar) (ArPos ar + 4) (ArRead (ArPos ar) 4)).
    assert (Hb1 : ArBytes ar1 = (pre ++ int32_bytes x) ++ payload_bytes v ++ rest)
      by (simpl; rewrite Hb; now rewrite <- app_assoc).
    assert (Hp1 : ArPos ar1 = Z.of_nat (length (pre ++ int32_bytes x)))
      by (simpl; rewrite Hp, length_app, length_int32_bytes; lia).
    destruct (IH ar1 _ Hv' Hb1 Hp1) as (H1 & H2 & H3 & H4).
    destruct (ReadInt32s ar1 (length v)) as [xs ar2]. simpl in *.
    rewrite H1. repeat split; [exact H2 | lia | exact H4].
Qed.

(** Reading two int32 fields at a known prefix. *)
Lemma ReadHeader_at (ar : FArchive) (pre rest : list Z) (idx L : Z) :
  int32_range idx -> int32_range L ->
  ArBytes ar = pre ++ int32_bytes idx ++ int32_bytes L ++ rest ->
  ArPos ar = Z.of_nat (length pre) ->
  exists ar2,
    (let '(SerializedScriptStruct, ar1) := ReadStructRef ar in
     let '(SerialSize, ar2') := ReadInt32 ar1 in (SerializedScriptStruct, SerialSize, ar2'))
      = (ResolveIndex (ArLinker ar) idx, L, ar2) /\
    ArBytes ar2 = ArBytes ar /\ ArPos ar2 = ArPos ar + 8 /\ ArLinker ar2 = ArLinker ar.
Proof.
  intros Hi HL Hb Hp.
  rewrite (ReadStructRef_at ar pre _ idx Hi Hb Hp).
  set (ar1 := with_pos_bytes ar (ArBytes ar) (ArPos ar + 4) (ArRead (ArPos ar) 4)).
  assert (Hb1 : ArBytes ar1 = (pre ++ int32_bytes idx) ++ int32_bytes L ++ rest)
    by (simpl; rewrite Hb; now rewrite <- app_assoc).
  assert (Hp1 : ArPos ar1 = Z.of_nat (length (pre ++ int32_bytes idx)))
    by (simpl; rewrite Hp, length_app, length_int32_bytes; lia).
  rewrite (ReadInt32_at ar1 _ rest L HL Hb1 Hp1).
  eexists. split; [reflexivity |]. simpl. repeat split; lia.
Qed.

(** [InitializeAs(nullptr)] on a non-empty container resets it. *)
Lemma InitializeAs_null (w : World) (c : FVariadicStruct) (s : UScriptStruct)
    (src : option (list Z)) :
  ScriptStruct c = Some s ->
  InitializeAs w c None src = (fst (Reset w c), EmptyVariadic).
Proof.
  intros Hs. unfold InitializeAs. rewrite Hs.
  assert (He : ptr_eqb None (Some s) = false)
    by (unfold ptr_eqb; apply bool_decide_eq_false; discriminate).
  rewrite He, andb_false_r. unfold InitializeAsNew.
  destruct (Reset w c) as [w1 c1] eqn:HR. simpl.
  pose proof (proj1 (Reset_result w c)) as H. rewrite HR in H. simpl in H. now subst c1.
Qed.

(** Loading a record of an unresolvable type: the container is reset, the
    [L] payload bytes are skipped, and a warning is emitted when [L > 0]. *)
Lemma SerializeLoad_unresolved (w : World) (c : FVariadicStruct) (ar : FArchive)
    (pre rest : list Z) (idx L : Z) :
  ContainerWF w c -> int32_range idx -> 0 <= L < 2 ^ 31 ->
  ResolveIndex (ArLinker ar) idx = None ->
  ArBytes ar = pre ++ int32_bytes idx ++ int32_bytes L ++ rest ->
  ArPos ar = Z.of_nat (length pre) ->
  let '(ok, w', c', ar') := SerializeLoad w c None ar in
  ok = true /\ c' = EmptyVariadic /\ ArBytes ar' = ArBytes ar /\
  ArLinker ar' = ArLinker ar /\ ArPos ar' = ArPos ar + 8 + L /\
  Events w' = Events (fst (Reset w c)) ++ (if L >? 0 then [EvWarning L] else []).
Proof.
  intros Hwf Hi HL Hres Hb Hp.
  destruct (ReadHeader_at ar pre rest idx L Hi ltac:(unfold int32_range; lia) Hb Hp)
    as (ar2 & Hrd & Hb2 & Hp2 & Hl2).
  unfold SerializeLoad.
  destruct (ReadStructRef ar) as [S1 ar1].
  destruct (ReadInt32 ar1) as [L1 ar2'].
  injection Hrd as -> -> ->. rewrite Hres.
  unfold SerializeLoadValue. simpl orb.
  destruct (ScriptStruct c) as [s |] eqn:Hs.
  - assert (He : ptr_eqb (Some s) None = false)
      by (unfold ptr_eqb; apply bool_decide_eq_false; discriminate).
    rewrite He. simpl negb. cbv iota.
    rewrite (InitializeAs_null w c s None Hs).
    remember (fst (Reset w c)) as w1 eqn:Hw1. clear Hw1.
    simpl. destruct (L >? 0) eqn:HL'.
    + split; [reflexivity |]. split; [reflexivity |].
      split; [simpl; exact Hb2 |]. split; [simpl; exact Hl2 |].
      split; [simpl; lia |]. apply emit_events.
    + assert (L = 0) by (rewrite Z.gtb_ltb in HL'; apply Z.ltb_ge in HL'; lia).
      split; [reflexivity |]. split; [reflexivity |].
      split; [exact Hb2 |]. split; [exact Hl2 |].
      split; [lia |]. now rewrite app_nil_r.
  - unfold ContainerWF in Hwf. rewrite Hs in Hwf.
    destruct c as [cs cst]. simpl in Hs, Hwf. subst cs cst.
    rewrite ptr_eqb_refl. simpl. destruct (L >? 0) eqn:HL'.
    + split; [reflexivity |]. split; [reflexivity |].
      split; [simpl; exact Hb2 |]. split; [simpl; exact Hl2 |].
      split; [simpl; lia |]. reflexivity.
    + assert (L = 0) by (rewrite Z.gtb_ltb in HL'; apply Z.ltb_ge in HL'; lia).
      split; [reflexivity |]. split; [reflexivity |].
      split; [exact Hb2 |]. split; [exact Hl2 |].
      split; [lia |]. now rewrite app_nil_r.
Qed.

Lemma SerializeLoad_fresh (w : World) (ar : FArchive) (pre rest : list Z) (idx L : Z)
    (s : UScriptStruct) (v : list Z) :
  int32_range idx -> int32_range L -> Forall int32_range v ->
  length v = length (DefaultValue s) ->
  ResolveIndex (ArLinker ar) idx = Some s ->
  ArBytes ar = pre ++ int32_bytes idx ++ int32_bytes L ++ payload_bytes v ++ rest ->
  ArPos ar = Z.of_nat (length pre) ->
  let '(ok, w', c', ar') := SerializeLoad w EmptyVariadic None ar in
  ok = true /\ ScriptStruct c' = Some s /\ Deref w' c' (GetMemory c') = Some v /\
  ArPos ar' = ArPos ar + 8 + 4 * Z.of_nat (length v).
Proof.
  intros Hi HL Hv Hlen Hres Hb Hp.
  destruct (ReadHeader_at ar pre _ idx L Hi HL Hb Hp) as (ar2 & Hrd & Hb2 & Hp2 & Hl2).
  unfold SerializeLoad.
  destruct (ReadStructRef ar) as [S1 ar1].
  destruct (ReadInt32 ar1) as [L1 ar2'].
  injection Hrd as -> -> ->. rewrite Hres.
  assert (Hb2' : ArBytes ar2 = (pre ++ int32_bytes idx ++ int32_bytes L) ++ payload_bytes v ++ rest)
    by (rewrite Hb2, Hb; now rewrite <- !app_assoc).
  assert (Hp2' : ArPos ar2 = Z.of_nat (length (pre ++ int32_bytes idx ++ int32_bytes L)))
    by (rewrite Hp2, Hp, !length_app, !length_int32_bytes; lia).
  destruct (ReadInt32s_at v ar2 _ rest Hv Hb2' Hp2') as (R1 & _ & R3 & _).
  unfold SerializeLoadValue, SerializeItemLoad.
  unfold InitializeAs, InitializeAsNew, GetMutableMemory, GetMemory. cbn [ScriptStruct].
  assert (He : ptr_eqb None (Some s) = false)
    by (unfold ptr_eqb; apply bool_decide_eq_false; discriminate).
  destruct (RequiresMemoryAllocation s) eqn:Hr; cbn; rewrite He; cbn; rewrite Hr; cbn;
    rewrite <- Hlen;
    destruct (ReadInt32s ar2 (length v)) as [vals ar3]; simpl in R1, R3; subst vals; cbn;
    rewrite Hr; cbn; (split; [reflexivity | split; [reflexivity | split; [| lia]]]).
  - now rewrite lookup_insert_eq.
  - reflexivity.
Qed.

(** Claim C4 (corrected, with [C4_counterexample]): loading a record
    whose type reference does not resolve, without defaults, skips exactly
    its [L] payload bytes and leaves the container empty; the warning is
    emitted only when [L > 0] (a record of length 0 is skipped silently);
    the next record, of a resolvable type, is then read correctly from the
    position reached. *)
Theorem Serialize_skips_unresolved_record (w : World) (c : FVariadicStruct) (ar : FArchive)
    (pre skipped rest : list Z) (idx L idx2 L2 : Z) (s : UScriptStruct) (v : list Z) :
  ContainerWF w c ->
  int32_range idx -> ResolveIndex (ArLinker ar) idx = None ->
  0 <= L < 2 ^ 31 -> length skipped = Z.to_nat L ->
  int32_range idx2 -> ResolveIndex (ArLinker ar) idx2 = Some s ->
  int32_range L2 -> Forall int32_range v -> length v = length (DefaultValue s) ->
  ArBytes ar = pre ++ int32_bytes idx ++ int32_bytes L ++ skipped
               ++ int32_bytes idx2 ++ int32_bytes L2 ++ payload_bytes v ++ rest ->
  ArPos ar = Z.of_nat (length pre) ->
  let '(ok1, w1, c1, ar1) := SerializeLoad w c None ar in
  let '(ok2, w2, c2, ar2) := SerializeLoad w1 c1 None ar1 in
  ok1 = true /\ c1 = EmptyVariadic /\
  Events w1 = Events (fst (Reset w c)) ++ (if L >? 0 then [EvWarning L] else []) /\
  ArPos ar1 = ArPos ar + 8 + L /\
  ok2 = true /\ ScriptStruct c2 = Some s /\ Deref w2 c2 (GetMemory c2) = Some v /\
  ArPos ar2 = ArPos ar1 + 8 + 4 * Z.of_nat (length v).
Proof.
  intros Hwf Hi Hres HL Hsk Hi2 Hres2 HL2 Hv Hlen Hb Hp.
  pose proof (SerializeLoad_unresolved w c ar pre _ idx L Hwf Hi HL Hres Hb Hp) as H1.
  destruct (SerializeLoad w c None ar) as [[[ok1 w1] c1] ar1].
  destruct H1 as (-> & -> & Hb1 & Hl1 & Hp1 & Hev).
  assert (Hb1' : ArBytes ar1 = (pre ++ int32_bytes idx ++ int32_bytes L ++ skipped)
                   ++ int32_bytes idx2 ++ int32_bytes L2 ++ payload_bytes v ++ rest)
    by (rewrite Hb1, Hb; now rewrite <- !app_assoc).
  assert (Hp1' : ArPos ar1 = Z.of_nat (length (pre ++ int32_bytes idx ++ int32_bytes L ++ skipped)))
    by (rewrite Hp1, Hp, !length_app, !length_int32_bytes, Hsk; lia).
  rewrite <- Hl1 in Hres2.
  pose proof (SerializeLoad_fresh w1 ar1 _ rest idx2 L2 s v Hi2 HL2 Hv Hlen Hres2 Hb1' Hp1') as H2.
  cbv beta iota.
  destruct (SerializeLoad w1 EmptyVariadic None ar1) as [[[ok2 w2] c2] ar2].
  destruct H2 as (-> & Hs2 & Hd2 & Hp2).
  repeat split; auto.
Qed.

(** The stream of [ExampleLinker]: a record of the unknown type index 9
    with 4 payload bytes, then an [FIntPoint] record holding (5, 6). *)
Lemma Serialize_skips_unresolved_record_witness :
  let ar := ExampleArchive ([] ++ int32_bytes 9 ++ int32_bytes 4 ++ [7; 7; 7; 7]
              ++ int32_bytes 1 ++ int32_bytes 8 ++ payload_bytes [5; 6] ++ []) 0 in
  let '(ok1, w1, c1, ar1) := SerializeLoad EmptyWorld EmptyVariadic None ar in
  let '(ok2, w2, c2, ar2) := SerializeLoad w1 c1 None ar1 in
  ok1 = true /\ c1 = EmptyVariadic /\
  Events w1 = Events (fst (Reset EmptyWorld EmptyVariadic)) ++
                (if 4 >? 0 then [EvWarning 4] else []) /\
  ArPos ar1 = ArPos ar + 8 + 4 /\
  ok2 = true /\ ScriptStruct c2 = Some FIntPoint /\ Deref w2 c2 (GetMemory c2) = Some [5; 6] /\
  ArPos ar2 = ArPos ar1 + 8 + 4 * Z.of_nat (length [5; 6]).
Proof.
  apply (Serialize_skips_unresolved_record EmptyWorld EmptyVariadic _ [] [7; 7; 7; 7] []
           9 4 1 8 FIntPoint [5; 6]);
    unfold int32_range; try reflexivity; try lia.
  repeat constructor; unfold int32_range; lia.
Defined.

(** Counterexample to C4 as stated: a record of the unknown type index 9
    with length 0 is skipped, the container stays empty, and no warning is
    emitted. *)
Lemma C4_counterexample :
  let '(ok1, w1, c1, ar1) :=
    SerializeLoad EmptyWorld EmptyVariadic None (ExampleArchive (int32_bytes 9 ++ int32_bytes 0) 0) in
  ResolveIndex ExampleLinker 9 = None /\ ok1 = true /\ c1 = EmptyVariadic /\
  ArPos ar1 = 8 /\ Events w1 = [] /\ ~ In (EvWarning 0) (Events w1).
Proof.
  vm_compute. split; [reflexivity |]. split; [reflexivity |]. split; [reflexivity |].
  split; [reflexivity |]. split; [reflexivity |]. intros [].
Qed.

(** Claim C6: loading with a defaults view whose type differs from the type
    read from the stream re-initialises the container from the defaults
    (after logging the skipped size), skips the [L] payload bytes and
    succeeds; the stream bytes are not read into the container. *)
Theorem Serialize_defaults_mismatch_load (w : World) (c : FVariadicStruct) (ar : FArchive)
    (d : FConstStructView) (pre rest : list Z) (idx L : Z) :
  int32_range idx -> int32_range L ->
  ArBytes ar = pre ++ int32_bytes idx ++ int32_bytes L ++ rest ->
  ArPos ar = Z.of_nat (length pre) ->
  ViewStruct d <> ResolveIndex (ArLinker ar) idx ->
  let '(ok, w', c', ar') := SerializeLoad w c (Some d) ar in
  ok = true /\
  (w', c') = InitializeAs (emit w (EvLog L)) c (ViewStruct d) (ViewMemory d) /\
  ArBytes ar' = ArBytes ar /\ ArPos ar' = ArPos ar + 8 + L /\
  ArTrace ar' = ArTrace ar ++ [ArRead (ArPos ar) 4; ArRead (ArPos ar + 4) 4; ArSeek (ArPos ar + 8 + L)].
Proof.
  intros Hi HL Hb Hp Hne.
  unfold SerializeLoad.
  rewrite (ReadStructRef_at ar pre _ idx Hi Hb Hp).
  set (ar1 := with_pos_bytes ar (ArBytes ar) (ArPos ar + 4) (ArRead (ArPos ar) 4)).
  assert (Hb1 : ArBytes ar1 = (pre ++ int32_bytes idx) ++ int32_bytes L ++ rest)
    by (simpl; rewrite Hb; now rewrite <- app_assoc).
  assert (Hp1 : ArPos ar1 = Z.of_nat (length (pre ++ int32_bytes idx)))
    by (simpl; rewrite Hp, length_app, length_int32_bytes; lia).
  cbv beta iota.
  rewrite (ReadInt32_at ar1 _ rest L HL Hb1 Hp1).
  cbv beta iota.
  assert (He : ptr_eqb (ViewStruct d) (ResolveIndex (ArLinker ar) idx) = false)
    by (unfold ptr_eqb; now apply bool_decide_eq_false).
  rewrite He. simpl negb. cbv iota.
  destruct (InitializeAs (emit w (EvLog L)) c (ViewStruct d) (ViewMemory d)) as [w1 c1].
  split; [reflexivity |]. split; [reflexivity |].
  simpl. split; [reflexivity |]. split; [lia |].
  replace (ArPos ar + 4 + 4 + L) with (ArPos ar + 8 + L) by lia. now rewrite <- !app_assoc.
Qed.

(** An [FVector] defaults view against a stream record of [FIntPoint]. *)
Lemma Serialize_defaults_mismatch_load_witness :
  let ar := ExampleArchive ([] ++ int32_bytes 1 ++ int32_bytes 8 ++ payload_bytes [5; 6]) 0 in
  let d := MkView (Some FVector) (Some [1; 2; 3]) in
  let '(ok, w', c', ar') := SerializeLoad EmptyWorld EmptyVariadic (Some d) ar in
  ok = true /\
  (w', c') = InitializeAs (emit EmptyWorld (EvLog 8)) EmptyVariadic (ViewStruct d) (ViewMemory d) /\
  ArBytes ar' = ArBytes ar /\ ArPos ar' = ArPos ar + 8 + 8 /\
  ArTrace ar' = ArTrace ar ++ [ArRead (ArPos ar) 4; ArRead (ArPos ar + 4) 4; ArSeek (ArPos ar + 8 + 8)].
Proof.
  apply (Serialize_defaults_mismatch_load EmptyWorld EmptyVariadic _ _ [] (payload_bytes [5; 6]) 1 8);
    unfold int32_range; try reflexivity; try lia.
  simpl. discriminate.
Defined.

(** Claim C8: with the [FInstancedStruct] custom version absent
    ([CustomVer] gives [-1]) the function returns [false] before the legacy
    header is examined: the [< 0] branch is never reached and the archive
    is not read. *)
Theorem MismatchedTag_legacy_branch_unreachable (w : World) (c : FVariadicStruct)
    (ar : FArchive) :
  ArInstancedStructVer ar < 0 ->
  SerializeFromMismatchedTag w c true ar = (false, w, c, ar).
Proof.
  intros Hv. unfold SerializeFromMismatchedTag.
  replace (ArInstancedStructVer ar =? 0) with false by (symmetry; apply Z.eqb_neq; lia).
  reflexivity.
Qed.

(** A legacy record: header 0xABABABAB, version byte 1, then an
    [FIntPoint] record. *)
Lemma MismatchedTag_legacy_branch_unreachable_witness :
  let ar := ExampleArchive (int32_bytes LegacyEditorHeader ++ [1] ++ int32_bytes 1
              ++ int32_bytes 8 ++ payload_bytes [5; 6]) (-1) in
  SerializeFromMismatchedTag EmptyWorld EmptyVariadic true ar
    = (false, EmptyWorld, EmptyVariadic, ar).
Proof.
  apply MismatchedTag_legacy_branch_unreachable. simpl. lia.
Defined.

Lemma write_at_end (bs l : list Z) : write_at bs (length bs) l = bs ++ l.
Proof.
  unfold write_at. rewrite firstn_all, Nat.sub_diag, skipn_all2 by lia.
  simpl. now rewrite app_nil_r.
Qed.

Lemma write_at_mid (pre old rest l : list Z) :
  length old = length l ->
  write_at (pre ++ old ++ rest) (length pre) l = pre ++ l ++ rest.
Proof.
  intros Hl. unfold write_at.
  rewrite take_app_length.
  replace (length pre - length (pre ++ old ++ rest))%nat with 0%nat
    by (rewrite length_app; lia).
  rewrite <- drop_drop, drop_app_length, <- Hl, drop_app_length. reflexivity.
Qed.

Lemma WriteBytes_end (ar : FArchive) (l : list Z) :
  ArPos ar = Z.of_nat (length (ArBytes ar)) ->
  WriteBytes ar l =
    with_pos_bytes ar (ArBytes ar ++ l) (ArPos ar + Z.of_nat (length l)) (ArWrite (ArPos ar) l).
Proof.
  intros Hp. unfold WriteBytes. rewrite Hp, Nat2Z.id, write_at_end. reflexivity.
Qed.

Lemma WriteBytes_mid (ar : FArchive) (pre old rest l : list Z) :
  ArBytes ar = pre ++ old ++ rest -> ArPos ar = Z.of_nat (length pre) ->
  length old = length l ->
  WriteBytes ar l =
    with_pos_bytes ar (pre ++ l ++ rest) (ArPos ar + Z.of_nat (length l)) (ArWrite (ArPos ar) l).
Proof.
  intros Hb Hp Hl. unfold WriteBytes. rewrite Hb, Hp, Nat2Z.id, write_at_mid by exact Hl.
  reflexivity.
Qed.

Lemma write_at_app (X Y l : list Z) (m : nat) :
  write_at (X ++ Y) (length X + m) l = X ++ write_at Y m l.
Proof.
  unfold write_at. rewrite firstn_app_2, length_app.
  replace (length X + m - (length X + length Y))%nat with (m - length Y)%nat by lia.
  rewrite <- Nat.add_assoc, skipn_app, skipn_all2 by lia.
  replace (length X + (m + length l) - length X)%nat with (m + length l)%nat by lia.
  now rewrite <- !app_assoc.
Qed.

Lemma write_at_0 (Y l : list Z) : write_at Y 0 l = l ++ skipn (length l) Y.
Proof. reflexivity. Qed.

Lemma length_write_prefix (bs : list Z) (p : nat) :
  length (firstn p bs ++ repeat 0 (p - length bs)) = p.
Proof. rewrite length_app, length_firstn, repeat_length. lia. Qed.

Lemma write_at_split (bs l : list Z) (p : nat) :
  write_at bs p l = (firstn p bs ++ repeat 0 (p - length bs)) ++ l ++ skipn (p + length l) bs.
Proof. unfold write_at. now rewrite <- app_assoc. Qed.

(** The type reference and the placeholder written at [p]. *)
Lemma write_at_header (bs r z : list Z) (p n : nat) :
  (p + length r)%nat = n ->
  write_at (write_at bs p r) n z =
  (firstn p bs ++ repeat 0 (p - length bs)) ++ r ++ z ++ skipn (n + length z) bs.
Proof.
  intros <-.
  rewrite (write_at_split bs r p).
  set (B := firstn p bs ++ repeat 0 (p - length bs)).
  assert (HB : length B = p) by apply length_write_prefix.
  replace (write_at (B ++ r ++ skipn (p + length r) bs) (p + length r) z)
    with ((B ++ r) ++ write_at (skipn (p + length r) bs) 0 z).
  2: { rewrite <- write_at_app. f_equal; [now rewrite app_assoc | rewrite length_app; lia]. }
  rewrite write_at_0, skipn_skipn, <- !app_assoc.
  do 3 f_equal. f_equal. lia.
Qed.

(** Writing past a frame's header, and patching its placeholder. *)
Lemma write_at_after (B r z Y l : list Z) (n : nat) :
  (length B + length r + length z)%nat = n ->
  write_at (B ++ r ++ z ++ Y) n l = B ++ r ++ z ++ l ++ skipn (length l) Y.
Proof.
  intros Hn. rewrite !app_assoc, <- Hn.
  replace (length B + length r + length z)%nat with (length ((B ++ r) ++ z) + 0)%nat
    by (rewrite !length_app; lia).
  rewrite write_at_app, write_at_0. now rewrite <- !app_assoc.
Qed.

Lemma write_at_patch (B r z rest l : list Z) (n : nat) :
  (length B + length r)%nat = n -> length z = length l ->
  write_at (B ++ r ++ z ++ rest) n l = B ++ r ++ l ++ rest.
Proof.
  intros Hn Hl. rewrite app_assoc, <- Hn, <- length_app, write_at_mid by exact Hl.
  now rewrite <- app_assoc.
Qed.

Ltac events_eq :=
  repeat match goal with
  | |- _ :: _ = _ :: _ => f_equal
  | |- ArWrite _ _ = ArWrite _ _ => f_equal
  | |- ArSeek _ = ArSeek _ => f_equal
  | |- int32_bytes _ = int32_bytes _ => f_equal
  end; try reflexivity; lia.

(** Claim C5: every save, with or without defaults and at any offset [P],
    writes the type reference at [P] and a 0 length placeholder at
    [SizeOffset = P + 4], then the payload at [P + 8] (when the container
    holds a value), in this order; it then seeks back to [SizeOffset],
    overwrites the placeholder in place with
    [FinalOffset - SizeOffset - 4], and seeks to [FinalOffset], the end of
    the payload, where the archive's offset is left.  For a non-negative
    offset the resulting bytes are the frame laid over the archive's bytes:
    reference, patched length, payload. *)
Theorem Serialize_write_frame (w : World) (c : FVariadicStruct)
    (StructDefaults : option FConstStructView) (ar : FArchive) :
  let '(ok, w', c', ar') := SerializeSave w c StructDefaults ar in
  let P := ArPos ar in
  let r := int32_bytes (IndexOf (ArLinker ar) (ScriptStruct c')) in
  let pl := saved_payload w' c' in
  let SizeOffset := P + 4 in
  let FinalOffset := P + 8 + Z.of_nat (length pl) in
  ok = true /\
  ArTrace ar' = ArTrace ar ++ [ArWrite P r; ArWrite SizeOffset (int32_bytes 0)] ++
                saved_payload_write w' c' (P + 8) ++
                [ArSeek SizeOffset;
                 ArWrite SizeOffset (int32_bytes (FinalOffset - SizeOffset - 4));
                 ArSeek FinalOffset] /\
  ArPos ar' = FinalOffset /\
  (0 <= P ->
   ArBytes ar' = firstn (Z.to_nat P) (ArBytes ar) ++ repeat 0 (Z.to_nat P - length (ArBytes ar))
                 ++ r ++ int32_bytes (FinalOffset - SizeOffset - 4) ++ pl
                 ++ skipn (Z.to_nat P + 8 + length pl) (ArBytes ar)) /\
  ArLinker ar' = ArLinker ar /\ ArInstancedStructVer ar' = ArInstancedStructVer ar /\
  ArIsTextFormat ar' = ArIsTextFormat ar.
Proof.
  unfold SerializeSave.
  destruct (match StructDefaults with
            | Some d => if negb (ptr_eqb (ViewStruct d) (ScriptStruct c))
                        then InitializeAs w c (ViewStruct d) (ViewMemory d) else (w, c)
            | None => (w, c) end) as [w1 c1].
  cbv beta iota zeta.
  set (P := ArPos ar).
  set (r := int32_bytes (IndexOf (ArLinker ar) (ScriptStruct c1))).
  (* the archive before the payload *)
  set (ar2 := WriteInt32 (WriteStructRef ar (ScriptStruct c1)) 0).
  assert (Hp2 : ArPos ar2 = P + 8)
    by (unfold ar2, WriteStructRef, WriteInt32, WriteBytes, with_pos_bytes; cbn [ArPos];
        rewrite !length_int32_bytes; unfold P; lia).
  (* the payload step, as one write of [saved_payload] or none *)
  assert (Hmid : exists ar3,
      match GetMutableMemory c1 with PNull => ar2 | MemoryPtr => SerializeItemSave w1 c1 MemoryPtr ar2 end = ar3 /\
      ((ar3 = ar2 /\ saved_payload w1 c1 = [] /\ saved_payload_write w1 c1 (P + 8) = []) \/
       (ar3 = WriteBytes ar2 (saved_payload w1 c1) /\
        saved_payload_write w1 c1 (P + 8) = [ArWrite (P + 8) (saved_payload w1 c1)]))).
  { unfold saved_payload, saved_payload_write, SerializeItemSave.
    destruct (GetMutableMemory c1) as [| | n];
      [| destruct (Deref w1 c1 PBuffer) | destruct (Deref w1 c1 (PHeap n))];
      eexists; (split; [reflexivity |]); auto. }
  destruct Hmid as (ar3 & -> & Har3).
  fold P r.
  destruct Har3 as [(-> & -> & ->) | (-> & ->)].
  all: unfold ar2, Seek, WriteStructRef, WriteInt32, WriteBytes, with_pos_bytes;
    cbn [ArPos ArBytes ArTrace ArLinker ArInstancedStructVer ArIsTextFormat];
    fold P r; assert (Hr : length r = 4%nat) by apply length_int32_bytes;
    rewrite ?length_int32_bytes, Hr; cbn [length].
  all: split; [reflexivity |].
  all: split; [rewrite <- !app_assoc; cbn [app]; do 2 f_equal; events_eq |].
  all: split; [lia |].
  all: split; [| repeat split].
  all: intros HP; rewrite !Z2Nat.inj_add by lia; cbn [Z.to_nat Pos.to_nat Pos.iter_op Nat.add].
  all: rewrite Nat2Z.id;
    rewrite (write_at_header (ArBytes ar) r (int32_bytes 0) (Z.to_nat P) (Z.to_nat P + 4)%nat)
      by (rewrite Hr; lia);
    set (B := firstn (Z.to_nat P) (ArBytes ar) ++ repeat 0 (Z.to_nat P - length (ArBytes ar)));
    assert (HB : length B = Z.to_nat P) by apply length_write_prefix.
  2: rewrite (write_at_after B r (int32_bytes 0) _ (saved_payload w1 c1) (Z.to_nat P + 4 + 4)%nat)
       by (rewrite HB, Hr, length_int32_bytes; lia).
  all: rewrite (write_at_patch B r (int32_bytes 0) _ _ (Z.to_nat P + 4)%nat)
         by (rewrite ?HB, ?Hr, ?length_int32_bytes; lia).
  all: unfold B; rewrite <- ?app_assoc.
  all: do 3 f_equal; f_equal; [f_equal; lia |].
  all: rewrite ?skipn_skipn, length_int32_bytes; cbn [app].
  - f_equal. lia.
  - f_equal. f_equal. lia.
Qed.

(** An [FVector] (1, 2, 3) taken from a defaults view, saved at offset 4
    of a 30-byte archive. *)
Lemma Serialize_write_frame_witness :
  let ar := MkArchive (repeat 7 30) 4 [] ExampleLinker 0 false in
  let d := Some (MkView (Some FVector) (Some [1; 2; 3])) in
  let '(ok, w', c', ar') := SerializeSave EmptyWorld EmptyVariadic d ar in
  ok = true /\ ScriptStruct c' = Some FVector /\ ArPos ar' = 24 /\
  ArTrace ar' = [ArWrite 4 (int32_bytes 2); ArWrite 8 (int32_bytes 0);
                 ArWrite 12 (payload_bytes [1; 2; 3]); ArSeek 8;
                 ArWrite 8 (int32_bytes 12); ArSeek 24] /\
  ArBytes ar' = repeat 7 4 ++ int32_bytes 2 ++ int32_bytes 12 ++ payload_bytes [1; 2; 3]
                ++ repeat 7 6.
Proof.
  intros ar d.
  pose proof (Serialize_write_frame EmptyWorld EmptyVariadic d ar) as H.
  destruct (SerializeSave EmptyWorld EmptyVariadic d ar) as [[[ok w'] c'] ar'] eqn:E.
  vm_compute in E. injection E as <- <- <- <-.
  cbv zeta in H. destruct H as (Hok & Htr & Hpos & Hb & _).
  split; [exact Hok |]. split; [reflexivity |].
  split; [rewrite Hpos; vm_compute; reflexivity |].
  split; [rewrite Htr; vm_compute; reflexivity |].
  rewrite (Hb ltac:(vm_compute; discriminate)). vm_compute. reflexivity.
Defined.

(** [Store] and the descriptor operations keep the container's type. *)
Lemma Store_type (w : World) (c : FVariadicStruct) (p : Ptr) (v : list Z) :
  ScriptStruct (snd (Store w c p v)) = ScriptStruct c.
Proof. destruct p; reflexivity. Qed.

(** After [InitializeAs(T, ...)] the container's type is [T]. *)
Lemma InitializeAs_type (w : World) (c : FVariadicStruct) (t : option UScriptStruct)
    (m : option (list Z)) :
  ScriptStruct (snd (InitializeAs w c t m)) = t.
Proof.
  assert (Hnew : ScriptStruct (snd (InitializeAsNew w c t m)) = t).
  { unfold InitializeAsNew. destruct (Reset w c) as [w1 c1].
    destruct t as [t |]; [| reflexivity].
    destruct (RequiresMemoryAllocation t).
    - destruct (Malloc w1) as [w2 n]. cbv beta iota.
      unfold InitializeStruct.
      destruct (Store (emit w2 (EvInitializeStruct t))
                  (MkVariadic (Some t) (CellMemory (Some n))) (PHeap n) (DefaultValue t))
        as [w4 c4] eqn:HS.
      pose proof (Store_type (emit w2 (EvInitializeStruct t))
                    (MkVariadic (Some t) (CellMemory (Some n))) (PHeap n) (DefaultValue t)) as H.
      rewrite HS in H. simpl in H.
      destruct m as [src |]; [| exact H].
      unfold CopyScriptStruct. rewrite Store_type. exact H.
    - cbv beta iota. unfold InitializeStruct.
      destruct (Store (emit w1 (EvInitializeStruct t))
                  (MkVariadic (Some t) (Storage c1)) PBuffer (DefaultValue t))
        as [w4 c4] eqn:HS.
      pose proof (Store_type (emit w1 (EvInitializeStruct t))
                    (MkVariadic (Some t) (Storage c1)) PBuffer (DefaultValue t)) as H.
      rewrite HS in H. simpl in H.
      destruct m as [src |]; [| exact H].
      unfold CopyScriptStruct. rewrite Store_type. exact H. }
  unfold InitializeAs.
  destruct (ScriptStruct c) as [s |] eqn:Hs; [| exact Hnew].
  destruct (IsValid c && ptr_eqb t (Some s)) eqn:Hv; [| exact Hnew].
  apply andb_prop in Hv as [_ Hv]. apply ptr_eqb_true in Hv. subst t.
  destruct m as [src |].
  - unfold CopyScriptStruct. now rewrite Store_type.
  - unfold ClearScriptStruct. now rewrite Store_type.
Qed.

Lemma WriteBytes_trace (ar : FArchive) (l : list Z) :
  ArTrace (WriteBytes ar l) = ArTrace ar ++ [ArWrite (ArPos ar) l].
Proof. reflexivity. Qed.

Lemma Seek_trace (ar : FArchive) (pos : Z) :
  ArTrace (Seek ar pos) = ArTrace ar ++ [ArSeek pos].
Proof. reflexivity. Qed.

Lemma SerializeItemSave_trace (w : World) (c : FVariadicStruct) (p : Ptr) (ar : FArchive) :
  exists t, ArTrace (SerializeItemSave w c p ar) = ArTrace ar ++ t.
Proof.
  unfold SerializeItemSave. destruct (Deref w c p).
  - eexists. apply WriteBytes_trace.
  - exists []. now rewrite app_nil_r.
Qed.

(** Claim C10: saving with a defaults view whose type differs from the
    container's re-initialises the container to the defaults' type and
    value before writing: the container returned is the re-initialised one,
    its type is the defaults' type (so it differs from the container
    passed in), and the first thing written is the reference to the
    defaults' type. *)
Theorem Serialize_save_mismatched_defaults (w : World) (c : FVariadicStruct)
    (d : FConstStructView) (ar : FArchive) :
  ViewStruct d <> ScriptStruct c ->
  let '(ok, w', c', ar') := SerializeSave w c (Some d) ar in
  ok = true /\
  (w', c') = InitializeAs w c (ViewStruct d) (ViewMemory d) /\
  ScriptStruct c' = ViewStruct d /\ c' <> c /\
  exists t, ArTrace ar' = ArTrace ar
    ++ ArWrite (ArPos ar) (int32_bytes (IndexOf (ArLinker ar) (ViewStruct d))) :: t.
Proof.
  intros Hne.
  assert (He : ptr_eqb (ViewStruct d) (ScriptStruct c) = false)
    by (unfold ptr_eqb; now apply bool_decide_eq_false).
  pose proof (InitializeAs_type w c (ViewStruct d) (ViewMemory d)) as Ht.
  unfold SerializeSave. rewrite He. simpl negb. cbv iota.
  destruct (InitializeAs w c (ViewStruct d) (ViewMemory d)) as [w1 c1]. simpl in Ht.
  cbv beta iota zeta.
  split; [reflexivity |]. split; [reflexivity |]. split; [exact Ht |].
  split; [intros ->; congruence |].
  unfold WriteStructRef, WriteInt32.
  rewrite Seek_trace, WriteBytes_trace, Seek_trace.
  destruct (GetMutableMemory c1);
    try (match goal with |- context [ArTrace (SerializeItemSave ?a ?b ?p ?x)] =>
           destruct (SerializeItemSave_trace a b p x) as [t Hit]; rewrite Hit end);
    rewrite !WriteBytes_trace, Ht;
    rewrite <- !app_assoc; eexists; reflexivity.
Qed.

(** Saving an inline [FVector] with [FIntPoint] defaults (5, 6). *)
Lemma Serialize_save_mismatched_defaults_witness :
  let d := MkView (Some FIntPoint) (Some [5; 6]) in
  let ar := ExampleArchive [] 0 in
  let '(ok, w', c', ar') := SerializeSave EmptyWorld VectorVariadic (Some d) ar in
  ok = true /\
  (w', c') = InitializeAs EmptyWorld VectorVariadic (ViewStruct d) (ViewMemory d) /\
  ScriptStruct c' = ViewStruct d /\ c' <> VectorVariadic /\
  exists t, ArTrace ar' = ArTrace ar
    ++ ArWrite (ArPos ar) (int32_bytes (IndexOf (ArLinker ar) (ViewStruct d))) :: t.
Proof.
  apply (Serialize_save_mismatched_defaults EmptyWorld VectorVariadic
           (MkView (Some FIntPoint) (Some [5; 6])) (ExampleArchive [] 0)).
  simpl. intros H. inversion H.
Defined.

(* ================================================================== *)
(** * Further properties of the code *)

(** ** Lifecycle *)

Lemma Reset_effect (w : World) (c : FVariadicStruct) :
  ContainerWF w c ->
  let '(w', c') := Reset w c in
  c' = EmptyVariadic /\ NextAddr w' = NextAddr w /\
  Heap w' = match HeapBlock c with Some n => delete n (Heap w) | None => Heap w end /\
  Events w' = Events w ++
    match ScriptStruct c with
    | Some s => EvDestroyStruct s :: match HeapBlock c with Some n => [EvFree n] | None => [] end
    | None => []
    end.
Proof.
  unfold ContainerWF, Reset, HeapBlock, GetMutableMemory, GetMemory.
  destruct c as [[s |] st]; cbn [ScriptStruct Storage].
  - destruct (RequiresMemoryAllocation s) eqn:Hr; cbn [negb].
    + intros (n & v & -> & Hn). cbn. repeat split. now rewrite <- app_assoc.
    + intros (v & ->). cbn. repeat split.
  - intros ->. cbn. repeat split. now rewrite app_nil_r.
Qed.

(** A live block lies below [NextAddr]. *)
Lemma WorldWF_live (w : World) (n : nat) (v : list Z) :
  WorldWF w -> Heap w !! n = Some v -> (n < NextAddr w)%nat.
Proof.
  intros Hw Hn. destruct (Nat.lt_ge_cases n (NextAddr w)) as [H | H]; [exact H |].
  rewrite (Hw n H) in Hn. discriminate.
Qed.

(** What [InitializeAs] does to a reachable container: the result is
    reachable, holds the requested type and the source (or the type's
    default) or is empty, and the heap changes only at the container's own
    block and at fresh addresses. *)
Lemma InitializeAs_spec (w : World) (c : FVariadicStruct) (t : option UScriptStruct)
    (m : option (list Z)) :
  ContainerWF w c -> WorldWF w ->
  let '(w', c') := InitializeAs w c t m in
  ContainerWF w' c' /\ WorldWF w' /\ (NextAddr w <= NextAddr w')%nat /\
  (forall k, HeapBlock c <> Some k -> (k < NextAddr w)%nat -> Heap w' !! k = Heap w !! k) /\
  (forall k, HeapBlock c' = Some k -> HeapBlock c = Some k \/ (NextAddr w <= k)%nat) /\
  match t with
  | None => c' = EmptyVariadic
  | Some T => ScriptStruct c' = Some T /\
      Deref w' c' (GetMemory c') = Some (match m with Some src => src | None => DefaultValue T end)
  end.
Proof.
  intros Hc Hw.
  assert (Hnew : let '(w', c') := InitializeAsNew w c t m in
    ContainerWF w' c' /\ WorldWF w' /\ (NextAddr w <= NextAddr w')%nat /\
    (forall k, HeapBlock c <> Some k -> (k < NextAddr w)%nat -> Heap w' !! k = Heap w !! k) /\
    (forall k, HeapBlock c' = Some k -> HeapBlock c = Some k \/ (NextAddr w <= k)%nat) /\
    match t with
    | None => c' = EmptyVariadic
    | Some T => ScriptStruct c' = Some T /\
        Deref w' c' (GetMemory c') = Some (match m with Some src => src | None => DefaultValue T end)
    end).
  { unfold InitializeAsNew.
    pose proof (Reset_effect w c Hc) as HR.
    destruct (Reset w c) as [w1 c1].
    destruct HR as (-> & HN1 & HH1 & _).
    assert (Hw1 : WorldWF w1).
    { intros n Hn. rewrite HH1. rewrite HN1 in Hn.
      destruct (HeapBlock c) as [b |]; [| now apply Hw].
      destruct (decide (b = n)) as [-> | Hne];
        [apply lookup_delete_eq | rewrite lookup_delete_ne by exact Hne; now apply Hw]. }
    assert (Hf1 : forall k, HeapBlock c <> Some k -> Heap w1 !! k = Heap w !! k).
    { intros k Hk. rewrite HH1. destruct (HeapBlock c) as [b |]; [| reflexivity].
      apply lookup_delete_ne. congruence. }
    destruct t as [T |].
    2: { cbn. repeat split; try exact Hw1; try lia; [intros k Hk _; now apply Hf1 |].
         intros k Hk. discriminate. }
    destruct (RequiresMemoryAllocation T) eqn:Hr.
    - assert (HN : Heap w1 !! NextAddr w1 = None) by (apply Hw1; lia).
      destruct m as [src |];
      unfold Malloc, InitializeStruct, CopyScriptStruct, Store, emit; cbv beta iota;
      unfold ContainerWF, GetMemory, StructMemory, PtrOf, Deref;
      cbn [ScriptStruct Storage Heap NextAddr Events]; rewrite ?Hr; cbn [negb].
      all: split; [eexists _, _; split; [reflexivity | apply lookup_insert_eq] |].
      all: split; [unfold WorldWF; cbn [Heap NextAddr]; intros n Hn; rewrite !lookup_insert_ne by lia; apply Hw1; lia |].
      all: split; [cbn; lia |].
      all: split; [intros k Hk Hlt; rewrite !lookup_insert_ne by lia; now apply Hf1 |].
      all: split; [intros k Hk; right; unfold HeapBlock, StructMemory in Hk;
                   cbn [ScriptStruct Storage] in Hk; rewrite Hr in Hk; injection Hk as <-; lia |].
      all: split; [reflexivity | apply lookup_insert_eq].
    - destruct m as [src |];
      unfold InitializeStruct, CopyScriptStruct, Store, emit; cbv beta iota;
      unfold ContainerWF, GetMemory, StructMemory, PtrOf, Deref;
      cbn [ScriptStruct Storage Heap NextAddr Events]; rewrite ?Hr; cbn [negb].
      all: split; [eexists; reflexivity |].
      all: split; [exact Hw1 |].
      all: split; [lia |].
      all: split; [intros k Hk _; now apply Hf1 |].
      all: split; [intros k Hk; unfold HeapBlock in Hk; cbn [ScriptStruct] in Hk;
                   rewrite Hr in Hk; discriminate |].
      all: split; reflexivity. }
  unfold InitializeAs.
  destruct (ScriptStruct c) as [s |] eqn:Hs; [| exact Hnew].
  destruct (IsValid c && ptr_eqb t (Some s)) eqn:Hv; [| exact Hnew].
  apply andb_prop in Hv as [_ Hv]. apply ptr_eqb_true in Hv. subst t.
  unfold ContainerWF in Hc. rewrite Hs in Hc.
  unfold HeapBlock. rewrite Hs.
  unfold GetMutableMemory, GetMemory. rewrite Hs.
  destruct c as [cs st]. cbn in Hs |- *. subst cs.
  destruct (RequiresMemoryAllocation s) eqn:Hr; cbn [negb].
  - destruct Hc as (n & v & Hst & Hn). cbn in Hst. subst st. cbn.
    pose proof (WorldWF_live w n v Hw Hn) as Hlt.
    destruct m as [src |]; cbn; rewrite Hr; cbn.
    all: split; [eexists _, _; split; [reflexivity | apply lookup_insert_eq] |].
    all: split; [unfold WorldWF; cbn [Heap NextAddr]; intros k Hk; rewrite lookup_insert_ne by lia; now apply Hw |].
    all: split; [lia |].
    all: split; [intros k Hk _; apply lookup_insert_ne; congruence |].
    all: split; [intros k Hk; left; exact Hk |].
    all: split; [reflexivity | apply lookup_insert_eq].
  - destruct Hc as (v & Hst). cbn in Hst. subst st.
    destruct m as [src |]; cbn; rewrite Hr; cbn.
    all: split; [eexists; reflexivity |].
    all: split; [exact Hw |].
    all: split; [lia |].
    all: split; [intros k _ _; reflexivity |].
    all: split; [intros k Hk; left; exact Hk |].
    all: split; reflexivity.
Qed.

(** The block a reachable container owns is live. *)
Lemma HeapBlock_live (w : World) (c : FVariadicStruct) (k : nat) :
  ContainerWF w c -> HeapBlock c = Some k -> exists v, Heap w !! k = Some v.
Proof.
  unfold ContainerWF, HeapBlock. destruct (ScriptStruct c) as [s |]; [| discriminate].
  destruct (RequiresMemoryAllocation s); [| discriminate].
  intros (n & v & Hst & Hn). unfold StructMemory. rewrite Hst. intros [= <-]. now exists v.
Qed.

(** A reachable container is unaffected by heap changes away from its own
    block. *)
Lemma ContainerWF_frame (w w' : World) (c : FVariadicStruct) :
  ContainerWF w c ->
  (forall k, HeapBlock c = Some k -> Heap w' !! k = Heap w !! k) ->
  ContainerWF w' c /\ Deref w' c (GetMemory c) = Deref w c (GetMemory c).
Proof.
  unfold ContainerWF, HeapBlock, GetMemory. destruct c as [[s |] st]; cbn [ScriptStruct Storage].
  - destruct (RequiresMemoryAllocation s); cbn [negb].
    + intros (n & v & -> & Hn) Hf. cbn. pose proof (Hf n eq_refl) as Hn'.
      rewrite Hn'. split; [exists n, v; split; [reflexivity | congruence] | reflexivity].
    + intros (v & ->) _. split; [now exists v | reflexivity].
  - intros -> _. split; reflexivity.
Qed.

(** [CompareScriptStruct] of a payload with itself. *)
Lemma CompareScriptStruct_same (s : UScriptStruct) (v : option (list Z)) :
  v <> None -> CompareScriptStruct s v v = true.
Proof. destruct v; [| congruence]. intros _. unfold CompareScriptStruct. now apply bool_decide_eq_true. Qed.

(** Copying [InOther] into [c] (the body of both copy operations). *)
Lemma copy_into_spec (w : World) (c b : FVariadicStruct) :
  ContainerWF w c -> ContainerWF w b -> WorldWF w -> IsValid b = true ->
  (forall n, HeapBlock c = Some n -> HeapBlock b <> Some n) ->
  let '(w', a) := InitializeAs w c (ScriptStruct b) (Deref w b (GetMemory b)) in
  Identical w' a b = true /\
  Deref w' b (GetMemory b) = Deref w b (GetMemory b) /\
  ContainerWF w' a /\ ContainerWF w' b /\ WorldWF w' /\
  (forall n, HeapBlock a = Some n -> HeapBlock b <> Some n).
Proof.
  intros Hc Hb Hw Hv Hd.
  unfold IsValid in Hv. destruct (ScriptStruct b) as [s |] eqn:Hs; [| discriminate].
  destruct (GetMemory_wf_nonnull w b s Hb Hs) as [_ [v Hbv]]. rewrite Hbv.
  pose proof (InitializeAs_spec w c (Some s) (Some v) Hc Hw) as H.
  destruct (InitializeAs w c (Some s) (Some v)) as [w' a].
  destruct H as (Ha & Hw' & Hle & Hfr & Hfresh & Hsa & Hda).
  assert (Hbf : forall k, HeapBlock b = Some k -> Heap w' !! k = Heap w !! k).
  { intros k Hk. destruct (HeapBlock_live w b k Hb Hk) as [x Hx].
    apply Hfr; [intros E; exact (Hd k E Hk) | exact (WorldWF_live w k x Hw Hx)]. }
  destruct (ContainerWF_frame w w' b Hb Hbf) as [Hb' Hdb]. rewrite Hbv in Hdb.
  split.
  { unfold Identical. rewrite Hsa, Hs, ptr_eqb_refl, Hda, Hdb.
    apply CompareScriptStruct_same. discriminate. }
  split; [exact Hdb |]. split; [exact Ha |]. split; [exact Hb' |]. split; [exact Hw' |].
  intros n Hn Hbn. destruct (Hfresh n Hn) as [Hcn | Hge].
  - exact (Hd n Hcn Hbn).
  - destruct (HeapBlock_live w b n Hb Hbn) as [x Hx].
    pose proof (WorldWF_live w n x Hw Hx). lia.
Qed.

Lemma EmptyVariadic_wf (w : World) : ContainerWF w EmptyVariadic.
Proof. reflexivity. Qed.

(** Sample worlds are well formed. *)
Lemma PlaneWorld_wf : WorldWF PlaneWorld.
Proof. intros n Hn. cbn in Hn. cbn. rewrite lookup_insert_ne by lia. apply lookup_empty. Qed.

Lemma PlaneVariadic_wf : ContainerWF PlaneWorld PlaneVariadic.
Proof. exists 0%nat, [1; 2; 3; 4]. split; reflexivity. Qed.

Lemma VectorVariadic_wf (w : World) : ContainerWF w VectorVariadic.
Proof. exists [1; 2; 3]. reflexivity. Qed.

(** Extra: [Reset] (and the destructor, which calls it) destroys the value,
    frees the heap block the container owns, and leaves an empty container;
    the allocator is untouched otherwise. *)
Theorem Reset_releases (w : World) (c : FVariadicStruct) :
  ContainerWF w c ->
  let '(w', c') := Reset w c in
  c' = EmptyVariadic /\ NextAddr w' = NextAddr w /\
  Heap w' = match HeapBlock c with Some n => delete n (Heap w) | None => Heap w end /\
  Events w' = Events w ++
    match ScriptStruct c with
    | Some s => EvDestroyStruct s :: match HeapBlock c with Some n => [EvFree n] | None => [] end
    | None => []
    end.
Proof. exact (Reset_effect w c). Qed.

Lemma Reset_releases_witness :
  ContainerWF PlaneWorld PlaneVariadic /\
  (let '(w', c') := Reset PlaneWorld PlaneVariadic in
   c' = EmptyVariadic /\ NextAddr w' = NextAddr PlaneWorld /\
   Heap w' = match HeapBlock PlaneVariadic with Some n => delete n (Heap PlaneWorld) | None => Heap PlaneWorld end /\
   Events w' = Events PlaneWorld ++
     match ScriptStruct PlaneVariadic with
     | Some s => EvDestroyStruct s :: match HeapBlock PlaneVariadic with Some n => [EvFree n] | None => [] end
     | None => []
     end).
Proof. split; [exact PlaneVariadic_wf | exact (Reset_releases PlaneWorld PlaneVariadic PlaneVariadic_wf)]. Defined.

(** Extra: [InitializeAs] keeps a reachable container reachable and the
    allocator consistent, only touches the block the container owned, only
    ever hands out fresh blocks, and leaves the requested type holding the
    source payload (or the default value), or an empty container for
    [nullptr]. *)
Theorem InitializeAs_result (w : World) (c : FVariadicStruct)
    (t : option UScriptStruct) (m : option (list Z)) :
  ContainerWF w c -> WorldWF w ->
  let '(w', c') := InitializeAs w c t m in
  ContainerWF w' c' /\ WorldWF w' /\ (NextAddr w <= NextAddr w')%nat /\
  (forall k, HeapBlock c <> Some k -> (k < NextAddr w)%nat -> Heap w' !! k = Heap w !! k) /\
  (forall k, HeapBlock c' = Some k -> HeapBlock c = Some k \/ (NextAddr w <= k)%nat) /\
  match t with
  | None => c' = EmptyVariadic
  | Some T => ScriptStruct c' = Some T /\
      Deref w' c' (GetMemory c') = Some (match m with Some src => src | None => DefaultValue T end)
  end.
Proof. exact (InitializeAs_spec w c t m). Qed.

Lemma InitializeAs_result_witness :
  ContainerWF PlaneWorld VectorVariadic /\ WorldWF PlaneWorld /\
  (let '(w', c') := InitializeAs PlaneWorld VectorVariadic (Some FPlane) None in
   ContainerWF w' c' /\ WorldWF w' /\ (NextAddr PlaneWorld <= NextAddr w')%nat /\
   (forall k, HeapBlock VectorVariadic <> Some k -> (k < NextAddr PlaneWorld)%nat ->
      Heap w' !! k = Heap PlaneWorld !! k) /\
   (forall k, HeapBlock c' = Some k -> HeapBlock VectorVariadic = Some k \/ (NextAddr PlaneWorld <= k)%nat) /\
   (ScriptStruct c' = Some FPlane /\ Deref w' c' (GetMemory c') = Some (DefaultValue FPlane))).
Proof.
  split; [apply VectorVariadic_wf |]. split; [exact PlaneWorld_wf |].
  exact (InitializeAs_result PlaneWorld VectorVariadic (Some FPlane) None
           (VectorVariadic_wf PlaneWorld) PlaneWorld_wf).
Defined.

(** Extra: re-initialising a container with the type it already holds
    works in place: the same storage (no allocation, no free), one copy
    (or reset to default) of the value, and nothing else. *)
Theorem InitializeAs_same_type_in_place (w : World) (c : FVariadicStruct)
    (s : UScriptStruct) (m : option (list Z)) :
  ContainerWF w c -> ScriptStruct c = Some s ->
  let '(w', c') := InitializeAs w c (Some s) m in
  ScriptStruct c' = Some s /\ HeapBlock c' = HeapBlock c /\
  NextAddr w' = NextAddr w /\
  Events w' = Events w ++ [match m with Some _ => EvCopyScriptStruct s | None => EvClearScriptStruct s end] /\
  Deref w' c' (GetMemory c') = Some (match m with Some v => v | None => DefaultValue s end) /\
  ContainerWF w' c'.
Proof.
  destruct c as [sc st]. cbn [ScriptStruct]. intros Hc ->.
  unfold InitializeAs, IsValid. cbn [ScriptStruct]. rewrite ptr_eqb_refl. cbn [andb].
  unfold ContainerWF, HeapBlock, GetMutableMemory, GetMemory in *. cbn [ScriptStruct Storage] in *.
  destruct (RequiresMemoryAllocation s) eqn:Hr; cbn [negb] in *.
  - destruct Hc as (n & v & -> & Hn).
    destruct m as [src |]; cbn; rewrite ?Hr; cbn;
      (split; [reflexivity |]); (split; [reflexivity |]); (split; [reflexivity |]);
      (split; [reflexivity |]); (split; [apply lookup_insert_eq |]);
      exists n; eexists; (split; [reflexivity | apply lookup_insert_eq]).
  - destruct Hc as (v & ->).
    destruct m as [src |]; cbn; rewrite ?Hr; cbn; repeat split; eexists; reflexivity.
Qed.

Lemma InitializeAs_same_type_in_place_witness :
  ContainerWF PlaneWorld PlaneVariadic /\ ScriptStruct PlaneVariadic = Some FPlane /\
  (let '(w', c') := InitializeAs PlaneWorld PlaneVariadic (Some FPlane) (Some [5; 6; 7; 8]) in
   ScriptStruct c' = Some FPlane /\ HeapBlock c' = HeapBlock PlaneVariadic /\
   NextAddr w' = NextAddr PlaneWorld /\
   Events w' = Events PlaneWorld ++ [EvCopyScriptStruct FPlane] /\
   Deref w' c' (GetMemory c') = Some [5; 6; 7; 8] /\ ContainerWF w' c').
Proof.
  split; [exact PlaneVariadic_wf |]. split; [reflexivity |].
  exact (InitializeAs_same_type_in_place PlaneWorld PlaneVariadic FPlane (Some [5; 6; 7; 8])
           PlaneVariadic_wf eq_refl).
Defined.

(** Extra: the copy constructor makes a deep copy: the new container
    compares [Identical] to the source, the source keeps its value and
    stays valid, and the two never share a heap block. *)
Theorem CopyConstruct_deep_copy (w : World) (b : FVariadicStruct) :
  ContainerWF w b -> WorldWF w -> IsValid b = true ->
  let '(w', a) := CopyConstruct w b in
  Identical w' a b = true /\
  Deref w' b (GetMemory b) = Deref w b (GetMemory b) /\
  ContainerWF w' a /\ ContainerWF w' b /\ WorldWF w' /\
  (forall n, HeapBlock a = Some n -> HeapBlock b <> Some n).
Proof.
  intros Hb Hw Hv. unfold CopyConstruct.
  apply (copy_into_spec w EmptyVariadic b (EmptyVariadic_wf w) Hb Hw Hv).
  intros n Hn. discriminate Hn.
Qed.

Lemma CopyConstruct_deep_copy_witness :
  ContainerWF PlaneWorld PlaneVariadic /\ WorldWF PlaneWorld /\ IsValid PlaneVariadic = true /\
  (let '(w', a) := CopyConstruct PlaneWorld PlaneVariadic in
   Identical w' a PlaneVariadic = true /\
   Deref w' PlaneVariadic (GetMemory PlaneVariadic) = Deref PlaneWorld PlaneVariadic (GetMemory PlaneVariadic) /\
   ContainerWF w' a /\ ContainerWF w' PlaneVariadic /\ WorldWF w' /\
   (forall n, HeapBlock a = Some n -> HeapBlock PlaneVariadic <> Some n)).
Proof.
  split; [exact PlaneVariadic_wf |]. split; [exact PlaneWorld_wf |]. split; [reflexivity |].
  exact (CopyConstruct_deep_copy PlaneWorld PlaneVariadic PlaneVariadic_wf PlaneWorld_wf eq_refl).
Defined.

(** Extra: copy assignment between two distinct containers makes [*this] a
    deep copy of the source ([Identical] to it), leaves the source and its
    value untouched, and the two still own different heap blocks. *)
Theorem CopyAssign_deep_copy (w : World) (a b : FVariadicStruct) :
  ContainerWF w a -> ContainerWF w b -> WorldWF w -> IsValid b = true ->
  (forall n, HeapBlock a = Some n -> HeapBlock b <> Some n) ->
  let '(w', a') := CopyAssign w a b in
  Identical w' a' b = true /\
  Deref w' b (GetMemory b) = Deref w b (GetMemory b) /\
  ContainerWF w' a' /\ ContainerWF w' b /\ WorldWF w' /\
  (forall n, HeapBlock a' = Some n -> HeapBlock b <> Some n).
Proof. intros Ha Hb Hw Hv Hd. unfold CopyAssign. exact (copy_into_spec w a b Ha Hb Hw Hv Hd). Qed.

Lemma CopyAssign_deep_copy_witness :
  ContainerWF PlaneWorld2 PlaneVariadic2 /\ ContainerWF PlaneWorld2 PlaneVariadic /\
  WorldWF PlaneWorld2 /\ IsValid PlaneVariadic = true /\
  (forall n, HeapBlock PlaneVariadic2 = Some n -> HeapBlock PlaneVariadic <> Some n) /\
  (let '(w', a') := CopyAssign PlaneWorld2 PlaneVariadic2 PlaneVariadic in
   Identical w' a' PlaneVariadic = true /\
   Deref w' PlaneVariadic (GetMemory PlaneVariadic) = Deref PlaneWorld2 PlaneVariadic (GetMemory PlaneVariadic) /\
   ContainerWF w' a' /\ ContainerWF w' PlaneVariadic /\ WorldWF w' /\
   (forall n, HeapBlock a' = Some n -> HeapBlock PlaneVariadic <> Some n)).
Proof.
  assert (Ha : ContainerWF PlaneWorld2 PlaneVariadic2) by (exists 1%nat, [9; 9; 9; 9]; split; reflexivity).
  assert (Hb : ContainerWF PlaneWorld2 PlaneVariadic) by (exists 0%nat, [1; 2; 3; 4]; split; reflexivity).
  assert (Hw : WorldWF PlaneWorld2).
  { intros n Hn. cbn in Hn. cbn. rewrite !lookup_insert_ne by lia. apply lookup_empty. }
  assert (Hd : forall n, HeapBlock PlaneVariadic2 = Some n -> HeapBlock PlaneVariadic <> Some n).
  { intros n Hn. vm_compute in Hn. injection Hn as <-. vm_compute. discriminate. }
  split; [exact Ha |]. split; [exact Hb |]. split; [exact Hw |]. split; [reflexivity |].
  split; [exact Hd |].
  exact (CopyAssign_deep_copy PlaneWorld2 PlaneVariadic2 PlaneVariadic Ha Hb Hw eq_refl Hd).
Defined.

(** Extra: moving a heap-held value steals the block: the move constructor
    takes [InOther]'s pointer without touching the world, and move
    assignment first releases [*this] ([Reset]), then takes the pointer; the
    moved-from container is left empty and the value is unchanged. *)
Theorem Move_heap_transfers_block (w : World) (a b : FVariadicStruct) (s : UScriptStruct) :
  ContainerWF w a -> ContainerWF w b -> ScriptStruct b = Some s ->
  RequiresMemoryAllocation s = true -> HeapBlock a <> HeapBlock b ->
  MoveConstruct w b = (w, b, EmptyVariadic) /\
  let '(w', a', b') := MoveAssign w a b in
  a' = b /\ b' = EmptyVariadic /\ w' = fst (Reset w a) /\
  ContainerWF w' a' /\ Deref w' a' (GetMemory a') = Deref w b (GetMemory b).
Proof.
  intros Ha Hb Hs Hr Hab.
  assert (Hbn : exists n, Storage b = CellMemory (Some n) /\ HeapBlock b = Some n).
  { unfold ContainerWF, HeapBlock in *. rewrite Hs, Hr in *.
    destruct Hb as (n & v & Hst & _). exists n. split; [exact Hst |]. unfold StructMemory. now rewrite Hst. }
  destruct Hbn as (n & Hst & Hbk).
  assert (Hbeq : ResetStructData (Some s) (StructMemory b) = b).
  { destruct b as [sb stb]. cbn [ScriptStruct Storage] in *. subst. reflexivity. }
  split.
  { unfold MoveConstruct. rewrite Hs, Hr. cbn [negb]. now rewrite Hbeq. }
  unfold MoveAssign. rewrite Hs, Hr. cbn [negb].
  pose proof (Reset_effect w a Ha) as He. destruct (Reset w a) as [w1 a1] eqn:HR.
  destruct He as (_ & _ & Hheap & _).
  rewrite Hbeq. cbn [fst]. split; [reflexivity |]. split; [reflexivity |]. split; [reflexivity |].
  apply ContainerWF_frame; [exact Hb |].
  intros k Hk. rewrite Hheap. destruct (HeapBlock a) as [m |] eqn:Ham; [| reflexivity].
  apply lookup_delete_ne. intros ->. apply Hab. now rewrite Hk.
Qed.

Lemma Move_heap_transfers_block_witness :
  ContainerWF PlaneWorld VectorVariadic /\ ContainerWF PlaneWorld PlaneVariadic /\
  ScriptStruct PlaneVariadic = Some FPlane /\ RequiresMemoryAllocation FPlane = true /\
  HeapBlock VectorVariadic <> HeapBlock PlaneVariadic /\
  (MoveConstruct PlaneWorld PlaneVariadic = (PlaneWorld, PlaneVariadic, EmptyVariadic) /\
   let '(w', a', b') := MoveAssign PlaneWorld VectorVariadic PlaneVariadic in
   a' = PlaneVariadic /\ b' = EmptyVariadic /\ w' = fst (Reset PlaneWorld VectorVariadic) /\
   ContainerWF w' a' /\ Deref w' a' (GetMemory a') = Deref PlaneWorld PlaneVariadic (GetMemory PlaneVariadic)).
Proof.
  assert (Hd : HeapBlock VectorVariadic <> HeapBlock PlaneVariadic) by (vm_compute; discriminate).
  split; [apply VectorVariadic_wf |]. split; [exact PlaneVariadic_wf |].
  split; [reflexivity |]. split; [reflexivity |]. split; [exact Hd |].
  exact (Move_heap_transfers_block PlaneWorld VectorVariadic PlaneVariadic FPlane
           (VectorVariadic_wf PlaneWorld) PlaneVariadic_wf eq_refl eq_refl Hd).
Defined.

(** ** Typed access and typed initialisation *)

(** For the descriptor of a real C++ type, the runtime placement test and
    the compile-time one agree. *)
Lemma RMA_TypeRMA (t : UScriptStruct) :
  WellFormedStruct t -> RequiresMemoryAllocation t = TypeRequiresMemoryAllocation t.
Proof.
  intros Ht. unfold RequiresMemoryAllocation.
  rewrite (RequiresMemoryAllocationWith_full _ _ t CONTAINER_ALIGNMENT_pow2 Ht). reflexivity.
Qed.

Lemma GetTypeMemory_GetMemory (t : UScriptStruct) (c : FVariadicStruct) :
  WellFormedStruct t -> ScriptStruct c = Some t -> GetTypeMemory t c = GetMemory c.
Proof.
  intros Ht Hs. unfold GetTypeMemory, GetMemory. rewrite Hs, (RMA_TypeRMA t Ht).
  now destruct (TypeRequiresMemoryAllocation t).
Qed.

Lemma ptr_eqb_sym (a b : option UScriptStruct) : ptr_eqb a b = ptr_eqb b a.
Proof.
  destruct (ptr_eqb a b) eqn:E; symmetry.
  - apply ptr_eqb_true in E. subst. apply ptr_eqb_refl.
  - destruct (ptr_eqb b a) eqn:F; [| reflexivity].
    apply ptr_eqb_true in F. subst. now rewrite ptr_eqb_refl in E.
Qed.

(** Extra: when the container holds exactly [T] (a real C++ type), the
    typed fast path of [GetValuePtr<T>] ([GetTypeMemory<T>], placement
    decided at compile time) yields the same address as the untyped
    [GetMemory()] (placement decided from the descriptor at run time), in
    both access modes. *)
Theorem GetValuePtr_exact_type_address (t : UScriptStruct) (bExactType : bool) (c : FVariadicStruct) :
  WellFormedStruct t -> ScriptStruct c = Some t ->
  GetValuePtr t bExactType c = GetMemory c.
Proof.
  intros Ht Hs. unfold GetValuePtr. rewrite Hs, ptr_eqb_refl.
  exact (GetTypeMemory_GetMemory t c Ht Hs).
Qed.

Lemma GetValuePtr_exact_type_address_witness :
  WellFormedStruct FVector /\ ScriptStruct VectorVariadic = Some FVector /\
  GetValuePtr FVector true VectorVariadic = GetMemory VectorVariadic.
Proof.
  split; [exact wf_FVector |]. split; [reflexivity |].
  exact (GetValuePtr_exact_type_address FVector true VectorVariadic wf_FVector eq_refl).
Defined.

(** Extra: on a reachable container, [IsTypeOf<T, bExactType>()] holds
    exactly when [GetValuePtr<T, bExactType>()] returns a non-null
    pointer. *)
Theorem IsTypeOf_iff_GetValuePtr (w : World) (t : UScriptStruct) (bExactType : bool)
    (c : FVariadicStruct) :
  ContainerWF w c -> WellFormedStruct t ->
  IsTypeOf t bExactType c = true <-> GetValuePtr t bExactType c <> PNull.
Proof.
  intros Hc Ht. unfold IsTypeOf, GetValuePtr. rewrite (ptr_eqb_sym (ScriptStruct c) (Some t)).
  destruct (ptr_eqb (Some t) (ScriptStruct c)) eqn:E; cbn [orb].
  - apply ptr_eqb_true in E. symmetry in E.
    rewrite (GetTypeMemory_GetMemory t c Ht E).
    split; [intros _ | reflexivity]. exact (proj1 (GetMemory_wf_nonnull w c t Hc E)).
  - destruct (negb bExactType && match ScriptStruct c with Some s => IsChildOf s t | None => false end)
      eqn:F.
    + split; [intros _ | reflexivity].
      destruct (ScriptStruct c) as [s |] eqn:Hs.
      * exact (proj1 (GetMemory_wf_nonnull w c s Hc Hs)).
      * rewrite andb_false_r in F. discriminate F.
    + split; [discriminate | now intros []].
Qed.

Lemma IsTypeOf_iff_GetValuePtr_witness :
  ContainerWF PlaneWorld PlaneVariadic /\ WellFormedStruct FVector /\
  (IsTypeOf FVector false PlaneVariadic = true <-> GetValuePtr FVector false PlaneVariadic <> PNull).
Proof.
  split; [exact PlaneVariadic_wf |]. split; [exact wf_FVector |].
  exact (IsTypeOf_iff_GetValuePtr PlaneWorld FVector false PlaneVariadic PlaneVariadic_wf wf_FVector).
Defined.

(** Extra: [GetValue<T, bExactType>()] passes its [checkf] assertions
    exactly when [IsTypeOf<T, bExactType>()] holds, and then designates the
    same address [GetValuePtr<T, bExactType>()] returns. *)
Theorem GetValue_checked_access (t : UScriptStruct) (bExactType : bool) (c : FVariadicStruct) :
  GetValue t bExactType c =
  if IsTypeOf t bExactType c then Some (GetValuePtr t bExactType c) else None.
Proof.
  unfold GetValue, IsTypeOf, GetValuePtr. rewrite (ptr_eqb_sym (ScriptStruct c) (Some t)).
  destruct (ScriptStruct c) as [s |]; [destruct (IsChildOf s t) |];
    destruct (ptr_eqb _ _); destruct bExactType; reflexivity.
Qed.

(** Extra: [operator==] compares a reachable container equal to itself
    exactly when it holds a value: an empty container is not equal to
    itself, and [operator!=] says the opposite. *)
Theorem operator_eq_self (w : World) (c : FVariadicStruct) :
  ContainerWF w c ->
  operator_eq w c c = IsValid c /\ operator_neq w c c = negb (IsValid c).
Proof.
  intros Hc. unfold operator_eq, operator_neq, Identical, IsValid.
  destruct (ScriptStruct c) as [s |] eqn:Hs; [| split; reflexivity].
  rewrite ptr_eqb_refl.
  destruct (GetMemory_wf_nonnull w c s Hc Hs) as [_ [v Hv]]. rewrite Hv.
  rewrite CompareScriptStruct_same by discriminate. split; reflexivity.
Qed.

Lemma operator_eq_self_witness :
  ContainerWF PlaneWorld PlaneVariadic /\
  operator_eq PlaneWorld PlaneVariadic PlaneVariadic = IsValid PlaneVariadic /\
  operator_neq PlaneWorld PlaneVariadic PlaneVariadic = negb (IsValid PlaneVariadic).
Proof.
  split; [exact PlaneVariadic_wf |].
  exact (operator_eq_self PlaneWorld PlaneVariadic PlaneVariadic_wf).
Defined.

Lemma Reset_WorldWF (w : World) (c : FVariadicStruct) :
  ContainerWF w c -> WorldWF w -> WorldWF (fst (Reset w c)).
Proof.
  intros Hc Hw. pose proof (Reset_effect w c Hc) as He. destruct (Reset w c) as [w1 c1].
  destruct He as (_ & Hn & Hh & _). cbn [fst]. intros k Hk. rewrite Hh.
  rewrite Hn in Hk. destruct (HeapBlock c).
  - destruct (decide (n = k)) as [-> | Hne]; [apply lookup_delete_eq |].
    rewrite lookup_delete_ne by exact Hne. now apply Hw.
  - now apply Hw.
Qed.

(** Extra: [InitializeAs<T>(Args...)] for a real C++ type [T] leaves the
    container reachable and typed [T], returns the address of the new
    value, which [GetValuePtr<T, true>()] and [GetMemory()] also return;
    when [T] was already held it reuses the storage and calls nothing in
    the reflection layer. *)
Theorem InitializeAsT_roundtrip (w : World) (c : FVariadicStruct) (t : UScriptStruct) (v : list Z) :
  WellFormedStruct t -> ContainerWF w c -> WorldWF w ->
  let '(w', c', p) := InitializeAsT w c t v in
  ScriptStruct c' = Some t /\ p = GetMemory c' /\ p <> PNull /\
  GetValuePtr t true c' = p /\ Deref w' c' p = Some v /\
  ContainerWF w' c' /\ WorldWF w' /\
  (ScriptStruct c = Some t ->
     HeapBlock c' = HeapBlock c /\ NextAddr w' = NextAddr w /\ Events w' = Events w).
Proof.
  intros Ht Hc Hw. pose proof (RMA_TypeRMA t Ht) as Hr.
  unfold InitializeAsT.
  destruct (ptr_eqb (Some t) (ScriptStruct c)) eqn:E.
  - apply ptr_eqb_true in E. symmetry in E.
    destruct c as [sc st]. cbn [ScriptStruct] in E. subst sc.
    unfold ContainerWF, HeapBlock, GetMemory in *. cbn [ScriptStruct Storage] in *.
    rewrite Hr in *. destruct (TypeRequiresMemoryAllocation t) eqn:Ht'; cbn [negb] in *.
    + destruct Hc as (n & x & -> & Hn). cbn. rewrite ?Hr. cbn [negb].
      pose proof (WorldWF_live w n x Hw Hn) as Hlt.
      split; [reflexivity |]. split; [reflexivity |]. split; [discriminate |].
      split.
      { unfold GetValuePtr, GetTypeMemory. cbn [ScriptStruct]. rewrite ptr_eqb_refl, Ht'. reflexivity. }
      split; [apply lookup_insert_eq |]. split; [exists n, v; split; [reflexivity | apply lookup_insert_eq] |].
      split.
      { intros k Hk. cbn in Hk. cbn. rewrite lookup_insert_ne by lia. now apply Hw. }
      intros _. repeat split.
    + destruct Hc as (x & ->). cbn. rewrite ?Hr. cbn [negb].
      split; [reflexivity |]. split; [reflexivity |]. split; [discriminate |].
      split.
      { unfold GetValuePtr, GetTypeMemory. cbn [ScriptStruct]. rewrite ptr_eqb_refl, Ht'. reflexivity. }
      split; [reflexivity |]. split; [now exists v |]. split; [exact Hw |].
      intros _. repeat split.
  - assert (Hne : ScriptStruct c <> Some t).
    { intros H. rewrite H, ptr_eqb_refl in E. discriminate. }
    pose proof (Reset_WorldWF w c Hc Hw) as Hw1.
    pose proof (Reset_effect w c Hc) as He. destruct (Reset w c) as [w1 c1].
    destruct He as (-> & _ & _ & _). cbn [fst] in Hw1.
    destruct (TypeRequiresMemoryAllocation t) eqn:Ht'.
    + cbn. rewrite ?Hr. cbn [negb].
      split; [reflexivity |]. split; [reflexivity |]. split; [discriminate |].
      split.
      { unfold GetValuePtr, GetTypeMemory. cbn [ScriptStruct]. rewrite ptr_eqb_refl, Ht'. reflexivity. }
      split; [apply lookup_insert_eq |].
      split; [exists (NextAddr w1), v; split; [reflexivity | apply lookup_insert_eq] |].
      split.
      { intros k Hk. cbn in Hk. cbn. rewrite !lookup_insert_ne by lia. apply Hw1. lia. }
      intros H. contradiction.
    + cbn. rewrite ?Hr. cbn [negb].
      split; [reflexivity |]. split; [reflexivity |]. split; [discriminate |].
      split.
      { unfold GetValuePtr, GetTypeMemory. cbn [ScriptStruct]. rewrite ptr_eqb_refl, Ht'. reflexivity. }
      split; [reflexivity |]. split; [now exists v |]. split; [exact Hw1 |].
      intros H. contradiction.
Qed.

Lemma InitializeAsT_roundtrip_witness :
  WellFormedStruct Aligned32 /\ ContainerWF PlaneWorld VectorVariadic /\ WorldWF PlaneWorld /\
  (let '(w', c', p) := InitializeAsT PlaneWorld VectorVariadic Aligned32 [7] in
   ScriptStruct c' = Some Aligned32 /\ p = GetMemory c' /\ p <> PNull /\
   GetValuePtr Aligned32 true c' = p /\ Deref w' c' p = Some [7] /\
   ContainerWF w' c' /\ WorldWF w' /\
   (ScriptStruct VectorVariadic = Some Aligned32 ->
      HeapBlock c' = HeapBlock VectorVariadic /\ NextAddr w' = NextAddr PlaneWorld /\
      Events w' = Events PlaneWorld)).
Proof.
  split; [exact wf_Aligned32 |]. split; [apply VectorVariadic_wf |]. split; [exact PlaneWorld_wf |].
  exact (InitializeAsT_roundtrip PlaneWorld VectorVariadic Aligned32 [7] wf_Aligned32
           (VectorVariadic_wf PlaneWorld) PlaneWorld_wf).
Defined.

(** ** Serialization *)

Lemma length_payload_bytes (v : list Z) : length (payload_bytes v) = (4 * length v)%nat.
Proof.
  unfold payload_bytes. induction v as [| x v IH]; [reflexivity |].
  rewrite map_cons, concat_cons, length_app, length_int32_bytes, IH. simpl. lia.
Qed.

Lemma save_item_step (w : World) (c : FVariadicStruct) (ar2 : FArchive) :
  ArPos ar2 = Z.of_nat (length (ArBytes ar2)) ->
  let ar3 := match GetMutableMemory c with
             | PNull => ar2
             | MemoryPtr => SerializeItemSave w c MemoryPtr ar2
             end in
  ArBytes ar3 = ArBytes ar2 ++ saved_payload w c /\
  ArPos ar3 = ArPos ar2 + Z.of_nat (length (saved_payload w c)) /\
  ArLinker ar3 = ArLinker ar2.
Proof.
  intros Hp. unfold saved_payload.
  destruct (GetMutableMemory c) as [| | n];
    [cbn; rewrite app_nil_r; repeat split; lia | |];
    unfold SerializeItemSave; destruct (Deref w c _);
    (try (rewrite (WriteBytes_end ar2 _ Hp); repeat split; reflexivity));
    cbn; rewrite app_nil_r; repeat split; lia.
Qed.

(** Saving without defaults, at the end of the archive: the frame is the
    type reference, the payload length and the payload. *)
Lemma SerializeSave_bytes (w : World) (c : FVariadicStruct) (ar : FArchive) :
  ArPos ar = Z.of_nat (length (ArBytes ar)) ->
  let pl := saved_payload w c in
  let '(ok, w', c', ar') := SerializeSave w c None ar in
  ok = true /\ w' = w /\ c' = c /\
  ArBytes ar' = ArBytes ar ++ int32_bytes (IndexOf (ArLinker ar) (ScriptStruct c))
                ++ int32_bytes (Z.of_nat (length pl)) ++ pl /\
  ArPos ar' = ArPos ar + 8 + Z.of_nat (length pl) /\ ArLinker ar' = ArLinker ar.
Proof.
  intros Hp pl. unfold SerializeSave. cbv beta iota zeta.
  unfold WriteStructRef, WriteInt32.
  set (r := int32_bytes (IndexOf (ArLinker ar) (ScriptStruct c))).
  rewrite (WriteBytes_end ar _ Hp).
  set (ar1 := with_pos_bytes ar (ArBytes ar ++ r) (ArPos ar + Z.of_nat (length r)) (ArWrite (ArPos ar) r)).
  assert (Hp1 : ArPos ar1 = Z.of_nat (length (ArBytes ar1)))
    by (unfold ar1, with_pos_bytes; cbn [ArPos ArBytes]; unfold r;
        rewrite Hp, length_app, length_int32_bytes; lia).
  rewrite (WriteBytes_end ar1 _ Hp1).
  set (ar2 := with_pos_bytes ar1 (ArBytes ar1 ++ int32_bytes 0)
                (ArPos ar1 + Z.of_nat (length (int32_bytes 0)))
                (ArWrite (ArPos ar1) (int32_bytes 0))).
  assert (Hp2 : ArPos ar2 = Z.of_nat (length (ArBytes ar2)))
    by (unfold ar2, ar1, with_pos_bytes; cbn [ArPos ArBytes]; unfold r;
        rewrite Hp, !length_app, !length_int32_bytes; lia).
  destruct (save_item_step w c ar2 Hp2) as (Hb3 & Hp3 & Hl3).
  set (ar3 := match GetMutableMemory c with
              | PNull => ar2
              | MemoryPtr => SerializeItemSave w c MemoryPtr ar2
              end) in *.
  fold pl in Hb3, Hp3. clearbody ar3.
  assert (Hb4 : ArBytes (Seek ar3 (ArPos ar1)) = (ArBytes ar ++ r) ++ int32_bytes 0 ++ pl)
    by (cbn; rewrite Hb3; cbn; now rewrite <- !app_assoc).
  assert (Hp4 : ArPos (Seek ar3 (ArPos ar1)) = Z.of_nat (length (ArBytes ar ++ r)))
    by (unfold Seek, ar1, with_pos_bytes; cbn [ArPos]; unfold r;
        rewrite Hp, length_app, length_int32_bytes; lia).
  rewrite (WriteBytes_mid _ _ _ _ _ Hb4 Hp4 ltac:(now rewrite !length_int32_bytes)).
  assert (E : ArPos ar3 - ArPos ar2 = Z.of_nat (length pl)) by lia.
  rewrite E. cbn.
  split; [reflexivity |]. split; [reflexivity |]. split; [reflexivity |].
  split; [now rewrite <- !app_assoc |].
  assert (E2 : ArPos ar2 = ArPos ar + 8)
    by (unfold ar2, ar1, with_pos_bytes; cbn [ArPos]; unfold r; rewrite !length_int32_bytes; lia).
  split; [rewrite Hp3, E2; lia |].
  rewrite Hl3. reflexivity.
Qed.

(** Writing a payload at the container's own memory. *)
Lemma Store_at_memory (w : World) (c : FVariadicStruct) (s : UScriptStruct) (v : list Z) :
  ContainerWF w c -> WorldWF w -> ScriptStruct c = Some s ->
  let '(w', c') := Store w c (GetMemory c) v in
  ScriptStruct c' = Some s /\ Deref w' c' (GetMemory c') = Some v /\
  ContainerWF w' c' /\ WorldWF w' /\ HeapBlock c' = HeapBlock c /\
  NextAddr w' = NextAddr w /\ Events w' = Events w.
Proof.
  destruct c as [sc st]. cbn [ScriptStruct]. intros Hc Hw ->.
  unfold ContainerWF, HeapBlock, GetMemory in *. cbn [ScriptStruct Storage] in *.
  destruct (RequiresMemoryAllocation s) eqn:Hr; cbn [negb] in *.
  - destruct Hc as (n & x & -> & Hn). pose proof (WorldWF_live w n x Hw Hn). cbn. rewrite ?Hr. cbn.
    split; [reflexivity |]. split; [apply lookup_insert_eq |].
    split; [exists n, v; split; [reflexivity | apply lookup_insert_eq] |].
    split; [| repeat split].
    intros k Hk. cbn in Hk. cbn. rewrite lookup_insert_ne by lia. now apply Hw.
  - destruct Hc as (x & ->). cbn. rewrite ?Hr. cbn.
    split; [reflexivity |]. split; [reflexivity |]. split; [now exists v |].
    split; [exact Hw | repeat split].
Qed.

(** Loading a record of a resolvable type into a reachable container. *)
Lemma SerializeLoad_record (w : World) (c : FVariadicStruct) (ar : FArchive)
    (pre rest : list Z) (idx L : Z) (s : UScriptStruct) (v : list Z) :
  ContainerWF w c -> WorldWF w ->
  int32_range idx -> int32_range L -> Forall int32_range v ->
  length v = length (DefaultValue s) ->
  ResolveIndex (ArLinker ar) idx = Some s ->
  ArBytes ar = pre ++ int32_bytes idx ++ int32_bytes L ++ payload_bytes v ++ rest ->
  ArPos ar = Z.of_nat (length pre) ->
  let '(ok, w', c', ar') := SerializeLoad w c None ar in
  ok = true /\ ScriptStruct c' = Some s /\ Deref w' c' (GetMemory c') = Some v /\
  ContainerWF w' c' /\ WorldWF w' /\
  ArPos ar' = ArPos ar + 8 + 4 * Z.of_nat (length v) /\
  ArBytes ar' = ArBytes ar /\ ArLinker ar' = ArLinker ar /\
  (ScriptStruct c = Some s ->
     HeapBlock c' = HeapBlock c /\ NextAddr w' = NextAddr w /\ Events w' = Events w).
Proof.
  intros Hc Hw Hi HL Hv Hlen Hres Hb Hp.
  destruct (ReadHeader_at ar pre _ idx L Hi HL Hb Hp) as (ar2 & Hrd & Hb2 & Hp2 & Hl2).
  unfold SerializeLoad.
  destruct (ReadStructRef ar) as [S1 ar1].
  destruct (ReadInt32 ar1) as [L1 ar2'].
  injection Hrd as -> -> ->. rewrite Hres.
  assert (Hb2' : ArBytes ar2 = (pre ++ int32_bytes idx ++ int32_bytes L) ++ payload_bytes v ++ rest)
    by (rewrite Hb2, Hb; now rewrite <- !app_assoc).
  assert (Hp2' : ArPos ar2 = Z.of_nat (length (pre ++ int32_bytes idx ++ int32_bytes L)))
    by (rewrite Hp2, Hp, !length_app, !length_int32_bytes; lia).
  destruct (ReadInt32s_at v ar2 _ rest Hv Hb2' Hp2') as (R1 & R2 & R3 & R4).
  destruct (ReadInt32s ar2 (length v)) as [vals ar3] eqn:HR. cbn [fst snd] in R1, R2, R3, R4. subst vals.
  assert (Htail : forall w1 c1, ContainerWF w1 c1 -> WorldWF w1 -> ScriptStruct c1 = Some s ->
    exists p, GetMemory c1 = p /\
      (match GetMutableMemory c1, ScriptStruct c1 with
      | PNull, _ =>
          if L >? 0
          then (true, emit w1 (EvWarning L), c1, Seek ar2 (ArPos ar2 + L))
          else (true, w1, c1, ar2)
      | MemoryPtr, Some s =>
          let '(w2, c2, ar2) := SerializeItemLoad s w1 c1 MemoryPtr ar2 in (true, w2, c2, ar2)
      | _, None => (true, w1, c1, ar2)
      end) = (true, fst (Store w1 c1 p v), snd (Store w1 c1 p v), ar3)).
  { intros w1 c1 Hc1 Hw1 Hs1. exists (GetMemory c1). split; [reflexivity |].
    destruct (GetMemory_wf_nonnull w1 c1 s Hc1 Hs1) as [Hnn _].
    unfold GetMutableMemory. rewrite Hs1.
    destruct (GetMemory c1) eqn:Hm; [contradiction | |];
      unfold SerializeItemLoad; rewrite <- Hlen, HR; destruct (Store w1 c1 _ v); reflexivity. }
  assert (Hpost : forall w1 c1, ContainerWF w1 c1 -> WorldWF w1 -> ScriptStruct c1 = Some s ->
    let '(w3, c3) := Store w1 c1 (GetMemory c1) v in
    ScriptStruct c3 = Some s /\ Deref w3 c3 (GetMemory c3) = Some v /\
    ContainerWF w3 c3 /\ WorldWF w3 /\
    ArPos ar3 = ArPos ar + 8 + 4 * Z.of_nat (length v) /\
    ArBytes ar3 = ArBytes ar /\ ArLinker ar3 = ArLinker ar /\
    HeapBlock c3 = HeapBlock c1 /\ NextAddr w3 = NextAddr w1 /\ Events w3 = Events w1).
  { intros w1 c1 Hc1 Hw1 Hs1.
    pose proof (Store_at_memory w1 c1 s v Hc1 Hw1 Hs1) as HS.
    destruct (Store w1 c1 (GetMemory c1) v) as [w3 c3].
    destruct HS as (H1 & H2 & H3 & H4 & H5 & H6 & H7).
    split; [exact H1 |]. split; [exact H2 |]. split; [exact H3 |]. split; [exact H4 |].
    split; [rewrite R3, Hp2; lia |]. split; [rewrite R2, Hb2; reflexivity |].
    split; [rewrite R4, Hl2; reflexivity |]. repeat split; assumption. }
  unfold SerializeLoadValue. cbn [orb].
  destruct (ptr_eqb (ScriptStruct c) (Some s)) eqn:E; cbn [negb].
  - pose proof E as Es. apply ptr_eqb_true in Es.
    destruct (Htail w c Hc Hw Es) as (p & <- & ->). pose proof (Hpost w c Hc Hw Es) as HP.
    destruct (Store w c (GetMemory c) v) as [w3 c3]. cbn [fst snd].
    destruct HP as (H1 & H2 & H3 & H4 & H5 & H6 & H7 & H8 & H9 & H10).
    split; [reflexivity |]. do 7 (split; [assumption |]). intros _. repeat split; assumption.
  - pose proof (InitializeAs_spec w c (Some s) None Hc Hw) as HI.
    destruct (InitializeAs w c (Some s) None) as [w1 c1].
    destruct HI as (Hc1 & Hw1 & _ & _ & _ & Hs1 & _).
    destruct (Htail w1 c1 Hc1 Hw1 Hs1) as (p & <- & ->). pose proof (Hpost w1 c1 Hc1 Hw1 Hs1) as HP.
    destruct (Store w1 c1 (GetMemory c1) v) as [w3 c3]. cbn [fst snd].
    destruct HP as (H1 & H2 & H3 & H4 & H5 & H6 & H7 & H8 & H9 & H10).
    split; [reflexivity |]. do 7 (split; [assumption |]).
    intros Hs. rewrite Hs, ptr_eqb_refl in E. discriminate.
Qed.

Lemma saved_payload_some (w : World) (c : FVariadicStruct) (v : list Z) :
  Deref w c (GetMemory c) = Some v -> saved_payload w c = payload_bytes v.
Proof.
  intros Hd. unfold saved_payload, GetMutableMemory.
  destruct (GetMemory c) eqn:Hm; [discriminate Hd | |]; now rewrite Hd.
Qed.

(** Extra: loading (no defaults) a record whose type reference resolves
    to [s] into any reachable container leaves it reachable, typed [s] and
    holding the stored payload; the payload is read by the type's layout,
    whatever size [L] the record states, so exactly [8 + 4 n] bytes are
    consumed; and a container that already held [s] is overwritten in
    place, with no allocation and no call into the reflection layer. *)
Theorem SerializeLoad_into_container (w : World) (c : FVariadicStruct) (ar : FArchive)
    (pre rest : list Z) (idx L : Z) (s : UScriptStruct) (v : list Z) :
  ContainerWF w c -> WorldWF w ->
  int32_range idx -> int32_range L -> Forall int32_range v ->
  length v = length (DefaultValue s) ->
  ResolveIndex (ArLinker ar) idx = Some s ->
  ArBytes ar = pre ++ int32_bytes idx ++ int32_bytes L ++ payload_bytes v ++ rest ->
  ArPos ar = Z.of_nat (length pre) ->
  let '(ok, w', c', ar') := SerializeLoad w c None ar in
  ok = true /\ ScriptStruct c' = Some s /\ Deref w' c' (GetMemory c') = Some v /\
  ContainerWF w' c' /\ WorldWF w' /\
  ArPos ar' = ArPos ar + 8 + 4 * Z.of_nat (length v) /\
  ArBytes ar' = ArBytes ar /\ ArLinker ar' = ArLinker ar /\
  (ScriptStruct c = Some s ->
     HeapBlock c' = HeapBlock c /\ NextAddr w' = NextAddr w /\ Events w' = Events w).
Proof. exact (SerializeLoad_record w c ar pre rest idx L s v). Qed.

Lemma int32_range_small (x : Z) : 0 <= x < 256 -> int32_range x.
Proof. unfold int32_range. lia. Qed.

Lemma SerializeLoad_into_container_witness :
  let ar := ExampleArchive (int32_bytes 1 ++ int32_bytes 8 ++ payload_bytes [5; 6]) 0 in
  ContainerWF PlaneWorld PlaneVariadic /\ WorldWF PlaneWorld /\
  int32_range 1 /\ int32_range 8 /\ Forall int32_range [5; 6] /\
  length [5; 6] = length (DefaultValue FIntPoint) /\
  ResolveIndex (ArLinker ar) 1 = Some FIntPoint /\
  ArBytes ar = [] ++ int32_bytes 1 ++ int32_bytes 8 ++ payload_bytes [5; 6] ++ [] /\
  ArPos ar = Z.of_nat (length (@nil Z)) /\
  (let '(ok, w', c', ar') := SerializeLoad PlaneWorld PlaneVariadic None ar in
   ok = true /\ ScriptStruct c' = Some FIntPoint /\ Deref w' c' (GetMemory c') = Some [5; 6] /\
   ContainerWF w' c' /\ WorldWF w' /\
   ArPos ar' = ArPos ar + 8 + 4 * Z.of_nat (length [5; 6]) /\
   ArBytes ar' = ArBytes ar /\ ArLinker ar' = ArLinker ar /\
   (ScriptStruct PlaneVariadic = Some FIntPoint ->
      HeapBlock c' = HeapBlock PlaneVariadic /\ NextAddr w' = NextAddr PlaneWorld /\
      Events w' = Events PlaneWorld)).
Proof.
  intros ar.
  assert (H1 : int32_range 1) by (apply int32_range_small; lia).
  assert (H8 : int32_range 8) by (apply int32_range_small; lia).
  assert (Hv : Forall int32_range [5; 6])
    by (repeat constructor; apply int32_range_small; lia).
  split; [exact PlaneVariadic_wf |]. split; [exact PlaneWorld_wf |].
  split; [exact H1 |]. split; [exact H8 |]. split; [exact Hv |].
  split; [reflexivity |]. split; [reflexivity |]. split; [reflexivity |]. split; [reflexivity |].
  exact (SerializeLoad_into_container PlaneWorld PlaneVariadic ar [] [] 1 8 FIntPoint [5; 6]
           PlaneVariadic_wf PlaneWorld_wf H1 H8 Hv eq_refl eq_refl eq_refl eq_refl).
Defined.

(** Extra: what [Serialize] saves (no defaults, at the end of the archive)
    from a container holding [s], [Serialize] loads back, from the same
    offset, into any reachable container: the same type and payload, and
    the load stops where the save stopped.  Saving changes neither the
    container nor the world. *)
Theorem Serialize_save_load_roundtrip (w : World) (c : FVariadicStruct) (ar : FArchive)
    (s : UScriptStruct) (v : list Z) (w0 : World) (c0 : FVariadicStruct) :
  ScriptStruct c = Some s -> Deref w c (GetMemory c) = Some v ->
  Forall int32_range v -> length v = length (DefaultValue s) ->
  int32_range (IndexOf (ArLinker ar) (Some s)) ->
  ResolveIndex (ArLinker ar) (IndexOf (ArLinker ar) (Some s)) = Some s ->
  int32_range (4 * Z.of_nat (length v)) ->
  ArPos ar = Z.of_nat (length (ArBytes ar)) ->
  ContainerWF w0 c0 -> WorldWF w0 ->
  let '(ok, w1, c1, ar1) := SerializeSave w c None ar in
  let '(ok', w0', c0', ar2) := SerializeLoad w0 c0 None (Seek ar1 (ArPos ar)) in
  ok = true /\ w1 = w /\ c1 = c /\
  ok' = true /\ ScriptStruct c0' = Some s /\ Deref w0' c0' (GetMemory c0') = Some v /\
  ContainerWF w0' c0' /\ ArPos ar2 = ArPos ar1.
Proof.
  intros Hs Hd Hv Hlen Hi Hres HL Hp Hc0 Hw0.
  pose proof (SerializeSave_bytes w c ar Hp) as HS. cbv zeta in HS.
  rewrite (saved_payload_some w c v Hd), length_payload_bytes, Hs in HS.
  destruct (SerializeSave w c None ar) as [[[ok w1] c1] ar1].
  destruct HS as (-> & -> & -> & Hb1 & Hp1 & Hl1).
  replace (Z.of_nat (4 * length v)) with (4 * Z.of_nat (length v)) in Hb1, Hp1 by lia.
  assert (Hb : ArBytes (Seek ar1 (ArPos ar)) =
               ArBytes ar ++ int32_bytes (IndexOf (ArLinker ar) (Some s))
               ++ int32_bytes (4 * Z.of_nat (length v)) ++ payload_bytes v ++ [])
    by (cbn; now rewrite Hb1, app_nil_r).
  assert (Hres' : ResolveIndex (ArLinker (Seek ar1 (ArPos ar))) (IndexOf (ArLinker ar) (Some s)) = Some s)
    by (cbn; now rewrite Hl1).
  pose proof (SerializeLoad_record w0 c0 (Seek ar1 (ArPos ar)) (ArBytes ar) [] _ _ s v
                Hc0 Hw0 Hi HL Hv Hlen Hres' Hb Hp) as HL2.
  destruct (SerializeLoad w0 c0 None (Seek ar1 (ArPos ar))) as [[[ok' w0'] c0'] ar2].
  destruct HL2 as (-> & H2 & H3 & H4 & _ & H6 & _).
  split; [reflexivity |]. split; [reflexivity |]. split; [reflexivity |]. split; [reflexivity |].
  split; [exact H2 |]. split; [exact H3 |]. split; [exact H4 |].
  rewrite H6, Hp1. cbn. lia.
Qed.

Lemma Serialize_save_load_roundtrip_witness :
  let ar := ExampleArchive [] 0 in
  ScriptStruct VectorVariadic = Some FVector /\
  Deref EmptyWorld VectorVariadic (GetMemory VectorVariadic) = Some [1; 2; 3] /\
  Forall int32_range [1; 2; 3] /\ length [1; 2; 3] = length (DefaultValue FVector) /\
  int32_range (IndexOf (ArLinker ar) (Some FVector)) /\
  ResolveIndex (ArLinker ar) (IndexOf (ArLinker ar) (Some FVector)) = Some FVector /\
  int32_range (4 * Z.of_nat (length [1; 2; 3])) /\
  ArPos ar = Z.of_nat (length (ArBytes ar)) /\
  ContainerWF PlaneWorld PlaneVariadic /\ WorldWF PlaneWorld /\
  (let '(ok, w1, c1, ar1) := SerializeSave EmptyWorld VectorVariadic None ar in
   let '(ok', w0', c0', ar2) := SerializeLoad PlaneWorld PlaneVariadic None (Seek ar1 (ArPos ar)) in
   ok = true /\ w1 = EmptyWorld /\ c1 = VectorVariadic /\
   ok' = true /\ ScriptStruct c0' = Some FVector /\ Deref w0' c0' (GetMemory c0') = Some [1; 2; 3] /\
   ContainerWF w0' c0' /\ ArPos ar2 = ArPos ar1).
Proof.
  intros ar.
  assert (Hv : Forall int32_range [1; 2; 3])
    by (repeat constructor; apply int32_range_small; lia).
  assert (Hi : int32_range (IndexOf (ArLinker ar) (Some FVector))) by (apply int32_range_small; cbn; lia).
  assert (HL : int32_range (4 * Z.of_nat (length [1; 2; 3]))) by (apply int32_range_small; cbn; lia).
  split; [reflexivity |]. split; [reflexivity |]. split; [exact Hv |]. split; [reflexivity |].
  split; [exact Hi |]. split; [reflexivity |]. split; [exact HL |]. split; [reflexivity |].
  split; [exact PlaneVariadic_wf |]. split; [exact PlaneWorld_wf |].
  exact (Serialize_save_load_roundtrip EmptyWorld VectorVariadic ar FVector [1; 2; 3]
           PlaneWorld PlaneVariadic eq_refl eq_refl Hv eq_refl Hi eq_refl HL eq_refl
           PlaneVariadic_wf PlaneWorld_wf).
Defined.

(** The type step of the loaders: [InitializeAs] only when the type
    changes. *)
Lemma load_type_step (w : World) (c : FVariadicStruct) (s : UScriptStruct) :
  ContainerWF w c -> WorldWF w ->
  exists w1 c1,
    (if negb (ptr_eqb (ScriptStruct c) (Some s)) then InitializeAs w c (Some s) None else (w, c))
      = (w1, c1) /\
    ContainerWF w1 c1 /\ WorldWF w1 /\ ScriptStruct c1 = Some s /\
    (ScriptStruct c = Some s -> w1 = w /\ c1 = c).
Proof.
  intros Hc Hw. destruct (ptr_eqb (ScriptStruct c) (Some s)) eqn:E; cbn [negb].
  - apply ptr_eqb_true in E. exists w, c. repeat split; auto.
  - pose proof (InitializeAs_spec w c (Some s) None Hc Hw) as HI.
    destruct (InitializeAs w c (Some s) None) as [w1 c1].
    destruct HI as (Hc1 & Hw1 & _ & _ & _ & Hs1 & _).
    exists w1, c1. split; [reflexivity |]. do 3 (split; [assumption |]).
    intros Hs. rewrite Hs, ptr_eqb_refl in E. discriminate.
Qed.

(** Extra: [SerializeFromMismatchedTag] reads a property saved as an
    [FInstancedStruct] (current version, binary archive) with exactly the
    frame [Serialize] writes: the type reference, the size, the payload;
    the container ends up reachable, typed [s] and holding the payload, and
    [8 + 4 n] bytes are consumed. *)
Theorem SerializeFromMismatchedTag_reads_frame (w : World) (c : FVariadicStruct) (ar : FArchive)
    (pre rest : list Z) (idx L : Z) (s : UScriptStruct) (v : list Z) :
  ContainerWF w c -> WorldWF w ->
  ArInstancedStructVer ar = 0 -> ArIsTextFormat ar = false ->
  int32_range idx -> int32_range L -> Forall int32_range v ->
  length v = length (DefaultValue s) ->
  ResolveIndex (ArLinker ar) idx = Some s ->
  ArBytes ar = pre ++ int32_bytes idx ++ int32_bytes L ++ payload_bytes v ++ rest ->
  ArPos ar = Z.of_nat (length pre) ->
  let '(ok, w', c', ar') := SerializeFromMismatchedTag w c true ar in
  ok = true /\ ScriptStruct c' = Some s /\ Deref w' c' (GetMemory c') = Some v /\
  ContainerWF w' c' /\ WorldWF w' /\ ArPos ar' = ArPos ar + 8 + 4 * Z.of_nat (length v).
Proof.
  intros Hc Hw Hver Htext Hi HL Hv Hlen Hres Hb Hp.
  unfold SerializeFromMismatchedTag. rewrite Hver, Htext.
  change (0 =? 0) with true. change (0 <? 0) with false. cbv beta iota. cbn [negb].
  rewrite (ReadStructRef_at ar pre _ idx Hi Hb Hp), Hres.
  set (ar1 := with_pos_bytes ar (ArBytes ar) (ArPos ar + 4) (ArRead (ArPos ar) 4)).
  cbv beta iota.
  destruct (load_type_step w c s Hc Hw) as (w1 & c1 & -> & Hc1 & Hw1 & Hs1 & _).
  assert (Hb1 : ArBytes ar1 = (pre ++ int32_bytes idx) ++ int32_bytes L ++ payload_bytes v ++ rest)
    by (unfold ar1, with_pos_bytes; cbn [ArBytes]; rewrite Hb; now rewrite <- app_assoc).
  assert (Hp1 : ArPos ar1 = Z.of_nat (length (pre ++ int32_bytes idx)))
    by (unfold ar1, with_pos_bytes; cbn [ArPos]; rewrite Hp, length_app, length_int32_bytes; lia).
  rewrite (ReadInt32_at ar1 _ _ L HL Hb1 Hp1).
  set (ar2 := with_pos_bytes ar1 (ArBytes ar1) (ArPos ar1 + 4) (ArRead (ArPos ar1) 4)).
  cbv beta iota.
  replace (IsValid c1) with true by (unfold IsValid; now rewrite Hs1). cbn [negb andb].
  assert (Hb2 : ArBytes ar2 = (pre ++ int32_bytes idx ++ int32_bytes L) ++ payload_bytes v ++ rest)
    by (unfold ar2, with_pos_bytes; cbn [ArBytes]; rewrite Hb1; now rewrite <- !app_assoc).
  assert (Hp2 : ArPos ar2 = Z.of_nat (length (pre ++ int32_bytes idx ++ int32_bytes L)))
    by (unfold ar2, with_pos_bytes; cbn [ArPos]; rewrite Hp1, !length_app, !length_int32_bytes; lia).
  destruct (ReadInt32s_at v ar2 _ rest Hv Hb2 Hp2) as (R1 & _ & R3 & _).
  pose proof (Store_at_memory w1 c1 s v Hc1 Hw1 Hs1) as HS.
  destruct (GetMemory_wf_nonnull w1 c1 s Hc1 Hs1) as [Hnn _].
  rewrite Hs1. unfold GetMutableMemory.
  destruct (GetMemory c1) eqn:Hm; [contradiction | |];
    unfold SerializeItemLoad; rewrite <- Hlen;
    destruct (ReadInt32s ar2 (length v)) as [vals ar3]; cbn [fst snd] in R1, R3; subst vals;
    destruct (Store w1 c1 _ v) as [w3 c3];
    destruct HS as (H1 & H2 & H3 & H4 & _);
    (split; [reflexivity |]); (split; [exact H1 |]); (split; [exact H2 |]);
    (split; [exact H3 |]); (split; [exact H4 |]);
    rewrite R3, Hp2, Hp, !length_app, !length_int32_bytes; lia.
Qed.

Lemma SerializeFromMismatchedTag_reads_frame_witness :
  let ar := MkArchive (int32_bytes 2 ++ int32_bytes 12 ++ payload_bytes [7; 8; 9]) 0 []
              ExampleLinker 0 false in
  ContainerWF PlaneWorld PlaneVariadic /\ WorldWF PlaneWorld /\
  ArInstancedStructVer ar = 0 /\ ArIsTextFormat ar = false /\
  int32_range 2 /\ int32_range 12 /\ Forall int32_range [7; 8; 9] /\
  length [7; 8; 9] = length (DefaultValue FVector) /\
  ResolveIndex (ArLinker ar) 2 = Some FVector /\
  ArBytes ar = [] ++ int32_bytes 2 ++ int32_bytes 12 ++ payload_bytes [7; 8; 9] ++ [] /\
  ArPos ar = Z.of_nat (length (@nil Z)) /\
  (let '(ok, w', c', ar') := SerializeFromMismatchedTag PlaneWorld PlaneVariadic true ar in
   ok = true /\ ScriptStruct c' = Some FVector /\ Deref w' c' (GetMemory c') = Some [7; 8; 9] /\
   ContainerWF w' c' /\ WorldWF w' /\ ArPos ar' = ArPos ar + 8 + 4 * Z.of_nat (length [7; 8; 9])).
Proof.
  intros ar.
  assert (H2 : int32_range 2) by (apply int32_range_small; lia).
  assert (H12 : int32_range 12) by (apply int32_range_small; lia).
  assert (Hv : Forall int32_range [7; 8; 9])
    by (repeat constructor; apply int32_range_small; lia).
  split; [exact PlaneVariadic_wf |]. split; [exact PlaneWorld_wf |].
  split; [reflexivity |]. split; [reflexivity |].
  split; [exact H2 |]. split; [exact H12 |]. split; [exact Hv |].
  split; [reflexivity |]. split; [reflexivity |]. split; [reflexivity |]. split; [reflexivity |].
  exact (SerializeFromMismatchedTag_reads_frame PlaneWorld PlaneVariadic ar [] [] 2 12 FVector
           [7; 8; 9] PlaneVariadic_wf PlaneWorld_wf eq_refl eq_refl H2 H12 Hv eq_refl eq_refl
           eq_refl eq_refl).
Defined.

(** Extra: saving an empty container writes only the null type reference
    and a zero size, and loading that record back (the null reference
    resolving to [nullptr]) empties any reachable container, through
    [Reset], with no warning and nothing skipped: the load stops where the
    save stopped. *)
Theorem Serialize_empty_roundtrip (w : World) (ar : FArchive) (w0 : World) (c0 : FVariadicStruct) :
  ArPos ar = Z.of_nat (length (ArBytes ar)) ->
  int32_range (IndexOf (ArLinker ar) None) ->
  ResolveIndex (ArLinker ar) (IndexOf (ArLinker ar) None) = None ->
  ContainerWF w0 c0 ->
  let '(ok, w1, c1, ar1) := SerializeSave w EmptyVariadic None ar in
  let '(ok', w0', c0', ar2) := SerializeLoad w0 c0 None (Seek ar1 (ArPos ar)) in
  ok = true /\ w1 = w /\ c1 = EmptyVariadic /\
  ArBytes ar1 = ArBytes ar ++ int32_bytes (IndexOf (ArLinker ar) None) ++ int32_bytes 0 /\
  ok' = true /\ c0' = EmptyVariadic /\ w0' = fst (Reset w0 c0) /\ ArPos ar2 = ArPos ar1.
Proof.
  intros Hp Hi Hres Hc0.
  pose proof (SerializeSave_bytes w EmptyVariadic ar Hp) as HS. cbv zeta in HS.
  change (saved_payload w EmptyVariadic) with (@nil Z) in HS. cbn [ScriptStruct length app] in HS.
  destruct (SerializeSave w EmptyVariadic None ar) as [[[ok w1] c1] ar1].
  destruct HS as (-> & -> & -> & Hb1 & Hp1 & Hl1).
  cbn [ScriptStruct EmptyVariadic] in Hb1. change (Z.of_nat 0) with 0 in Hb1, Hp1.
  rewrite app_nil_r in Hb1.
  assert (Hb : ArBytes (Seek ar1 (ArPos ar)) =
               ArBytes ar ++ int32_bytes (IndexOf (ArLinker ar) None) ++ int32_bytes 0 ++ [])
    by (unfold Seek, with_pos_bytes; cbn [ArBytes]; now rewrite Hb1, app_nil_r).
  assert (H0 : int32_range 0) by (unfold int32_range; lia).
  destruct (ReadHeader_at (Seek ar1 (ArPos ar)) (ArBytes ar) [] _ 0 Hi H0 Hb Hp)
    as (ar2 & Hrd & _ & Hp2 & Hl2).
  unfold SerializeLoad.
  destruct (ReadStructRef (Seek ar1 (ArPos ar))) as [S1 ar1'].
  destruct (ReadInt32 ar1') as [L1 ar2'].
  injection Hrd as -> -> ->.
  rewrite Hl1, Hres.
  assert (Hend : ArPos ar2 = ArPos ar1) by (rewrite Hp2, Hp1; cbn; lia).
  unfold SerializeLoadValue. cbn [orb].
  destruct (ScriptStruct c0) as [s |] eqn:Hs.
  - assert (He : ptr_eqb (Some s) None = false)
      by (unfold ptr_eqb; apply bool_decide_eq_false; discriminate).
    rewrite He. cbn [negb]. rewrite (InitializeAs_null w0 c0 s None Hs). cbv beta iota.
    change (GetMutableMemory EmptyVariadic) with PNull. change (0 >? 0) with false. cbv beta iota.
    repeat split; first [exact Hb1 | exact Hend].
  - rewrite ptr_eqb_refl. cbn [negb].
    unfold ContainerWF in Hc0. rewrite Hs in Hc0.
    destruct c0 as [sc st]. cbn [ScriptStruct Storage] in Hs, Hc0. subst sc st. cbv beta iota.
    change (GetMutableMemory EmptyVariadic) with PNull. change (0 >? 0) with false. cbv beta iota.
    repeat split; first [exact Hb1 | exact Hend].
Qed.

Lemma Serialize_empty_roundtrip_witness :
  let ar := ExampleArchive [] 0 in
  ArPos ar = Z.of_nat (length (ArBytes ar)) /\
  int32_range (IndexOf (ArLinker ar) None) /\
  ResolveIndex (ArLinker ar) (IndexOf (ArLinker ar) None) = None /\
  ContainerWF PlaneWorld PlaneVariadic /\
  (let '(ok, w1, c1, ar1) := SerializeSave EmptyWorld EmptyVariadic None ar in
   let '(ok', w0', c0', ar2) := SerializeLoad PlaneWorld PlaneVariadic None (Seek ar1 (ArPos ar)) in
   ok = true /\ w1 = EmptyWorld /\ c1 = EmptyVariadic /\
   ArBytes ar1 = ArBytes ar ++ int32_bytes (IndexOf (ArLinker ar) None) ++ int32_bytes 0 /\
   ok' = true /\ c0' = EmptyVariadic /\ w0' = fst (Reset PlaneWorld PlaneVariadic) /\
   ArPos ar2 = ArPos ar1).
Proof.
  intros ar.
  assert (Hi : int32_range (IndexOf (ArLinker ar) None)) by (apply int32_range_small; cbn; lia).
  split; [reflexivity |]. split; [exact Hi |]. split; [reflexivity |].
  split; [exact PlaneVariadic_wf |].
  exact (Serialize_empty_roundtrip EmptyWorld ar PlaneWorld PlaneVariadic eq_refl Hi eq_refl
           PlaneVariadic_wf).
Defined.

(* ------------------------------------------------------------------ *)
(** ** Text import and export *)

(** [InitializeAs(nullptr)] always resets the container. *)
Lemma InitializeAs_none (w : World) (c : FVariadicStruct) (src : option (list Z)) :
  InitializeAs w c None src = (fst (Reset w c), EmptyVariadic).
Proof.
  destruct (ScriptStruct c) as [s |] eqn:Hs; [exact (InitializeAs_null w c s src Hs) |].
  unfold InitializeAs. rewrite Hs. unfold InitializeAsNew.
  pose proof (proj1 (Reset_result w c)) as Hr.
  destruct (Reset w c) as [w1 c1]. cbn in Hr |- *. now subst c1.
Qed.

(** The path actually loaded is the redirected one. *)
Lemma redirect_name (f : String.string -> String.string) (a : String.string) :
  (if String.eqb a (f a) then a else f a) = f a.
Proof.
  destruct (String.eqb a (f a)) eqn:E; [apply String.eqb_eq in E; exact E | reflexivity].
Qed.

Lemma string_append_assoc (a b c : String.string) :
  String.append (String.append a b) c = String.append a (String.append b c).
Proof. induction a as [| x a IH]; [reflexivity |]. exact (f_equal (String.String x) IH). Qed.

Lemma TEXT_None_not_empty_marker (rest : String.string) :
  String.append TEXT_None rest <> TEXT_EmptyStruct.
Proof. unfold TEXT_None, TEXT_EmptyStruct. cbn. discriminate. Qed.

(** Extra: [ImportTextItem] reads the UHT empty marker [()] (the whole
    buffer), an empty token or a token equal to [None] up to case as the
    empty container: it resets the container and returns [true] with the
    buffer after the marker. *)
Theorem ImportTextItem_empty_markers (ops : FTextOps) (w : World) (c : FVariadicStruct)
    (Buffer rest tok : String.string) :
  (Buffer = TEXT_EmptyStruct /\ rest = String.EmptyString) \/
  (Buffer <> TEXT_EmptyStruct /\ ReadToken ops Buffer = Some (tok, rest) /\
   (tok = String.EmptyString \/ Stricmp_eq tok TEXT_None = true)) ->
  ImportTextItem ops w c Buffer = (true, fst (Reset w c), EmptyVariadic, rest).
Proof.
  intros [[-> ->] | (Hne & Hr & Htok)]; unfold ImportTextItem.
  - rewrite String.eqb_refl. change (advance 2 TEXT_EmptyStruct) with String.EmptyString.
    rewrite InitializeAs_none. reflexivity.
  - rewrite (proj2 (String.eqb_neq _ _) Hne), Hr.
    destruct Htok as [-> | Hs].
    + rewrite InitializeAs_none. reflexivity.
    + rewrite Hs, orb_true_r, InitializeAs_none. reflexivity.
Qed.

(** Extra: when no token can be read, or the (redirected) type path does not
    load, [ImportTextItem] returns [false] and leaves the world and the
    container untouched; in the second case the buffer is already past the
    token. *)
Theorem ImportTextItem_no_type_loaded (ops : FTextOps) (w : World) (c : FVariadicStruct)
    (Buffer : String.string) :
  Buffer <> TEXT_EmptyStruct ->
  (ReadToken ops Buffer = None -> ImportTextItem ops w c Buffer = (false, w, c, Buffer)) /\
  (forall tok rest, ReadToken ops Buffer = Some (tok, rest) ->
   (String.length tok =? 0)%nat = false -> Stricmp_eq tok TEXT_None = false ->
   LoadObject ops (GetRedirectedName ops tok) = None ->
   ImportTextItem ops w c Buffer = (false, w, c, rest)).
Proof.
  intros Hne. unfold ImportTextItem. rewrite (proj2 (String.eqb_neq _ _) Hne). split.
  - intros ->. reflexivity.
  - intros tok rest -> H0 H1 Hl. rewrite H0, H1. cbn [orb negb]. cbv zeta.
    rewrite redirect_name, Hl. reflexivity.
Qed.

(** Extra: when the token names a type that loads, [ImportTextItem]
    re-initialises the container as that type with its default value
    (in place if it already held it), lets the type import its value from
    the rest of the buffer, and keeps the result even when that import
    fails: the container then holds the type with whatever the import left,
    the result is [false] and the buffer stays after the token. *)
Theorem ImportTextItem_loaded_type (ops : FTextOps) (w : World) (c : FVariadicStruct)
    (Buffer tok rest : String.string) (T : UScriptStruct) :
  ContainerWF w c -> WorldWF w ->
  Buffer <> TEXT_EmptyStruct -> ReadToken ops Buffer = Some (tok, rest) ->
  (String.length tok =? 0)%nat = false -> Stricmp_eq tok TEXT_None = false ->
  LoadObject ops (GetRedirectedName ops tok) = Some T ->
  let '(b, w', c', buf) := ImportTextItem ops w c Buffer in
  ScriptStruct c' = Some T /\
  Deref w' c' (GetMemory c') = Some (fst (ImportText ops T (DefaultValue T) rest)) /\
  ContainerWF w' c' /\ WorldWF w' /\
  match snd (ImportText ops T (DefaultValue T) rest) with
  | Some r => b = true /\ buf = r
  | None => b = false /\ buf = rest
  end.
Proof.
  intros Hc Hw Hne Hr H0 H1 Hl. unfold ImportTextItem.
  rewrite (proj2 (String.eqb_neq _ _) Hne), Hr, H0, H1. cbn [orb negb]. cbv zeta.
  rewrite redirect_name, Hl.
  pose proof (InitializeAs_spec w c (Some T) None Hc Hw) as Hi.
  destruct (InitializeAs w c (Some T) None) as [w1 c1].
  destruct Hi as (Hc1 & Hw1 & _ & _ & _ & Hs1 & Hd1).
  unfold ValueAt, GetMutableMemory. rewrite Hd1.
  destruct (ImportText ops T (DefaultValue T) rest) as [v res].
  pose proof (Store_at_memory w1 c1 T v Hc1 Hw1 Hs1) as Hst.
  destruct (Store w1 c1 (GetMemory c1) v) as [w2 c2].
  destruct Hst as (Hs2 & Hd2 & Hc2 & Hw2 & _).
  destruct res as [r |]; cbn [fst snd]; repeat split; assumption.
Qed.

(** Extra: exporting a typed container and importing the text into any
    reachable container gives back the type and the value and consumes
    exactly the exported text, provided the engine's token reader reads the
    path back, the path loads the type and the type's text import reads
    back what its export wrote. *)
Theorem ExportImportText_roundtrip (ops : FTextOps) (w : World) (c : FVariadicStruct)
    (s : UScriptStruct) (v : list Z) (w0 : World) (c0 : FVariadicStruct)
    (rest : String.string) :
  ScriptStruct c = Some s -> Deref w c (GetMemory c) = Some v ->
  ContainerWF w0 c0 -> WorldWF w0 ->
  String.append (GetPathName ops s) (String.append (ExportText ops s v v) rest) <> TEXT_EmptyStruct ->
  ReadToken ops (String.append (GetPathName ops s) (String.append (ExportText ops s v v) rest)) =
    Some (GetPathName ops s, String.append (ExportText ops s v v) rest) ->
  (String.length (GetPathName ops s) =? 0)%nat = false ->
  Stricmp_eq (GetPathName ops s) TEXT_None = false ->
  LoadObject ops (GetRedirectedName ops (GetPathName ops s)) = Some s ->
  ImportText ops s (DefaultValue s) (String.append (ExportText ops s v v) rest) = (v, Some rest) ->
  ExportTextItem ops w c String.EmptyString =
    (true, String.append (GetPathName ops s) (ExportText ops s v v)) /\
  let '(b, w', c', buf) :=
    ImportTextItem ops w0 c0 (String.append (snd (ExportTextItem ops w c String.EmptyString)) rest) in
  b = true /\ buf = rest /\ ScriptStruct c' = Some s /\
  Deref w' c' (GetMemory c') = Some v /\ ContainerWF w' c' /\ WorldWF w'.
Proof.
  intros Hs Hd Hc0 Hw0 Hne Hr H0 H1 Hl Hi.
  assert (He : ExportTextItem ops w c String.EmptyString =
               (true, String.append (GetPathName ops s) (ExportText ops s v v))).
  { unfold ExportTextItem, ValueAt. rewrite Hs.
    destruct (GetMemory c) as [| |n] eqn:Hm; [discriminate Hd | rewrite Hd; reflexivity ..]. }
  split; [exact He |]. rewrite He. cbn [snd]. rewrite string_append_assoc.
  pose proof (ImportTextItem_loaded_type ops w0 c0 _ _ _ s Hc0 Hw0 Hne Hr H0 H1 Hl) as Hm.
  destruct (ImportTextItem ops w0 c0 _) as [[[b w'] c'] buf].
  rewrite Hi in Hm. cbn [fst snd] in Hm.
  destruct Hm as (Hs' & Hd' & Hc' & Hw' & -> & ->). repeat split; assumption.
Qed.

(** Extra: an empty container exports as [None], and importing that text
    into any container resets it, provided the token reader reads [None]
    back. *)
Theorem ExportImportText_empty_roundtrip (ops : FTextOps) (w : World) (c : FVariadicStruct)
    (w0 : World) (c0 : FVariadicStruct) (rest : String.string) :
  ContainerWF w c -> IsValid c = false ->
  ReadToken ops (String.append TEXT_None rest) = Some (TEXT_None, rest) ->
  ExportTextItem ops w c String.EmptyString = (true, TEXT_None) /\
  ImportTextItem ops w0 c0 (String.append (snd (ExportTextItem ops w c String.EmptyString)) rest) =
    (true, fst (Reset w0 c0), EmptyVariadic, rest).
Proof.
  intros Hc Hv Hr.
  assert (He : ExportTextItem ops w c String.EmptyString = (true, TEXT_None)).
  { unfold IsValid, ContainerWF in *. unfold ExportTextItem, GetMemory.
    destruct (ScriptStruct c); [discriminate Hv |].
    unfold StructMemory. rewrite Hc. reflexivity. }
  split; [exact He |]. rewrite He. cbn [snd].
  apply ImportTextItem_empty_markers with (tok := TEXT_None). right.
  split; [apply TEXT_None_not_empty_marker |]. split; [exact Hr | right; reflexivity].
Qed.

Lemma ImportTextItem_empty_markers_witness :
  ImportTextItem ExampleTextOps PlaneWorld PlaneVariadic Text_lower_none =
    (true, fst (Reset PlaneWorld PlaneVariadic), EmptyVariadic, snd (read_token Text_lower_none)).
Proof.
  apply (ImportTextItem_empty_markers ExampleTextOps PlaneWorld PlaneVariadic Text_lower_none
           (snd (read_token Text_lower_none)) (fst (read_token Text_lower_none))).
  right. split; [intro H; vm_compute in H; discriminate H |].
  split; [vm_compute; reflexivity | right; vm_compute; reflexivity].
Defined.

Lemma ImportTextItem_no_type_loaded_witness :
  ImportTextItem ExampleTextOps PlaneWorld PlaneVariadic String.EmptyString =
    (false, PlaneWorld, PlaneVariadic, String.EmptyString) /\
  ImportTextItem ExampleTextOps PlaneWorld PlaneVariadic Text_unknown =
    (false, PlaneWorld, PlaneVariadic, snd (read_token Text_unknown)).
Proof.
  split.
  - apply (proj1 (ImportTextItem_no_type_loaded ExampleTextOps PlaneWorld PlaneVariadic
                    String.EmptyString (fun H => ltac:(vm_compute in H; discriminate H)))).
    reflexivity.
  - apply (proj2 (ImportTextItem_no_type_loaded ExampleTextOps PlaneWorld PlaneVariadic
                    Text_unknown (fun H => ltac:(vm_compute in H; discriminate H)))
             (fst (read_token Text_unknown)));
      vm_compute; reflexivity.
Defined.

Lemma ImportTextItem_loaded_type_witness :
  let '(b, w', c', buf) := ImportTextItem ExampleTextOps PlaneWorld PlaneVariadic Text_Plane_bad in
  ScriptStruct c' = Some FPlane /\
  Deref w' c' (GetMemory c') =
    Some (fst (ImportText ExampleTextOps FPlane (DefaultValue FPlane) (snd (read_token Text_Plane_bad)))) /\
  ContainerWF w' c' /\ WorldWF w' /\
  match snd (ImportText ExampleTextOps FPlane (DefaultValue FPlane) (snd (read_token Text_Plane_bad))) with
  | Some r => b = true /\ buf = r
  | None => b = false /\ buf = snd (read_token Text_Plane_bad)
  end.
Proof.
  apply (ImportTextItem_loaded_type ExampleTextOps PlaneWorld PlaneVariadic Text_Plane_bad
           (fst (read_token Text_Plane_bad)) (snd (read_token Text_Plane_bad)) FPlane
           PlaneVariadic_wf PlaneWorld_wf);
    [intro H; vm_compute in H; discriminate H | vm_compute; reflexivity ..].
Defined.

Lemma ExportImportText_roundtrip_witness :
  ExportTextItem ExampleTextOps PlaneWorld VectorVariadic String.EmptyString =
    (true, String.append (ExamplePath FVector) (ExportText ExampleTextOps FVector [1; 2; 3] [1; 2; 3])) /\
  let '(b, w', c', buf) :=
    ImportTextItem ExampleTextOps PlaneWorld PlaneVariadic
      (String.append (snd (ExportTextItem ExampleTextOps PlaneWorld VectorVariadic String.EmptyString))
         String.EmptyString) in
  b = true /\ buf = String.EmptyString /\ ScriptStruct c' = Some FVector /\
  Deref w' c' (GetMemory c') = Some [1; 2; 3] /\ ContainerWF w' c' /\ WorldWF w'.
Proof.
  apply (ExportImportText_roundtrip ExampleTextOps PlaneWorld VectorVariadic FVector [1; 2; 3]
           PlaneWorld PlaneVariadic String.EmptyString);
    [reflexivity | reflexivity | exact PlaneVariadic_wf | exact PlaneWorld_wf
    | intro H; vm_compute in H; discriminate H | vm_compute; reflexivity ..].
Defined.

Lemma ExportImportText_empty_roundtrip_witness :
  ExportTextItem ExampleTextOps EmptyWorld EmptyVariadic String.EmptyString = (true, TEXT_None) /\
  ImportTextItem ExampleTextOps PlaneWorld PlaneVariadic
    (String.append (snd (ExportTextItem ExampleTextOps EmptyWorld EmptyVariadic String.EmptyString))
       (snd (read_token Text_lower_none))) =
    (true, fst (Reset PlaneWorld PlaneVariadic), EmptyVariadic, snd (read_token Text_lower_none)).
Proof.
  apply (ExportImportText_empty_roundtrip ExampleTextOps EmptyWorld EmptyVariadic PlaneWorld PlaneVariadic
           (snd (read_token Text_lower_none)) (EmptyVariadic_wf EmptyWorld));
    vm_compute; reflexivity.
Defined.

(* ------------------------------------------------------------------ *)
(** ** Network serialization *)

(** A reachable container without a type is the empty one, and resetting
    it does nothing. *)
Lemma untyped_wf (w : World) (c : FVariadicStruct) :
  ContainerWF w c -> ScriptStruct c = None -> c = EmptyVariadic /\ Reset w c = (w, EmptyVariadic).
Proof.
  destruct c as [sc st]. unfold ContainerWF. cbn [ScriptStruct Storage]. intros Hc ->. subst st.
  split; reflexivity.
Qed.

(** Loading the value of a typed reachable container. *)
Lemma NetSerializeValueLoad_typed (ops : FNetOps) (w : World) (c : FVariadicStruct)
    (s : UScriptStruct) (ar : FNetArchive) (ok : bool) :
  ContainerWF w c -> WorldWF w -> ScriptStruct c = Some s ->
  let '(v, ar1, ok1) := NetReadValue ops s (ValueAt w c (GetMemory c)) ar ok in
  let '(w', c', ar', ok') := NetSerializeValueLoad ops w c ar ok in
  ar' = ar1 /\ ok' = ok1 /\ ScriptStruct c' = Some s /\ Deref w' c' (GetMemory c') = Some v /\
  ContainerWF w' c' /\ WorldWF w' /\ HeapBlock c' = HeapBlock c /\
  NextAddr w' = NextAddr w /\ Events w' = Events w.
Proof.
  intros Hc Hw Hs. unfold NetSerializeValueLoad, GetMutableMemory. rewrite Hs.
  destruct (GetMemory_wf_nonnull w c s Hc Hs) as [Hnn _].
  pose proof (fun v => Store_at_memory w c s v Hc Hw Hs) as Hst. revert Hst Hnn.
  destruct (GetMemory c) as [| |n]; intros Hst Hnn; [congruence | |];
    destruct (NetReadValue ops s _ ar ok) as [[v a1] o1]; specialize (Hst v);
    destruct (Store w c _ v) as [w1 c1]; destruct Hst as (? & ? & ? & ? & ? & ? & ?);
    repeat split; assumption.
Qed.

(** Saving the value of a typed reachable container. *)
Lemma NetSerializeValueSave_typed (ops : FNetOps) (w : World) (c : FVariadicStruct)
    (s : UScriptStruct) (v : list Z) (ar : FNetArchive) (ok : bool) :
  ScriptStruct c = Some s -> Deref w c (GetMemory c) = Some v ->
  NetSerializeValueSave ops w c ar ok = NetWriteValue ops s v ar ok.
Proof.
  intros Hs Hd. unfold NetSerializeValueSave, GetMutableMemory, ValueAt. rewrite Hs.
  destruct (GetMemory c); [discriminate Hd | rewrite Hd; reflexivity ..].
Qed.

(** Extra: when the validity bit reads as zero, including on a truncated
    archive or one already in error, [NetSerialize] resets the container,
    returns [true] and leaves [bOutSuccess] alone. *)
Theorem NetSerializeLoad_invalid_resets (ops : FNetOps) (w : World) (c : FVariadicStruct)
    (ar : FNetArchive) (ok : bool) :
  NetIsError ar = true \/ NetBits ar = [] \/ (exists r, NetBits ar = false :: r) ->
  NetSerializeLoad ops w c ar ok = (true, fst (Reset w c), EmptyVariadic, snd (NetReadBit ar), ok).
Proof.
  intros H. unfold NetSerializeLoad.
  assert (Hb : fst (NetReadBit ar) = false).
  { unfold NetReadBit. destruct (NetIsError ar); [reflexivity |].
    destruct H as [H | [H | [r H]]]; [discriminate H | rewrite H; reflexivity ..]. }
  destruct (NetReadBit ar) as [b ar1]. cbn [fst snd] in Hb |- *. subst b. cbn [negb].
  pose proof (proj1 (Reset_result w c)) as Hr. destruct (Reset w c) as [w1 c1].
  cbn in Hr |- *. now subst c1.
Qed.

(** Extra: when the validity bit is set but the type reference does not
    resolve, [NetSerialize] leaves the container empty, sets the archive's
    error and [bOutSuccess] to [false], and reads no value: the archive is
    left just after the reference. *)
Theorem NetSerializeLoad_unresolved_type (ops : FNetOps) (w : World) (c : FVariadicStruct)
    (ar ar1 ar2 : FNetArchive) (ok : bool) :
  ContainerWF w c ->
  NetReadBit ar = (true, ar1) -> NetReadObject ops ar1 = (None, ar2) ->
  NetSerializeLoad ops w c ar ok = (true, fst (Reset w c), EmptyVariadic, NetSetError ar2, false).
Proof.
  intros Hc Hb Ho. unfold NetSerializeLoad. rewrite Hb. cbn [negb]. rewrite Ho.
  destruct (ScriptStruct c) as [s |] eqn:Hs.
  - assert (He : ptr_eqb (Some s) None = false)
      by (unfold ptr_eqb; apply bool_decide_eq_false; discriminate).
    rewrite He. cbn [negb]. rewrite InitializeAs_none. reflexivity.
  - destruct (untyped_wf w c Hc Hs) as [-> Hr]. rewrite Hr. reflexivity.
Qed.

(** Extra: when the validity bit is set and the reference resolves to the
    type the container already holds, [NetSerialize] keeps the container's
    storage (no re-initialisation: same heap block, no allocation, no
    event) and hands the current value to the type's net serializer, whose
    result it stores. *)
Theorem NetSerializeLoad_same_type_in_place (ops : FNetOps) (w : World) (c : FVariadicStruct)
    (s : UScriptStruct) (ar ar1 ar2 : FNetArchive) (ok : bool) :
  ContainerWF w c -> WorldWF w -> ScriptStruct c = Some s ->
  NetReadBit ar = (true, ar1) -> NetReadObject ops ar1 = (Some s, ar2) ->
  let '(v, ar3, ok3) := NetReadValue ops s (ValueAt w c (GetMemory c)) ar2 ok in
  let '(b, w', c', ar', ok') := NetSerializeLoad ops w c ar ok in
  b = true /\ ar' = ar3 /\ ok' = ok3 /\ ScriptStruct c' = Some s /\
  Deref w' c' (GetMemory c') = Some v /\ ContainerWF w' c' /\ WorldWF w' /\
  HeapBlock c' = HeapBlock c /\ NextAddr w' = NextAddr w /\ Events w' = Events w.
Proof.
  intros Hc Hw Hs Hb Ho. unfold NetSerializeLoad. rewrite Hb. cbn [negb]. rewrite Ho, Hs.
  unfold ptr_eqb. rewrite bool_decide_eq_true_2 by reflexivity. cbn [negb]. rewrite Hs.
  pose proof (NetSerializeValueLoad_typed ops w c s ar2 ok Hc Hw Hs) as H.
  destruct (NetReadValue ops s _ ar2 ok) as [[v a3] o3].
  destruct (NetSerializeValueLoad ops w c ar2 ok) as [[[w' c'] a'] o'].
  destruct H as (-> & -> & H). split; [reflexivity | split; [reflexivity | split; [reflexivity | exact H]]].
Qed.

(** Extra: sending a reachable container with [NetSerialize] and receiving
    the bits into any reachable container gives back its type and value,
    consumes exactly the bits sent and keeps [bOutSuccess], provided the
    package map and the type's net serializer read back what they wrote. *)
Theorem NetSerialize_roundtrip (ops : FNetOps) (w : World) (c : FVariadicStruct)
    (w0 : World) (c0 : FVariadicStruct) (rest : list bool) (ok : bool) :
  (forall s, ScriptStruct c = Some s -> exists wb,
     NetWriteObject ops (Some s) (MkNetArchive [true] false) = MkNetArchive ([true] ++ wb) false /\
     forall r, NetReadObject ops (MkNetArchive (wb ++ r) false) = (Some s, MkNetArchive r false)) ->
  (forall s v bits, ScriptStruct c = Some s -> Deref w c (GetMemory c) = Some v -> exists wb,
     NetWriteValue ops s v (MkNetArchive bits false) true = (MkNetArchive (bits ++ wb) false, true) /\
     forall old r, NetReadValue ops s old (MkNetArchive (wb ++ r) false) ok =
                   (v, MkNetArchive r false, ok)) ->
  ContainerWF w c -> ContainerWF w0 c0 -> WorldWF w0 ->
  let '(b, arS, okS) := NetSerializeSave ops w c (MkNetArchive [] false) true in
  b = true /\ okS = true /\ NetIsError arS = false /\
  let '(b', w', c', arL, ok') :=
    NetSerializeLoad ops w0 c0 (MkNetArchive (NetBits arS ++ rest) false) ok in
  b' = true /\ arL = MkNetArchive rest false /\ ok' = ok /\
  ScriptStruct c' = ScriptStruct c /\ Deref w' c' (GetMemory c') = Deref w c (GetMemory c) /\
  ContainerWF w' c' /\ WorldWF w'.
Proof.
  intros Hobj Hval Hc Hc0 Hw0. unfold NetSerializeSave, IsValid.
  revert Hobj Hval. destruct (ScriptStruct c) as [s |] eqn:Hs; intros Hobj Hval.
  - destruct (GetMemory_wf_nonnull w c s Hc Hs) as [_ [v Hd]].
    cbv beta iota delta [negb].
    destruct (Hobj s eq_refl) as (wb & Hw1 & Hr1).
    unfold NetWriteBit. cbn [NetBits NetIsError app]. rewrite Hw1.
    rewrite (NetSerializeValueSave_typed ops w c s v _ true Hs Hd).
    destruct (Hval s v ([true] ++ wb) eq_refl Hd) as (wv & Hwv & Hrv). rewrite Hwv.
    split; [reflexivity | split; [reflexivity | split; [reflexivity |]]].
    cbn [NetBits]. rewrite <- !app_assoc. cbn [app].
    unfold NetSerializeLoad. unfold NetReadBit at 1. cbn [NetIsError NetBits].
    cbn [negb]. rewrite Hr1.
    assert (Hi : exists w2 c2,
      (if negb (ptr_eqb (ScriptStruct c0) (Some s)) then InitializeAs w0 c0 (Some s) None
       else (w0, c0)) = (w2, c2) /\ ContainerWF w2 c2 /\ WorldWF w2 /\ ScriptStruct c2 = Some s).
    { destruct (negb (ptr_eqb (ScriptStruct c0) (Some s))) eqn:Heq.
      - pose proof (InitializeAs_spec w0 c0 (Some s) None Hc0 Hw0) as Hi.
        destruct (InitializeAs w0 c0 (Some s) None) as [w2 c2].
        destruct Hi as (? & ? & _ & _ & _ & ? & _). exists w2, c2. repeat split; assumption.
      - exists w0, c0. apply negb_false_iff in Heq. unfold ptr_eqb in Heq.
        apply bool_decide_eq_true_1 in Heq. repeat split; assumption. }
    destruct Hi as (w2 & c2 & -> & Hc2 & Hw2 & Hs2). rewrite Hs2.
    pose proof (NetSerializeValueLoad_typed ops w2 c2 s (MkNetArchive (wv ++ rest) false) ok
                  Hc2 Hw2 Hs2) as H.
    rewrite Hrv in H.
    destruct (NetSerializeValueLoad ops w2 c2 _ ok) as [[[w' c'] a'] o'].
    destruct H as (-> & -> & Hs' & Hd' & Hc' & Hw' & _).
    rewrite Hs', Hd', Hd. repeat split; assumption.
  - destruct (untyped_wf w c Hc Hs) as [-> _]. cbv beta iota delta [negb].
    split; [reflexivity | split; [reflexivity | split; [reflexivity |]]].
    unfold NetSerializeLoad, NetReadBit, NetWriteBit. cbn [NetIsError NetBits app negb].
    pose proof (Reset_effect w0 c0 Hc0) as He. pose proof (Reset_WorldWF w0 c0 Hc0 Hw0) as HwR.
    destruct (Reset w0 c0) as [w1 c1]. destruct He as (-> & _).
    do 6 (split; [reflexivity |]). exact HwR.
Qed.

Lemma NetSerializeLoad_invalid_resets_witness :
  NetSerializeLoad ExampleNetOps PlaneWorld PlaneVariadic (MkNetArchive [] false) true =
    (true, fst (Reset PlaneWorld PlaneVariadic), EmptyVariadic,
     snd (NetReadBit (MkNetArchive [] false)), true).
Proof.
  apply (NetSerializeLoad_invalid_resets ExampleNetOps PlaneWorld PlaneVariadic
           (MkNetArchive [] false) true).
  right; left; reflexivity.
Defined.

Lemma NetSerializeLoad_unresolved_type_witness :
  NetSerializeLoad ExampleNetOps PlaneWorld PlaneVariadic
    (MkNetArchive (true :: unary 7 ++ [true]) false) true =
    (true, fst (Reset PlaneWorld PlaneVariadic), EmptyVariadic,
     NetSetError (MkNetArchive [true] false), false).
Proof.
  apply (NetSerializeLoad_unresolved_type ExampleNetOps PlaneWorld PlaneVariadic
           (MkNetArchive (true :: unary 7 ++ [true]) false)
           (MkNetArchive (unary 7 ++ [true]) false) (MkNetArchive [true] false) true
           PlaneVariadic_wf); vm_compute; reflexivity.
Defined.

Lemma NetSerializeLoad_same_type_in_place_witness :
  let '(v, ar3, ok3) :=
    NetReadValue ExampleNetOps FPlane (ValueAt PlaneWorld PlaneVariadic (GetMemory PlaneVariadic))
      (MkNetArchive (unary 4 ++ flat_map (fun x => unary (Z.to_nat x)) [5; 6; 7; 8]) false) true in
  let '(b, w', c', ar', ok') :=
    NetSerializeLoad ExampleNetOps PlaneWorld PlaneVariadic (MkNetArchive NetPlaneBits false) true in
  b = true /\ ar' = ar3 /\ ok' = ok3 /\ ScriptStruct c' = Some FPlane /\
  Deref w' c' (GetMemory c') = Some v /\ ContainerWF w' c' /\ WorldWF w' /\
  HeapBlock c' = HeapBlock PlaneVariadic /\ NextAddr w' = NextAddr PlaneWorld /\
  Events w' = Events PlaneWorld.
Proof.
  apply (NetSerializeLoad_same_type_in_place ExampleNetOps PlaneWorld PlaneVariadic FPlane
           (MkNetArchive NetPlaneBits false)
           (MkNetArchive (unary 3 ++ unary 4 ++ flat_map (fun x => unary (Z.to_nat x)) [5; 6; 7; 8]) false)
           (MkNetArchive (unary 4 ++ flat_map (fun x => unary (Z.to_nat x)) [5; 6; 7; 8]) false) true
           PlaneVariadic_wf PlaneWorld_wf); vm_compute; reflexivity.
Defined.

Lemma NetSerialize_roundtrip_witness :
  let '(b, arS, okS) := NetSerializeSave ExampleNetOps PlaneWorld PlaneVariadic (MkNetArchive [] false) true in
  b = true /\ okS = true /\ NetIsError arS = false /\
  let '(b', w', c', arL, ok') :=
    NetSerializeLoad ExampleNetOps PlaneWorld VectorVariadic (MkNetArchive (NetBits arS ++ [false]) false) true in
  b' = true /\ arL = MkNetArchive [false] false /\ ok' = true /\
  ScriptStruct c' = ScriptStruct PlaneVariadic /\
  Deref w' c' (GetMemory c') = Deref PlaneWorld PlaneVariadic (GetMemory PlaneVariadic) /\
  ContainerWF w' c' /\ WorldWF w'.
Proof.
  apply (NetSerialize_roundtrip ExampleNetOps PlaneWorld PlaneVariadic PlaneWorld VectorVariadic
           [false] true).
  - intros s Hs. cbn in Hs. injection Hs as <-. exists (unary 3).
    split; [reflexivity | intros r; reflexivity].
  - intros s v bits Hs Hd. cbn in Hs. injection Hs as <-. cbn in Hd. injection Hd as <-.
    exists (unary 4 ++ flat_map (fun x => unary (Z.to_nat x)) [1; 2; 3; 4]).
    split; [reflexivity | intros old r; reflexivity].
  - exact PlaneVariadic_wf.
  - apply VectorVariadic_wf.
  - exact PlaneWorld_wf.
Defined.
